(** * Auto-Focus-Mode: the GUI controller, its log relay and the session queries

    A shallow embedding of [src/gui/controller.py] (classes [GuiLogStream]
    and [FocusController]) and of the small backend modules
    [src/modules/policy_engine.py] and [src/modules/data_logger.py].

    Python code that can raise is written in a small state-and-exception
    monad; the objects a method mutates (the fields of [self], the shared
    queue, the console, the local list [sessions]) are the monad's state, so
    that what was mutated before an exception stays mutated, as in Python. *)

From Stdlib Require Import ZArith QArith String Ascii List Sorted Lia.
From stdpp Require Import base gmap strings list.
From Equations Require Import Equations.
Import ListNotations.

Local Open Scope string_scope.

(** ** Exceptions and the state-and-exception monad *)

(** The exception classes the modelled code can meet.  All of them derive
    from Python's [Exception]; [OperationalError] and [DatabaseError] are
    the sqlite3 ones ([OperationalError] is a subclass of [DatabaseError],
    not the other way round). *)
Inductive exn_class :=
| OperationalError
| DatabaseError
| OverflowError
| ValueError
| TypeError
| IndexError
| KeyError
| RuntimeError
| OSError
| AttributeError
| QueueEmpty.

Record exn := Exn { exn_cls : exn_class; exn_msg : string }.

Definition exn_class_eqb (a b : exn_class) : bool :=
  match a, b with
  | OperationalError, OperationalError | DatabaseError, DatabaseError
  | OverflowError, OverflowError | ValueError, ValueError
  | TypeError, TypeError | IndexError, IndexError | KeyError, KeyError
  | RuntimeError, RuntimeError | OSError, OSError
  | AttributeError, AttributeError | QueueEmpty, QueueEmpty => true
  | _, _ => false
  end.

(** [except (C1, C2, ...)]: the clause takes an exception whose class is
    listed.  No listed class has a modelled subclass, so membership is
    enough. *)
Definition except_classes (cs : list exn_class) (e : exn) : bool :=
  existsb (exn_class_eqb (exn_cls e)) cs.

(** [except Exception]: takes every modelled exception. *)
Definition except_Exception (e : exn) : bool := true.

Inductive outcome (A : Type) :=
| Return (a : A)
| Raise (e : exn).
Arguments Return {A} a.
Arguments Raise {A} e.

Definition M (S A : Type) : Type := S -> outcome A * S.

Definition ret {S A} (a : A) : M S A := fun s => (Return a, s).

Definition raise {S A} (e : exn) : M S A := fun s => (Raise e, s).

Definition bind {S A B} (m : M S A) (k : A -> M S B) : M S B :=
  fun s => match m s with
           | (Return a, s') => k a s'
           | (Raise e, s') => (Raise e, s')
           end.

Definition get {S} : M S S := fun s => (Return s, s).

Definition modify {S} (f : S -> S) : M S unit := fun s => (Return tt, f s).

(** [try: body  except <clause> as e: handler e].  The handler runs in the
    state the body had reached when it raised. *)
Definition try_except {S A} (body : M S A) (clause : exn -> bool)
    (handler : exn -> M S A) : M S A :=
  fun s => match body s with
           | (Return a, s') => (Return a, s')
           | (Raise e, s') => if clause e then handler e s' else (Raise e, s')
           end.

Declare Scope py_scope.
Delimit Scope py_scope with py.
Notation "x <- c1 ;; c2" := (bind c1 (fun x => c2))
  (at level 100, c1 at next level, right associativity) : py_scope.
Notation "c1 ;; c2" := (bind c1 (fun _ => c2))
  (at level 100, right associativity) : py_scope.

(** An external call whose outcome the environment decides: [None] for a
    normal return, [Some e] when the call raises [e]. *)
Definition returns_or_raises {S} (o : option exn) : M S unit :=
  match o with
  | None => ret tt
  | Some e => raise e
  end.

Definition LF : ascii := ascii_of_nat 10.
Definition CR : ascii := ascii_of_nat 13.

(** ** The log relay: [GuiLogStream] *)

Module LogRelay.

(** What the original stream ([sys.stdout] or [sys.stderr]) receives. *)
Inductive sink_event :=
| SinkWrite (message : string)
| SinkFlush.

(** A [GuiLogStream] together with the two objects it refers to: the queue
    it shares with the controller (and with the other relay), and the
    original stream.  [_lock] only serialises callers and has no data. *)
Record GuiLogStream := {
  _queue : list (string * string);
  _original_stream : list sink_event;
  _stream_name : string;
  _buffer : string
}.

Definition put (item : string * string) (s : GuiLogStream) : GuiLogStream :=
  {| _queue := _queue s ++ [item];
     _original_stream := _original_stream s;
     _stream_name := _stream_name s;
     _buffer := _buffer s |}.

Definition emit (ev : sink_event) (s : GuiLogStream) : GuiLogStream :=
  {| _queue := _queue s;
     _original_stream := _original_stream s ++ [ev];
     _stream_name := _stream_name s;
     _buffer := _buffer s |}.

Definition set_buffer (b : string) (s : GuiLogStream) : GuiLogStream :=
  {| _queue := _queue s;
     _original_stream := _original_stream s;
     _stream_name := _stream_name s;
     _buffer := b |}.

(** [line.rstrip("\r")]: removes every trailing carriage return. *)
Fixpoint rstrip_cr (s : string) : string :=
  match s with
  | EmptyString => EmptyString
  | String c s' =>
      match rstrip_cr s' with
      | EmptyString => if Ascii.eqb c CR then EmptyString else String c EmptyString
      | r => String c r
      end
  end.

(** ["\n" in s] and [s.split("\n", 1)] at once: [None] when [s] has no
    newline, otherwise the text before the first newline and the text
    after it. *)
Fixpoint split_newline (s : string) : option (string * string) :=
  match s with
  | EmptyString => None
  | String c s' =>
      if Ascii.eqb c LF then Some (EmptyString, s')
      else match split_newline s' with
           | Some (line, rest) => Some (String c line, rest)
           | None => None
           end
  end.

Definition inspect {A} (a : A) : {b | a = b} := exist _ a eq_refl.

(** The [while "\n" in self._buffer] loop of [write]; its variables are the
    buffer and the queue.  Each round shortens the buffer. *)
Equations? drain (name : string) (buf : string) (q : list (string * string))
  : string * list (string * string) by wf (String.length buf) lt :=
drain name buf q with inspect (split_newline buf) := {
  | exist _ (Some (pair line rest)) H := drain name rest (q ++ [(name, rstrip_cr line)])
  | exist _ None _ := (buf, q) }.
Proof.
  clear drain. revert line rest H.
  induction buf as [|c s IH]; intros line rest; simpl; [discriminate|].
  destruct (Ascii.eqb c LF).
  - intros [= <- <-]. lia.
  - destruct (split_newline s) as [[l' r']|] eqn:E; [|discriminate].
    intros [= <- <-]. specialize (IH _ _ eq_refl). lia.
Qed.

Definition run_drain (s : GuiLogStream) : GuiLogStream :=
  let r := drain (_stream_name s) (_buffer s) (_queue s) in
  {| _queue := r.2;
     _original_stream := _original_stream s;
     _stream_name := _stream_name s;
     _buffer := r.1 |}.

(** [GuiLogStream.write]. *)
Definition write (message : string) : M GuiLogStream nat :=
  (if String.eqb message "" then ret 0%nat
   else
     modify (emit (SinkWrite message)) ;;
     modify (emit SinkFlush) ;;
     modify (fun s => set_buffer (_buffer s +:+ message) s) ;;
     modify run_drain ;;
     ret (String.length message))%py.

(** [GuiLogStream.flush]. *)
Definition flush : M GuiLogStream unit :=
  (modify (emit SinkFlush) ;;
   s <- get ;;
   if String.eqb (_buffer s) "" then ret tt
   else
     modify (put (_stream_name s, rstrip_cr (_buffer s))) ;;
     modify (set_buffer ""))%py.

(** Successive [write] calls. *)
Fixpoint write_all (messages : list string) : M GuiLogStream unit :=
  match messages with
  | [] => ret tt
  | m :: ms => (write m ;; write_all ms)%py
  end.

(** The reading of "complete newline-terminated segments": the lines of a
    text that end in a newline, without that newline, and the unterminated
    text after the last of them. *)
Fixpoint split_lines (s : string) : list string * string :=
  match s with
  | EmptyString => ([], EmptyString)
  | String c s' =>
      let r := split_lines s' in
      if Ascii.eqb c LF then (EmptyString :: r.1, r.2)
      else match r.1 with
           | [] => ([], String c r.2)
           | l :: ls => (String c l :: ls, r.2)
           end
  end.

Definition join_lines (ls : list string) : string :=
  fold_right (fun l acc => l +:+ String LF acc) EmptyString ls.

Definition has_newline (s : string) : bool :=
  match split_newline s with Some _ => true | None => false end.

Definition queued (name : string) (ls : list string) : list (string * string) :=
  map (fun l => (name, rstrip_cr l)) ls.

(** The texts of successive writes, end to end. *)
Definition written (messages : list string) : string :=
  fold_right String.append EmptyString messages.

Fixpoint carriage_returns (n : nat) : string :=
  match n with
  | O => EmptyString
  | S k => String CR (carriage_returns k)
  end.

Fixpoint ends_with_cr (s : string) : bool :=
  match s with
  | EmptyString => false
  | String c EmptyString => Ascii.eqb c CR
  | String _ s' => ends_with_cr s'
  end.

(** A fresh relay, as [run_daemon] builds it over a queue and a stream. *)
Definition new_stream (q : list (string * string)) (name : string) : GuiLogStream :=
  {| _queue := q; _original_stream := []; _stream_name := name; _buffer := "" |}.

End LogRelay.

(** ** The task lifecycle controller: [FocusController] *)

Module Controller.

(** The calls the controller makes to the outside, in the order made.
    [unblock_websites] and [apply_focus_policies] come from the backend's
    [main] module; the controller only invokes them. *)
Inductive event :=
| Call_thread_start
| Call_call_soon_threadsafe_cancel
| Call_unblock_websites
| Call_apply_focus_policies (mode : string)
| Call_thread_join
| Call_print (text : string).

Definition event_eqb (a b : event) : bool :=
  match a, b with
  | Call_thread_start, Call_thread_start => true
  | Call_call_soon_threadsafe_cancel, Call_call_soon_threadsafe_cancel => true
  | Call_unblock_websites, Call_unblock_websites => true
  | Call_apply_focus_policies m, Call_apply_focus_policies m' => String.eqb m m'
  | Call_thread_join, Call_thread_join => true
  | Call_print t, Call_print t' => String.eqb t t'
  | _, _ => false
  end.

(** The [threading.Thread] object behind [daemon_thread]. *)
Record thread := { is_alive : bool }.

Record FocusController := {
  is_running : bool;
  daemon_thread : option thread;
  daemon_loop : option nat;
  daemon_task : option nat;
  stop_event : bool;
  current_status : string;
  log_queue : list (string * string)
}.

(** The controller object and the trace of its outside calls. *)
Record world := {
  self : FocusController;
  calls : list event
}.

(** How the outside answers during one call of [start_focus] or
    [stop_focus]: for each fallible call, whether it raises, and whether the
    thread has exited when [join(timeout=3.0)] returns. *)
Record environment := {
  thread_start : option exn;
  call_soon_threadsafe : option exn;
  unblock_websites : option exn;
  apply_focus_policies : option exn;
  thread_join : option exn;
  exits_within_timeout : bool
}.

Definition with_self (f : FocusController -> FocusController) (w : world) : world :=
  {| self := f (self w); calls := calls w |}.

Definition record (ev : event) (w : world) : world :=
  {| self := self w; calls := calls w ++ [ev] |}.

Definition set_is_running (b : bool) (c : FocusController) : FocusController :=
  {| is_running := b; daemon_thread := daemon_thread c;
     daemon_loop := daemon_loop c; daemon_task := daemon_task c;
     stop_event := stop_event c; current_status := current_status c;
     log_queue := log_queue c |}.

Definition set_daemon_thread (t : option thread) (c : FocusController) : FocusController :=
  {| is_running := is_running c; daemon_thread := t;
     daemon_loop := daemon_loop c; daemon_task := daemon_task c;
     stop_event := stop_event c; current_status := current_status c;
     log_queue := log_queue c |}.

Definition set_daemon_handles (l t : option nat) (c : FocusController) : FocusController :=
  {| is_running := is_running c; daemon_thread := daemon_thread c;
     daemon_loop := l; daemon_task := t;
     stop_event := stop_event c; current_status := current_status c;
     log_queue := log_queue c |}.

Definition set_stop_event (b : bool) (c : FocusController) : FocusController :=
  {| is_running := is_running c; daemon_thread := daemon_thread c;
     daemon_loop := daemon_loop c; daemon_task := daemon_task c;
     stop_event := b; current_status := current_status c;
     log_queue := log_queue c |}.

Definition set_current_status (s : string) (c : FocusController) : FocusController :=
  {| is_running := is_running c; daemon_thread := daemon_thread c;
     daemon_loop := daemon_loop c; daemon_task := daemon_task c;
     stop_event := stop_event c; current_status := s;
     log_queue := log_queue c |}.

Definition set_log_queue (q : list (string * string)) (c : FocusController) : FocusController :=
  {| is_running := is_running c; daemon_thread := daemon_thread c;
     daemon_loop := daemon_loop c; daemon_task := daemon_task c;
     stop_event := stop_event c; current_status := current_status c;
     log_queue := q |}.

Definition assign (f : FocusController -> FocusController) : M world unit :=
  modify (with_self f).

(** An outside call: recorded, then it returns or raises. *)
Definition call (ev : event) (o : option exn) : M world unit :=
  (modify (record ev) ;; returns_or_raises o)%py.

(** [print(text)], taken for the call it is and as returning.  The stream
    behind [sys.stdout], the relays installed over it and a console that
    refuses the text are in [Process] below. *)
Definition print (text : string) : M world unit := modify (record (Call_print text)).

(** [self.log_queue.get_nowait()]. *)
Definition get_nowait : M world (string * string) :=
  (w <- get ;;
   match log_queue (self w) with
   | [] => raise (Exn QueueEmpty "")
   | item :: rest => assign (set_log_queue rest) ;; ret item
   end)%py.

(** [while True: self.log_queue.get_nowait()], run for at most [fuel]
    rounds; the loop has no exit of its own and ends by [queue.Empty]. *)
Fixpoint get_nowait_forever (fuel : nat) : M world unit :=
  match fuel with
  | O => ret tt
  | S n => (get_nowait ;; get_nowait_forever n)%py
  end.

Definition clear_log_queue : M world unit :=
  (w <- get ;;
   try_except (get_nowait_forever (S (length (log_queue (self w)))))
     (except_classes [QueueEmpty])
     (fun _ => ret tt))%py.

(** The [try] block of [start_focus]. *)
Definition start_body (env : environment) : M world bool :=
  (assign (set_stop_event false) ;;
   clear_log_queue ;;
   assign (set_daemon_thread (Some {| is_alive := false |})) ;;
   call Call_thread_start (thread_start env) ;;
   assign (set_daemon_thread (Some {| is_alive := true |})) ;;
   assign (set_is_running true) ;;
   assign (set_current_status "Focus Active") ;;
   ret true)%py.

(** [FocusController.start_focus]. *)
Definition start_focus (env : environment) : M world bool :=
  (w <- get ;;
   if is_running (self w) then ret false
   else
     try_except (start_body env) except_Exception
       (fun e =>
          print ("[GUI] Failed to start focus mode: " +:+ exn_msg e) ;;
          ret false))%py.

Definition is_some {A} (o : option A) : bool :=
  match o with Some _ => true | None => false end.

Definition thread_is_alive (o : option thread) : bool :=
  match o with Some t => is_alive t | None => false end.

(** The [try] block of [stop_focus]. *)
Definition stop_body (env : environment) : M world bool :=
  (assign (set_stop_event true) ;;
   w <- get ;;
   (if is_some (daemon_loop (self w)) && is_some (daemon_task (self w)) then
      try_except
        (call Call_call_soon_threadsafe_cancel (call_soon_threadsafe env))
        except_Exception
        (fun e => print ("[GUI] Error cancelling task: " +:+ exn_msg e))
    else ret tt) ;;
   try_except
     (call Call_unblock_websites (unblock_websites env) ;;
      call (Call_apply_focus_policies "productive") (apply_focus_policies env))
     except_Exception
     (fun e => print ("[GUI] Warning: Error during cleanup: " +:+ exn_msg e)) ;;
   assign (set_is_running false) ;;
   assign (set_current_status "Idle") ;;
   w <- get ;;
   (if thread_is_alive (daemon_thread (self w)) then
      call Call_thread_join (thread_join env) ;;
      assign (set_daemon_thread
                (Some {| is_alive := negb (exits_within_timeout env) |}))
    else ret tt) ;;
   ret true)%py.

(** [FocusController.stop_focus]. *)
Definition stop_focus (env : environment) : M world bool :=
  (w <- get ;;
   if negb (is_running (self w)) then ret false
   else
     try_except (stop_body env) except_Exception
       (fun e =>
          print ("[GUI] Failed to stop focus mode: " +:+ exn_msg e) ;;
          assign (set_is_running false) ;;
          assign (set_current_status "Idle") ;;
          ret false))%py.

(** [FocusController.get_status]. *)
Definition get_status (c : FocusController) : string := current_status c.

(** [FocusController.get_log_queue]. *)
Definition get_log_queue (c : FocusController) : list (string * string) := log_queue c.

(** [FocusController.__init__], after [_init_database] (which catches and
    prints its own failure and leaves the fields alone). *)
Definition init : world :=
  {| self := {| is_running := false; daemon_thread := None;
                daemon_loop := None; daemon_task := None;
                stop_event := false; current_status := "Idle";
                log_queue := [] |};
     calls := [] |}.

(** What the background thread does to the controller, in [run_daemon]:
    on entry it stores its loop and its task; while it runs, its relays put
    lines on the queue; in its [finally] block it clears both handles, after
    which the thread ends. *)
Definition daemon_enters (loop task : nat) : world -> world :=
  with_self (set_daemon_handles (Some loop) (Some task)).

Definition daemon_logs (lines : list (string * string)) : world -> world :=
  with_self (fun c => set_log_queue (log_queue c ++ lines) c).

Definition daemon_leaves : world -> world :=
  with_self (fun c =>
    set_daemon_thread (match daemon_thread c with
                       | Some _ => Some {| is_alive := false |}
                       | None => None
                       end)
      (set_daemon_handles None None c)).

(** The GUI timer drains the queue it got from [get_log_queue]. *)
Definition gui_drains : world -> world :=
  with_self (set_log_queue []).

(** One step of the controller's life: a call from the GUI thread or a
    move of the background thread. *)
Inductive step : world -> world -> Prop :=
| step_start env w : step w (start_focus env w).2
| step_stop env w : step w (stop_focus env w).2
| step_daemon_enters loop task w : step w (daemon_enters loop task w)
| step_daemon_logs lines w : step w (daemon_logs lines w)
| step_daemon_leaves w : step w (daemon_leaves w)
| step_gui_drains w : step w (gui_drains w).

Inductive reachable : world -> Prop :=
| reachable_init : reachable init
| reachable_step w w' : reachable w -> step w w' -> reachable w'.

(** A world written out field by field. *)
Definition mk_world r th dl dt se st q tr : world :=
  {| self := {| is_running := r; daemon_thread := th; daemon_loop := dl;
                daemon_task := dt; stop_event := se; current_status := st;
                log_queue := q |};
     calls := tr |}.

(** The status string agrees with the running flag. *)
Definition consistent (w : world) : Prop :=
  (is_running (self w) = true /\ current_status (self w) = "Focus Active")
  \/ (is_running (self w) = false /\ current_status (self w) = "Idle").

Definition count_calls (ev : event) (trace : list event) : nat :=
  length (filter (fun e => event_eqb ev e = true) trace).

End Controller.

(** ** The session query facade: [get_recent_sessions] and [get_session_stats] *)

Module Facade.

(** A value read from a SQLite column.  The connection is opened without
    [detect_types], so a stored text comes back as [str], never as a
    [datetime].  REAL values are left out. *)
Inductive sqlvalue :=
| SqlNull
| SqlInteger (z : Z)
| SqlText (s : string)
| SqlBlob (b : string).

(** A fetched row [(app_name, mode, timestamp)]. *)
Abbreviation row := (sqlvalue * sqlvalue * sqlvalue)%type.

(** An item of the returned list [(app_name, mode, duration_minutes)]. *)
Abbreviation session := (sqlvalue * sqlvalue * Q)%type.

(** SQLite's order on stored values: NULL, then numbers, then text (by
    code), then blobs. *)
Definition sql_rank (v : sqlvalue) : Z :=
  match v with SqlNull => 0 | SqlInteger _ => 1 | SqlText _ => 2 | SqlBlob _ => 3 end.

Definition sql_compare (a b : sqlvalue) : comparison :=
  match a, b with
  | SqlInteger x, SqlInteger y => Z.compare x y
  | SqlText x, SqlText y => String.compare x y
  | SqlBlob x, SqlBlob y => String.compare x y
  | _, _ => Z.compare (sql_rank a) (sql_rank b)
  end.

Definition sql_leb (a b : sqlvalue) : bool :=
  match sql_compare a b with Gt => false | _ => true end.

(** [ORDER BY timestamp DESC]: rows with equal timestamps keep their
    stored order. *)
Fixpoint insert_desc (r : row) (rs : list row) : list row :=
  match rs with
  | [] => [r]
  | r' :: rs' =>
      if sql_leb r'.2 r.2 then r :: r' :: rs' else r' :: insert_desc r rs'
  end.

Definition order_by_timestamp_desc (rs : list row) : list row :=
  fold_right insert_desc [] rs.

(** [LIMIT ?]: a negative bound means no bound. *)
Definition sql_limit (limit : Z) (rs : list row) : list row :=
  if (limit <? 0)%Z then rs else take (Z.to_nat limit) rs.

(** A table as the queries of the facade find it: its rows in stored
    order, or the reason a [SELECT] of the three columns cannot be prepared
    on it (a missing column, a damaged file). *)
Inductive table :=
| Stored (rs : list row)
| Failing (e : exn).

(** The database file behind [DB_FILE].  A name absent from [tables] is a
    table that does not exist. *)
Record database := {
  connect : option exn;
  tables : gmap string table
}.

Inductive db_event :=
| Connected
| Executed (table_name : string)
| Closed
| Printed (text : string).

(** The local list [sessions] and the trace of what the call did
    outside. *)
Record frame := {
  sessions : list session;
  trace : list db_event
}.

Definition note (ev : db_event) (f : frame) : frame :=
  {| sessions := sessions f; trace := trace f ++ [ev] |}.

Definition append (s : session) (f : frame) : frame :=
  {| sessions := sessions f ++ [s]; trace := trace f |}.

(** The line the facade prints when it has caught [e]. *)
Definition failure_line (e : exn) : db_event :=
  Printed ("[GUI] Error fetching sessions: " +:+ exn_msg e).

(** [sessions = []]. *)
Definition reset (f : frame) : frame := {| sessions := []; trace := trace f |}.

Definition no_such_table (name : string) : exn :=
  Exn OperationalError ("no such table: " +:+ name).

(** What [cursor.execute("SELECT ... FROM <name> ORDER BY timestamp DESC
    LIMIT ?", (limit,))] and [cursor.fetchall()] give.  The statement is
    prepared first, which is when a missing table is found; the bound is
    bound afterwards, and one that does not fit SQLite's 64-bit integer is
    refused then. *)
Definition query (db : database) (name : string) (limit : Z) : outcome (list row) :=
  match tables db !! name with
  | None => Raise (no_such_table name)
  | Some (Failing e) => Raise e
  | Some (Stored rs) =>
      if ((limit <? - 2 ^ 63) || (2 ^ 63 <=? limit))%Z then
        Raise (Exn OverflowError "Python int too large to convert to SQLite INTEGER")
      else Return (sql_limit limit (order_by_timestamp_desc rs))
  end.

Definition select_recent (db : database) (name : string) (limit : Z)
  : M frame (list row) :=
  (modify (note (Executed name)) ;;
   match query db name limit with
   | Return rows => ret rows
   | Raise e => raise e
   end)%py.

(** [(a - b).total_seconds() / 60.0] for a difference of [micro]
    microseconds, as the exact quotient. *)
Definition minutes (micro : Z) : Q := micro # 60000000.

(** How an error message names the Python value a fetched value comes back
    as: [None], an [int], a [str] or [bytes]. *)
Definition type_name (v : sqlvalue) : string :=
  match v with
  | SqlNull => "None"
  | SqlInteger _ => "int"
  | SqlText _ => "str"
  | SqlBlob _ => "bytes"
  end.

Definition positive (d : Q) : bool := negb (Qle_bool d 0).

Section Rows.

(** [datetime.strptime(text, "%Y-%m-%d %H:%M:%S")] as microseconds on the
    time line, [None] where Python raises [ValueError]; and the reading of
    [datetime.now()]. *)
Variable strptime : string -> option Z.
Variable now : Z.

(** [datetime.strptime(v, ...)] on a fetched value; one that is not a
    [str] is refused with a [TypeError] that names what it is. *)
Definition parse_timestamp (v : sqlvalue) : M frame Z :=
  match v with
  | SqlText s =>
      match strptime s with
      | Some t => ret t
      | None => raise (Exn ValueError "time data does not match format")
      end
  | _ => raise (Exn TypeError ("strptime() argument 1 must be str, not " +:+ type_name v))
  end.

(** [rows[j]] for [j >= 0]. *)
Definition index (rows : list row) (j : nat) : M frame row :=
  match rows !! j with
  | Some r => ret r
  | None => raise (Exn IndexError "list index out of range")
  end.

Definition keep_positive (app_name mode : sqlvalue) (duration : Q) : M frame unit :=
  if positive duration then modify (append (app_name, mode, duration)) else ret tt.

(** The body of the [for] loop over [enumerate(rows)] for [focus_log]. *)
Definition focus_log_row (rows : list row) (i : nat) (r : row) : M frame unit :=
  (let '(app_name, mode, timestamp) := r in
   try_except
     (session_time <- parse_timestamp timestamp ;;
      duration <-
        (if Nat.eqb i 0 then ret (minutes (now - session_time))
         else
           previous <- index rows (i - 1) ;;
           next_time <- parse_timestamp previous.2 ;;
           ret (minutes (next_time - session_time))) ;;
      keep_positive app_name mode duration)
     (except_classes [ValueError; IndexError])
     (fun _ => modify (append (app_name, mode, 0%Q))))%py.

(** In the [focus_sessions] branch a value that is not a [str] is used as
    it is. *)
Inductive pyvalue :=
| Datetime (t : Z)
| Fetched (v : sqlvalue).

Definition as_datetime (v : sqlvalue) : M frame pyvalue :=
  match v with
  | SqlText _ => (t <- parse_timestamp v ;; ret (Datetime t))%py
  | _ => ret (Fetched v)
  end.

(** The type of an operand as a [TypeError] of [-] names it. *)
Definition operand_name (p : pyvalue) : string :=
  match p with
  | Datetime _ => "datetime.datetime"
  | Fetched SqlNull => "NoneType"
  | Fetched v => type_name v
  end.

(** [(a - b).total_seconds() / 60.0]: two integers subtract to an integer,
    which has no [total_seconds]; any other pair with a fetched value does
    not subtract. *)
Definition minutes_between (a b : pyvalue) : M frame Q :=
  match a, b with
  | Datetime x, Datetime y => ret (minutes (x - y))
  | Fetched (SqlInteger _), Fetched (SqlInteger _) =>
      raise (Exn AttributeError "'int' object has no attribute 'total_seconds'")
  | _, _ =>
      raise (Exn TypeError ("unsupported operand type(s) for -: '" +:+ operand_name a
                            +:+ "' and '" +:+ operand_name b +:+ "'"))
  end.

(** The body of the [for] loop over [enumerate(rows)] for
    [focus_sessions]. *)
Definition focus_sessions_row (rows : list row) (i : nat) (r : row) : M frame unit :=
  (let '(app_name, category, timestamp) := r in
   try_except
     (session_time <- as_datetime timestamp ;;
      duration <-
        (if Nat.eqb i 0 then minutes_between (Datetime now) session_time
         else
           previous <- index rows (i - 1) ;;
           next_time <- as_datetime previous.2 ;;
           minutes_between next_time session_time) ;;
      keep_positive app_name category duration)
     (except_classes [ValueError; TypeError; IndexError])
     (fun _ => modify (append (app_name, category, 0%Q))))%py.

(** [for i, x in enumerate(l): body], counting from [i]. *)
Fixpoint for_enumerate {A} (body : nat -> A -> M frame unit) (i : nat) (l : list A)
  : M frame unit :=
  match l with
  | [] => ret tt
  | x :: xs => (body i x ;; for_enumerate body (S i) xs)%py
  end.

(** The inner [try] block: the query on [focus_log] and its loop. *)
Definition from_focus_log (db : database) (limit : Z) : M frame unit :=
  (rows <- select_recent db "focus_log" limit ;;
   for_enumerate (focus_log_row rows) 0 rows)%py.

(** The handler of [except sqlite3.OperationalError]. *)
Definition from_focus_sessions (db : database) (limit : Z) : M frame unit :=
  (rows <- select_recent db "focus_sessions" limit ;;
   for_enumerate (focus_sessions_row rows) 0 rows)%py.

(** The outer [try] block. *)
Definition fetch (db : database) (limit : Z) : M frame unit :=
  (modify (note Connected) ;;
   returns_or_raises (connect db) ;;
   try_except (from_focus_log db limit)
     (except_classes [OperationalError])
     (fun _ => from_focus_sessions db limit) ;;
   modify (note Closed))%py.

(** [FocusController.get_recent_sessions]. *)
Definition get_recent_sessions (db : database) (limit : Z) : M frame (list session) :=
  (modify reset ;;
   try_except (fetch db limit) except_Exception
     (fun e => modify (note (failure_line e))) ;;
   f <- get ;;
   ret (sessions f))%py.

Record stats := {
  total_sessions : nat;
  total_time_minutes : Q;
  productive_count : nat;
  distracted_count : nat
}.

Definition mode_is (name : string) (s : session) : bool :=
  match s.1.2 with
  | SqlText m => String.eqb m name
  | _ => false
  end.

(** [FocusController.get_session_stats]. *)
Definition get_session_stats (db : database) : M frame stats :=
  (sessions <- get_recent_sessions db 1000 ;;
   ret {| total_sessions := length sessions;
          total_time_minutes := fold_left (fun acc s => Qplus acc s.2) sessions 0%Q;
          productive_count := length (filter (fun s => mode_is "productive" s = true) sessions);
          distracted_count := length (filter (fun s => mode_is "distracted" s = true) sessions) |})%py.

(** *** The derived duration view, row by row

    What the loops are to compute for the row at index [i] of [rows]: the
    time the row is measured against is [now] for the first row and the
    time of the row listed just before it for any other row. *)

Definition stored_time (v : sqlvalue) : option Z :=
  match v with
  | SqlText s => strptime s
  | _ => None
  end.

(** The timestamp of the row reads. *)
Definition reads (r : row) : Prop := is_Some (stored_time r.2).

Definition later_time (rows : list row) (i : nat) : option Z :=
  match i with
  | O => Some now
  | S j => p ← rows !! j; stored_time p.2
  end.

Definition computed_duration (rows : list row) (i : nat) (r : row) : option Q :=
  t ← stored_time r.2; l ← later_time rows i; Some (minutes (l - t)).

(** The items row [i] contributes to the returned list: the row with its
    duration when that is positive, nothing when it is not, and the row
    with [0.0] when a timestamp involved cannot be read. *)
Definition entry (rows : list row) (i : nat) (r : row) : list session :=
  match computed_duration rows i r with
  | Some d => if positive d then [(r.1.1, r.1.2, d)] else []
  | None => [(r.1.1, r.1.2, 0%Q)]
  end.

Definition derived (rows : list row) : list session :=
  concat (imap (entry rows) rows).

(** The same view for rows whose timestamps all read, written as the data
    model words it: going down the list, each record is measured against
    the record before it, the first one against [now]. *)
Fixpoint view (later : Z) (rows : list row) : list session :=
  match rows with
  | [] => []
  | r :: rest =>
      let t := default 0%Z (stored_time r.2) in
      (if positive (minutes (later - t)) then [(r.1.1, r.1.2, minutes (later - t))]
       else [])
        ++ view t rest
  end.

End Rows.

Definition text_stamped (r : row) : bool :=
  match r.2 with SqlText _ => true | _ => false end.

(** The rows come newest first by the stored timestamp. *)
Definition newer_first (a b : row) : Prop := sql_leb b.2 a.2 = true.

(** A returned item carries a positive duration or the default [0.0]. *)
Definition acceptable (s : session) : Prop := (0 < s.2)%Q \/ s.2 = 0%Q.

(** What one round of a loop may do, whatever the row holds: it leaves the
    trace alone and adds acceptable items only. *)
Definition round_ok (f : frame) (res : outcome unit * frame) : Prop :=
  trace res.2 = trace f
  /\ exists items, sessions res.2 = (sessions f ++ items)%list /\ Forall acceptable items.

Definition extend (items : list session) (f : frame) : frame :=
  {| sessions := sessions f ++ items; trace := trace f |}.

(** The rows the facade works on: those of [focus_log], or those of
    [focus_sessions] when the query on [focus_log] raised
    [sqlite3.OperationalError]; none when it cannot connect or a query
    fails otherwise. *)
Definition fetched_rows (db : database) (limit : Z) : option (list row) :=
  match connect db with
  | Some _ => None
  | None =>
      match query db "focus_log" limit with
      | Return rows => Some rows
      | Raise e =>
          if except_classes [OperationalError] e then
            match query db "focus_sessions" limit with
            | Return rows => Some rows
            | Raise _ => None
            end
          else None
      end
  end.

(** The one condition of the fallback: the connection is open and the
    query on [focus_log] raised [sqlite3.OperationalError], the class of "no
    such table". *)
Definition fell_back (db : database) (limit : Z) : Prop :=
  connect db = None
  /\ exists e, query db "focus_log" limit = Raise e /\ exn_cls e = OperationalError.

(** The frame of a new call, before anything has happened outside. *)
Definition blank : frame := {| sessions := []; trace := [] |}.

End Facade.

(** ** The backend modules: [policy_engine] and [data_logger] *)

Module Backend.

Import Facade.

(** [config[key]] on the mapping loaded from the YAML file, whose values
    are lists of application names. *)
Definition subscript {S} (config : gmap string (list string)) (key : string)
  : M S (list string) :=
  match config !! key with
  | Some v => ret v
  | None => raise (Exn KeyError key)
  end.

(** [name in names]. *)
Definition contains (names : list string) (name : string) : bool :=
  existsb (String.eqb name) names.

(** [policy_engine.check_app_category]. *)
Definition check_app_category {S} (app_name : string)
    (config : gmap string (list string)) : M S string :=
  (productive_apps <- subscript config "productive_apps" ;;
   if contains productive_apps app_name then ret "productive"
   else
     distracting_apps <- subscript config "distracting_apps" ;;
     if contains distracting_apps app_name then ret "distracting"
     else ret "neutral")%py.

(** [data_logger.init_db] on a database file that opens:
    [CREATE TABLE IF NOT EXISTS focus_sessions].  A file that does not open
    makes [sqlite3.connect] raise out of [init_db]; that case is left to
    the caller ([FocusController._init_database] catches and prints it). *)
Definition init_db (db : database) : database :=
  match tables db !! "focus_sessions" with
  | Some _ => db
  | None => {| connect := connect db;
               tables := <["focus_sessions" := Stored []]> (tables db) |}
  end.

(** [data_logger.log_session]: one [INSERT] into [focus_sessions];
    [stamp] is the text the sqlite3 adapter writes for [datetime.now()]. *)
Definition log_session {S} (stamp : string) (app_name category : string)
    (db : database) : M S database :=
  (returns_or_raises (connect db) ;;
   match tables db !! "focus_sessions" with
   | None => raise (no_such_table "focus_sessions")
   | Some (Failing e) => raise e
   | Some (Stored rs) =>
       ret {| connect := connect db;
              tables := <["focus_sessions" :=
                            Stored (rs ++ [(SqlText app_name, SqlText category, SqlText stamp)])]>
                          (tables db) |}
   end)%py.

(** The categories a session record may carry, as the data model lists
    them. *)
Definition record_categories : list string := ["productive"; "distracted"; "neutral"].

End Backend.

(** ** Readings of timestamps

    [strptime_padded] reads the texts ["YYYY-MM-DD HH:MM:SS"] with every
    field zero-padded, which is how [strftime] writes the format.
    [strptime_ascii] is [datetime.strptime] with that format on any ASCII
    text: it also takes fields of one digit and any white space between the
    date and the time of day. *)

Module Timestamps.

Definition digit (c : ascii) : option Z :=
  let n := Z.of_nat (nat_of_ascii c) in
  if ((48 <=? n) && (n <=? 57))%Z then Some (n - 48)%Z else None.

(** Reads exactly [n] digits. *)
Fixpoint digits (n : nat) (acc : Z) (s : string) : option (Z * string) :=
  match n with
  | O => Some (acc, s)
  | S n' =>
      match s with
      | String c s' =>
          match digit c with
          | Some d => digits n' (10 * acc + d)%Z s'
          | None => None
          end
      | EmptyString => None
      end
  end.

Definition expect (c : ascii) (s : string) : option string :=
  match s with
  | String c' s' => if Ascii.eqb c c' then Some s' else None
  | EmptyString => None
  end.

Definition is_leap (y : Z) : bool :=
  ((y mod 4 =? 0) && (negb (y mod 100 =? 0) || (y mod 400 =? 0)))%Z.

Definition days_in_month (y m : Z) : Z :=
  if (m =? 2)%Z then (if is_leap y then 29 else 28)%Z
  else if ((m =? 4) || (m =? 6) || (m =? 9) || (m =? 11))%Z then 30%Z
  else 31%Z.

(** Days from 1970-01-01 to the given date of the proleptic Gregorian
    calendar. *)
Definition days_from_civil (y m d : Z) : Z :=
  (let y' := if m <=? 2 then y - 1 else y in
   let era := y' / 400 in
   let yoe := y' - era * 400 in
   let mp := if m >? 2 then m - 3 else m + 9 in
   let doy := (153 * mp + 2) / 5 + d - 1 in
   let doe := yoe * 365 + yoe / 4 - yoe / 100 + doy in
   era * 146097 + doe - 719468)%Z.

Definition strptime_padded (s : string) : option Z :=
  '(y, s) ← digits 4 0 s;
  s ← expect "-" s;
  '(m, s) ← digits 2 0 s;
  s ← expect "-" s;
  '(d, s) ← digits 2 0 s;
  s ← expect " " s;
  '(hh, s) ← digits 2 0 s;
  s ← expect ":" s;
  '(mi, s) ← digits 2 0 s;
  s ← expect ":" s;
  '(ss, s) ← digits 2 0 s;
  if (String.eqb s "" && (1 <=? y) && (1 <=? m) && (m <=? 12) && (1 <=? d)
      && (d <=? days_in_month y m) && (hh <=? 23) && (mi <=? 59) && (ss <=? 59))%Z
  then Some ((((days_from_civil y m d * 24 + hh) * 60 + mi) * 60 + ss) * 1000000)%Z
  else None.

(** [\s] on an ASCII character: tab to carriage return, the four
    separators 28 to 31, and the space. *)
Definition is_blank (c : ascii) : bool :=
  let n := Z.of_nat (nat_of_ascii c) in
  (((9 <=? n) && (n <=? 13)) || ((28 <=? n) && (n <=? 32)))%Z.

(** A field of one or two digits: the two-digit alternatives of its
    pattern come first, then the one-digit one.  What follows a field in
    the format is a mark that no digit matches (or nothing, after the
    seconds), so the first alternative that matches is the one taken. *)
Definition field (two : Z -> Z -> bool) (one : Z -> bool) (s : string)
  : option (Z * string) :=
  match s with
  | String a r =>
      match digit a with
      | Some x =>
          match r with
          | String b r' =>
              match digit b with
              | Some y =>
                  if two x y then Some (10 * x + y, r')%Z
                  else if one x then Some (x, r) else None
              | None => if one x then Some (x, r) else None
              end
          | EmptyString => if one x then Some (x, r) else None
          end
      | None => None
      end
  | EmptyString => None
  end.

(** [%m] is [1[0-2]|0[1-9]|[1-9]]. *)
Definition month_field : string -> option (Z * string) :=
  field (fun x y => ((x =? 1) && (y <=? 2)) || ((x =? 0) && (1 <=? y)))%Z
        (fun x => (1 <=? x)%Z).

(** [%d] is [3[0-1]|[1-2]\d|0[1-9]|[1-9]| [1-9]]: the last alternative is a
    space and a digit. *)
Definition day_field (s : string) : option (Z * string) :=
  match field (fun x y => ((x =? 3) && (y <=? 1)) || ((1 <=? x) && (x <=? 2))
                          || ((x =? 0) && (1 <=? y)))%Z
              (fun x => (1 <=? x)%Z) s with
  | Some r => Some r
  | None =>
      match s with
      | String a (String b r) =>
          if Ascii.eqb a " " then
            match digit b with
            | Some y => if (1 <=? y)%Z then Some (y, r) else None
            | None => None
            end
          else None
      | _ => None
      end
  end.

(** [%H] is [2[0-3]|[0-1]\d|\d]. *)
Definition hour_field : string -> option (Z * string) :=
  field (fun x y => ((x =? 2) && (y <=? 3)) || (x <=? 1))%Z (fun _ => true).

(** [%M] is [[0-5]\d|\d]. *)
Definition minute_field : string -> option (Z * string) :=
  field (fun x _ => (x <=? 5)%Z) (fun _ => true).

(** [%S] is [6[0-1]|[0-5]\d|\d]. *)
Definition second_field : string -> option (Z * string) :=
  field (fun x y => ((x =? 6) && (y <=? 1)) || (x <=? 5))%Z (fun _ => true).

Fixpoint skip_spaces (s : string) : string :=
  match s with
  | String c s' => if is_blank c then skip_spaces s' else s
  | EmptyString => EmptyString
  end.

(** The blank of the format stands for [\s+]: white space, at least one
    character of it. *)
Definition spaces (s : string) : option string :=
  match s with
  | String c s' => if is_blank c then Some (skip_spaces s') else None
  | EmptyString => None
  end.

(** [datetime.strptime(s, "%Y-%m-%d %H:%M:%S")] on an ASCII text, as
    microseconds from 1970-01-01; [None] where Python raises
    [ValueError]: the text does not match the pattern of the format, text
    remains after the match, or the fields are not a date and a time of
    day. *)
Definition strptime_ascii (s : string) : option Z :=
  '(y, s) ← digits 4 0 s;
  s ← expect "-" s;
  '(m, s) ← month_field s;
  s ← expect "-" s;
  '(d, s) ← day_field s;
  s ← spaces s;
  '(hh, s) ← hour_field s;
  s ← expect ":" s;
  '(mi, s) ← minute_field s;
  s ← expect ":" s;
  '(ss, s) ← second_field s;
  if (String.eqb s "" && (1 <=? y) && (d <=? days_in_month y m) && (ss <=? 59))%Z
  then Some ((((days_from_civil y m d * 24 + hh) * 60 + mi) * 60 + ss) * 1000000)%Z
  else None.

End Timestamps.

(** ** The calendar behind the timestamps *)

Module Calendar.

Import Timestamps.
Local Open Scope Z_scope.

(** The month after month [m] of year [y]. *)
Definition next_year (y m : Z) : Z := if m =? 12 then y + 1 else y.
Definition next_month (m : Z) : Z := if m =? 12 then 1 else m + 1.

(** Months counted through the years: month [m] of year [y] is number
    [12 * y + m]. *)
Definition year_of (l : Z) : Z := (l - 1) / 12.
Definition month_of (l : Z) : Z := (l - 1) mod 12 + 1.

(** The day count at which a month starts, less one. *)
Definition month_start (l : Z) : Z := days_from_civil (year_of l) (month_of l) 0.

(** A date of the calendar. *)
Definition valid_date (y m d : Z) : Prop :=
  1 <= m <= 12 /\ 1 <= d <= days_in_month y m.

(** The fields of a timestamp as one number, which orders timestamps as
    their zero-padded texts are ordered. *)
Definition fields (y m d hh mi ss : Z) : Z :=
  ((((y * 100 + m) * 100 + d) * 100 + hh) * 100 + mi) * 100 + ss.

(** The time [strptime_padded] gives to the fields. *)
Definition instant (y m d hh mi ss : Z) : Z :=
  ((((days_from_civil y m d * 24 + hh) * 60 + mi) * 60 + ss) * 1000000).

(** What [strptime_padded] has read when it gives a time. *)
Record reading := {
  r_year : Z; r_month : Z; r_day : Z; r_hour : Z; r_minute : Z; r_second : Z
}.

Definition well_formed (r : reading) : Prop :=
  valid_date (r_year r) (r_month r) (r_day r)
  /\ 0 <= r_hour r <= 23 /\ 0 <= r_minute r <= 59 /\ 0 <= r_second r <= 59.

Definition key (r : reading) : Z :=
  fields (r_year r) (r_month r) (r_day r) (r_hour r) (r_minute r) (r_second r).

Definition time (r : reading) : Z :=
  instant (r_year r) (r_month r) (r_day r) (r_hour r) (r_minute r) (r_second r).

End Calendar.

(** ** Runs of a log relay: writes and flushes in any order *)

Module RelayRuns.

Import LogRelay.

(** A call on a relay. *)
Inductive operation :=
| Write (message : string)
| Flush.

Definition run_operation (o : operation) : M GuiLogStream unit :=
  match o with
  | Write message => (write message ;; ret tt)%py
  | Flush => flush
  end.

Fixpoint run_operations (os : list operation) : M GuiLogStream unit :=
  match os with
  | [] => ret tt
  | o :: os' => (run_operation o ;; run_operations os')%py
  end.

(** [write_all] followed by one [flush], as [run_daemon] ends a run. *)
Definition write_all_then_flush (messages : list string) : M GuiLogStream unit :=
  (write_all messages ;; flush)%py.

(** An item a relay named [name] may put on the queue: it carries the name,
    holds no newline and does not end in a carriage return. *)
Definition clean (name : string) (item : string * string) : Prop :=
  item.1 = name /\ has_newline item.2 = false /\ ends_with_cr item.2 = false.

(** The text the original stream has received, write after write. *)
Fixpoint console_text (evs : list sink_event) : string :=
  match evs with
  | [] => EmptyString
  | SinkWrite message :: evs' => message +:+ console_text evs'
  | SinkFlush :: evs' => console_text evs'
  end.

Fixpoint console_flushes (evs : list sink_event) : nat :=
  match evs with
  | [] => 0
  | SinkWrite _ :: evs' => console_flushes evs'
  | SinkFlush :: evs' => S (console_flushes evs')
  end.

Definition nonempty (message : string) : bool := negb (String.eqb message "").

(** What [flush] puts on the queue for a buffered tail. *)
Definition tail_item (name tail : string) : list (string * string) :=
  if String.eqb tail "" then [] else [(name, rstrip_cr tail)].

End RelayRuns.

(** ** Reading the trace of the controller's outside calls *)

Module ControllerTrace.

Import Controller.

Definition is_print (ev : event) : bool :=
  match ev with
  | Call_print _ => true
  | _ => false
  end.

(** The calls of a trace that are not prints, in order. *)
Definition outside_calls (trace : list event) : list event :=
  List.filter (fun ev => negb (is_print ev)) trace.

Definition flag (b : bool) : nat := if b then 1 else 0.


Definition raises (o : option exn) : bool :=
  match o with Some _ => true | None => false end.

(** The bookkeeping the controller keeps between its flag, its stop event,
    its thread handle and its calls. *)
Definition bookkept (w : world) : Prop :=
  (is_running (self w) = true ->
   stop_event (self w) = false /\ daemon_thread (self w) <> None)
  /\ (count_calls Call_unblock_websites (calls w) + flag (is_running (self w))
      <= count_calls Call_thread_start (calls w))%nat.

End ControllerTrace.

(** ** The window and the tray icon: [FocusMainWindow], [FocusTrayIcon]

    Of the Qt widgets only what the handlers set and read is kept: the text
    and style of the status label, whether the two buttons and the two tray
    actions are enabled, the texts handed to [appendPlainText], the message
    boxes shown.  The window's [log_queue] is the controller's queue
    object, so the handlers work on the controller's field. *)

Module Gui.

Import Controller.

Record FocusTrayIcon := {
  tool_tip : string;
  start_action : bool;
  stop_action : bool;
  is_visible : bool
}.

Inductive message_box :=
| Information (title text : string)
| Warning (title text : string)
| Question (title text : string).

Record FocusMainWindow := {
  controller : world;
  tray_icon : option FocusTrayIcon;
  status_value : string;
  status_style : string;
  start_button : bool;
  stop_button : bool;
  log_output : list string;
  scrolled_to_end : nat;
  message_boxes : list message_box;
  hidden : bool
}.

Definition set_controller (w : world) (win : FocusMainWindow) : FocusMainWindow :=
  {| controller := w; tray_icon := tray_icon win;
     status_value := status_value win; status_style := status_style win;
     start_button := start_button win; stop_button := stop_button win;
     log_output := log_output win; scrolled_to_end := scrolled_to_end win;
     message_boxes := message_boxes win; hidden := hidden win |}.

Definition set_tray_icon (t : option FocusTrayIcon) (win : FocusMainWindow)
  : FocusMainWindow :=
  {| controller := controller win; tray_icon := t;
     status_value := status_value win; status_style := status_style win;
     start_button := start_button win; stop_button := stop_button win;
     log_output := log_output win; scrolled_to_end := scrolled_to_end win;
     message_boxes := message_boxes win; hidden := hidden win |}.

Definition set_status_text (text : string) (win : FocusMainWindow) : FocusMainWindow :=
  {| controller := controller win; tray_icon := tray_icon win;
     status_value := text; status_style := status_style win;
     start_button := start_button win; stop_button := stop_button win;
     log_output := log_output win; scrolled_to_end := scrolled_to_end win;
     message_boxes := message_boxes win; hidden := hidden win |}.

Definition set_status_look (style : string) (start stop : bool) (win : FocusMainWindow)
  : FocusMainWindow :=
  {| controller := controller win; tray_icon := tray_icon win;
     status_value := status_value win; status_style := style;
     start_button := start; stop_button := stop;
     log_output := log_output win; scrolled_to_end := scrolled_to_end win;
     message_boxes := message_boxes win; hidden := hidden win |}.

Definition appendPlainText (text : string) (win : FocusMainWindow) : FocusMainWindow :=
  {| controller := controller win; tray_icon := tray_icon win;
     status_value := status_value win; status_style := status_style win;
     start_button := start_button win; stop_button := stop_button win;
     log_output := log_output win ++ [text]; scrolled_to_end := scrolled_to_end win;
     message_boxes := message_boxes win; hidden := hidden win |}.

Definition scroll_to_end (win : FocusMainWindow) : FocusMainWindow :=
  {| controller := controller win; tray_icon := tray_icon win;
     status_value := status_value win; status_style := status_style win;
     start_button := start_button win; stop_button := stop_button win;
     log_output := log_output win; scrolled_to_end := S (scrolled_to_end win);
     message_boxes := message_boxes win; hidden := hidden win |}.

Definition show_box (b : message_box) (win : FocusMainWindow) : FocusMainWindow :=
  {| controller := controller win; tray_icon := tray_icon win;
     status_value := status_value win; status_style := status_style win;
     start_button := start_button win; stop_button := stop_button win;
     log_output := log_output win; scrolled_to_end := scrolled_to_end win;
     message_boxes := message_boxes win ++ [b]; hidden := hidden win |}.

Definition hide (win : FocusMainWindow) : FocusMainWindow :=
  {| controller := controller win; tray_icon := tray_icon win;
     status_value := status_value win; status_style := status_style win;
     start_button := start_button win; stop_button := stop_button win;
     log_output := log_output win; scrolled_to_end := scrolled_to_end win;
     message_boxes := message_boxes win; hidden := true |}.

(** A call on [self.controller]. *)
Definition on_controller {A} (m : M world A) : M FocusMainWindow A :=
  fun win => let r := m (controller win) in (r.1, set_controller r.2 win).

(** [FocusTrayIcon.update_status]. *)
Definition tray_update_status (status : string) (t : FocusTrayIcon) : FocusTrayIcon :=
  if String.eqb status "Focus Active" then
    {| tool_tip := "Auto Focus Mode - " +:+ status;
       start_action := false; stop_action := true; is_visible := is_visible t |}
  else
    {| tool_tip := "Auto Focus Mode - " +:+ status;
       start_action := true; stop_action := false; is_visible := is_visible t |}.

(** [FocusMainWindow.update_status]. *)
Definition update_status : M FocusMainWindow unit :=
  (win <- get ;;
   let status := get_status (self (controller win)) in
   modify (set_status_text status) ;;
   (if String.eqb status "Focus Active" then
      modify (set_status_look "font-size: 14px; color: #4CAF50; font-weight: bold;"
                false true)
    else
      modify (set_status_look "font-size: 14px; color: #666;" true false)) ;;
   match tray_icon win with
   | Some t => modify (set_tray_icon (Some (tray_update_status status t)))
   | None => ret tt
   end)%py.

(** The line [drain_log_queue] displays for a queue item. *)
Definition display_line (stream_name line : string) : string :=
  if String.eqb stream_name "stderr" && negb (String.eqb line "")
  then "[STDERR] " +:+ line
  else line.

(** The [while True] loop of [drain_log_queue], for at most [fuel] rounds;
    [None] stands for the [break] on [queue.Empty]. *)
Fixpoint drain_loop (fuel : nat) (updated : bool) : M FocusMainWindow bool :=
  match fuel with
  | O => ret updated
  | S n =>
      (item <- try_except
                 (x <- on_controller get_nowait ;; ret (Some x))
                 (except_classes [QueueEmpty])
                 (fun _ => ret None) ;;
       match item with
       | None => ret updated
       | Some (stream_name, line) =>
           modify (appendPlainText (display_line stream_name line)) ;;
           drain_loop n true
       end)%py
  end.

(** [FocusMainWindow.drain_log_queue]. *)
Definition drain_log_queue : M FocusMainWindow unit :=
  (win <- get ;;
   updated <- drain_loop (S (length (log_queue (self (controller win))))) false ;;
   if updated then modify scroll_to_end else ret tt)%py.

(** [FocusMainWindow.on_start_clicked]. *)
Definition on_start_clicked (env : environment) : M FocusMainWindow unit :=
  (started <- on_controller (start_focus env) ;;
   if started then
     modify (show_box (Information "Success" "Focus mode started successfully!")) ;;
     update_status
   else
     modify (show_box (Warning "Error"
                         "Failed to start focus mode. It may already be running.")))%py.

(** [FocusMainWindow.on_stop_clicked]. *)
Definition on_stop_clicked (env : environment) : M FocusMainWindow unit :=
  (stopped <- on_controller (stop_focus env) ;;
   if stopped then
     modify (show_box (Information "Success" "Focus mode stopped successfully!")) ;;
     update_status
   else
     modify (show_box (Warning "Error" "Failed to stop focus mode.")))%py.

(** [FocusMainWindow.auto_start_focus]. *)
Definition auto_start_focus (env : environment) : M FocusMainWindow unit :=
  (win <- get ;;
   if negb (is_running (self (controller win))) then on_start_clicked env
   else ret tt)%py.

(** [FocusMainWindow.setup_tray_icon]; a new [FocusTrayIcon] has the tool
    tip of its [__init__], its start action enabled and its stop action
    disabled, and is shown. *)
Definition setup_tray_icon (available : bool) : M FocusMainWindow unit :=
  if available then
    modify (set_tray_icon
              (Some {| tool_tip := "Auto Focus Mode - Idle";
                       start_action := true; stop_action := false;
                       is_visible := true |}))
  else ret tt.

Definition tray_is_visible (win : FocusMainWindow) : bool :=
  match tray_icon win with
  | Some t => is_visible t
  | None => false
  end.

(** [FocusMainWindow.closeEvent]: [true] when the event is accepted,
    [false] when it is ignored; [answer_yes] is the user's answer to the
    question box, should it be shown. *)
Definition closeEvent (env : environment) (answer_yes : bool) : M FocusMainWindow bool :=
  (win <- get ;;
   if tray_is_visible win then
     modify (show_box (Information "Auto Focus Mode"
       ("The application will continue to run in the system tray. "
        +:+ "To quit, choose 'Exit' from the tray icon menu."))) ;;
     modify hide ;;
     ret false
   else if is_running (self (controller win)) then
     modify (show_box (Question "Confirm Exit"
       "Focus mode is currently active. Do you want to stop it and exit?")) ;;
     if answer_yes then
       on_controller (stop_focus env) ;;
       ret true
     else ret false
   else ret true)%py.

(** What the tray icon works on: its parent window, if it has one, and
    whether [QApplication.quit] has been called. *)
Record application := {
  parent_window : option FocusMainWindow;
  quit_called : bool
}.

(** A handler of the window run through [self.parent_window]. *)
Definition on_parent {A} (m : M FocusMainWindow A) (absent : A) : M application A :=
  fun app =>
    match parent_window app with
    | Some win =>
        let r := m win in
        (r.1, {| parent_window := Some r.2; quit_called := quit_called app |})
    | None => (Return absent, app)
    end.

(** [FocusTrayIcon.on_start] and [FocusTrayIcon.on_stop]. *)
Definition on_start (env : environment) : M application unit :=
  on_parent (on_start_clicked env) tt.

Definition on_stop (env : environment) : M application unit :=
  on_parent (on_stop_clicked env) tt.

(** [FocusTrayIcon.on_exit]. *)
Definition on_exit (env : environment) : M application unit :=
  (app <- get ;;
   match parent_window app with
   | Some win =>
       (if is_running (self (controller win)) then
          on_parent (on_controller (stop_focus env) ;; ret tt) tt
        else ret tt) ;;
       modify (fun app => {| parent_window := parent_window app; quit_called := true |})
   | None => ret tt
   end)%py.

(** The buttons agree with the controller: start is offered exactly when
    it is idle, stop exactly when it is running. *)
Definition in_step (win : FocusMainWindow) : Prop :=
  start_button win = negb (is_running (self (controller win)))
  /\ stop_button win = is_running (self (controller win)).

(** The window as [init_ui] leaves it, over a controller. *)
Definition new_window (w : world) : FocusMainWindow :=
  {| controller := w; tray_icon := None;
     status_value := "Idle"; status_style := "font-size: 14px; color: #666;";
     start_button := true; stop_button := false;
     log_output := []; scrolled_to_end := 0;
     message_boxes := []; hidden := false |}.

(** A window written out field by field. *)
Definition window_with r th dl dt se st q tr t sv ss sb pb lo sc mb h : FocusMainWindow :=
  {| controller := mk_world r th dl dt se st q tr; tray_icon := t;
     status_value := sv; status_style := ss; start_button := sb; stop_button := pb;
     log_output := lo; scrolled_to_end := sc; message_boxes := mb; hidden := h |}.

End Gui.

(** ** Reading the facade's results and trace *)

Module FacadeReading.

Import Facade.

(** One round of a loop adds at most one item. *)
Definition round_small (f : frame) (res : outcome unit * frame) : Prop :=
  exists items,
    sessions res.2 = (sessions f ++ items)%list /\ (length items <= 1)%nat.

(** The trace holds a printed line. *)
Definition printed (new : list db_event) : Prop :=
  exists text, In (Printed text) new.

(** A row returned with the default duration. *)
Definition zero (r : row) : session := (r.1.1, r.1.2, 0%Q).

(** A timestamp column that holds no text and no number: NULL or a blob. *)
Definition neither_text_nor_number (v : sqlvalue) : bool :=
  match v with
  | SqlNull | SqlBlob _ => true
  | _ => false
  end.

End FacadeReading.

(** ** Logging several sessions *)

Module Logging.

Import Facade Backend.

(** A session to log: the adapter's text for the time, the application,
    the category. *)
Abbreviation logged := (string * string * string)%type.

Definition as_row (rec : logged) : row :=
  (SqlText rec.1.2, SqlText rec.2, SqlText rec.1.1).

(** [log_session] called for each session in turn. *)
Fixpoint log_sessions {S} (records : list logged) (db : database) : M S database :=
  match records with
  | [] => ret db
  | rec :: rest =>
      (db' <- log_session rec.1.1 rec.1.2 rec.2 db ;;
       log_sessions rest db')%py
  end.

(** The rows of [focus_sessions], none when the table is absent. *)
Definition stored_rows (db : database) : list row :=
  match tables db !! "focus_sessions" with
  | Some (Stored rs) => rs
  | _ => []
  end.

Definition in_range (limit : Z) : Prop := (- 2 ^ 63 <= limit < 2 ^ 63)%Z.

End Logging.

(** ** The desktop settings: [focus_orchestrator] *)

Module Orchestrator.

(** A command line, program first. *)
Abbreviation command := (list string).

(** [subprocess.call(argv)]: the environment decides whether the program
    can be launched ([None]) or the launch raises (a missing program raises
    [FileNotFoundError], an [OSError]).  The state is the list of the
    commands that were run; their exit status is not looked at by the
    code. *)
Definition subprocess_call (launch : command -> option exn) (argv : command)
  : M (list command) unit :=
  match launch argv with
  | None => modify (fun ran : list command => (ran ++ [argv])%list)
  | Some e => raise e
  end.

Definition dock_not_fixed : command :=
  ["gsettings"; "set"; "org.gnome.shell.extensions.dash-to-dock"; "dock-fixed"; "false"].

Definition banners (value : string) : command :=
  ["gsettings"; "set"; "org.gnome.desktop.notifications"; "show-banners"; value].

Definition sink_mute (value : string) : command :=
  ["pactl"; "set-sink-mute"; "@DEFAULT_SINK@"; value].

(** [focus_orchestrator.apply_focus_mode]. *)
Definition apply_focus_mode (launch : command -> option exn) : M (list command) unit :=
  (subprocess_call launch dock_not_fixed ;;
   subprocess_call launch (banners "false") ;;
   subprocess_call launch (sink_mute "1"))%py.

(** [focus_orchestrator.disable_focus_mode]. *)
Definition disable_focus_mode (launch : command -> option exn) : M (list command) unit :=
  (subprocess_call launch (banners "true") ;;
   subprocess_call launch (sink_mute "0"))%py.

(** A command names a setting when the setting is one of its arguments. *)
Definition names (setting : string) (c : command) : bool :=
  existsb (String.eqb setting) c.

(** The last command run that names a setting. *)
Fixpoint last_naming (setting : string) (ran : list command) : option command :=
  match ran with
  | [] => None
  | c :: ran' =>
      match last_naming setting ran' with
      | Some c' => Some c'
      | None => if names setting c then Some c else None
      end
  end.

(** The program a launcher refuses, all others being launched. *)
Definition without (program : string) (c : command) : option exn :=
  match c with
  | p :: _ =>
      if String.eqb p program
      then Some (Exn OSError ("No such file or directory: " +:+ program))
      else None
  | [] => None
  end.

End Orchestrator.

(** ** The active window: [activity_detection]

    The outputs of [xdotool] and [xprop] are taken as ASCII texts, which is
    what window identifiers and class names are; on such texts [decode] is
    the identity and [strip], [split], [replace] and [lower] are as written
    here. *)

Module Activity.

Abbreviation text := (list ascii).

Definition code (c : ascii) : nat := nat_of_ascii c.

Definition ascii_only (l : text) : bool := forallb (fun c => code c <? 128)%nat l.

(** [str.isspace] on an ASCII character: tab to carriage return, the four
    separators 28 to 31, and the space. *)
Definition is_space (c : ascii) : bool :=
  (((9 <=? code c) && (code c <=? 13)) || ((28 <=? code c) && (code c <=? 32)))%nat.

Fixpoint lstrip (l : text) : text :=
  match l with
  | [] => []
  | c :: l' => if is_space c then lstrip l' else l
  end.

Definition rstrip (l : text) : text := rev (lstrip (rev l)).

(** [s.strip()]. *)
Definition strip (l : text) : text := rstrip (lstrip l).

Definition comma : ascii := ascii_of_nat 44.
Definition double_quote : ascii := ascii_of_nat 34.

Fixpoint before_comma (l : text) : text :=
  match l with
  | [] => []
  | c :: l' => if Ascii.eqb c comma then [] else c :: before_comma l'
  end.

(** [s.split(',')[-1]]: the text after the last comma, the whole text when
    there is none. *)
Definition last_field (l : text) : text := rev (before_comma (rev l)).

(** [s.replace] of the double quote by the empty text. *)
Definition remove_quotes (l : text) : text :=
  List.filter (fun c => negb (Ascii.eqb c double_quote)) l.

Definition lower_char (c : ascii) : ascii :=
  if ((65 <=? code c) && (code c <=? 90))%nat then ascii_of_nat (code c + 32) else c.

(** [s.lower()]. *)
Definition lower (l : text) : text := map lower_char l.

(** [subprocess.check_output(...)], by its outcome. *)
Definition check_output (o : outcome text) : M unit text :=
  match o with
  | Return out => ret out
  | Raise e => raise e
  end.

(** [activity_detection.get_active_app]; [xprop] answers for the window
    identifier it is given. *)
Definition get_active_app (xdotool : outcome text) (xprop : text -> outcome text)
  : M unit (option text) :=
  try_except
    (out <- check_output xdotool ;;
     let win_id := strip out in
     out' <- check_output (xprop win_id) ;;
     let wm_class := strip out' in
     let app_name := lower (strip (remove_quotes (last_field wm_class))) in
     ret (Some app_name))%py
    except_Exception
    (fun _ => ret None).

Definition text_of (s : string) : text := list_ascii_of_string s.

(** A text without a double quote. *)
Definition quote_free (l : text) : Prop :=
  forallb (fun c => negb (Ascii.eqb c double_quote)) l = true.

End Activity.

(** ** The streams behind [sys.stdout] and [sys.stderr] *)

Module Streams.

Import LogRelay.

(** A stream as [sys.stdout] or [sys.stderr] can refer to one: the
    interpreter's own stream, with what it has received and the exception
    its [write] and [flush] raise when it is closed or broken; or a
    [GuiLogStream], with its name, its buffer and its [_original_stream],
    which is whatever was installed when the relay was made: the console,
    or the relay of an earlier run whose thread is still alive. *)
Inductive stream :=
| Console (received : list sink_event) (broken : option exn)
| Relay (name : string) (buffer : string) (original : stream).

(** A stream and the queue its relays put their lines on. *)
Abbreviation store := (stream * list (string * string))%type.

(** [stream.flush()]; for a relay this is [GuiLogStream.flush]. *)
Fixpoint stream_flush (s : stream) (q : list (string * string)) : outcome unit * store :=
  match s with
  | Console received broken =>
      match broken with
      | Some e => (Raise e, (s, q))
      | None => (Return tt, (Console (received ++ [SinkFlush])%list broken, q))
      end
  | Relay name buffer original =>
      match stream_flush original q with
      | (Return _, (original', q')) =>
          if String.eqb buffer "" then (Return tt, (Relay name buffer original', q'))
          else (Return tt, (Relay name "" original', (q' ++ [(name, rstrip_cr buffer)])%list))
      | (Raise e, (original', q')) => (Raise e, (Relay name buffer original', q'))
      end
  end.

(** [stream.write(message)]; for a relay this is [GuiLogStream.write],
    whose loop is [drain]. *)
Fixpoint stream_write (message : string) (s : stream) (q : list (string * string))
  : outcome nat * store :=
  match s with
  | Console received broken =>
      match broken with
      | Some e => (Raise e, (s, q))
      | None =>
          (Return (String.length message),
           (Console (received ++ [SinkWrite message])%list broken, q))
      end
  | Relay name buffer original =>
      if String.eqb message "" then (Return 0%nat, (s, q))
      else
        match stream_write message original q with
        | (Return _, (original', q')) =>
            match stream_flush original' q' with
            | (Return _, (original'', q'')) =>
                let r := drain name (buffer +:+ message) q'' in
                (Return (String.length message), (Relay name r.1 original'', r.2))
            | (Raise e, (original'', q'')) => (Raise e, (Relay name buffer original'', q''))
            end
        | (Raise e, (original', q')) => (Raise e, (Relay name buffer original', q'))
        end
  end.

Definition flush : M store unit := fun st => stream_flush st.1 st.2.

Definition write (message : string) : M store nat := fun st => stream_write message st.1 st.2.

(** [print(text)] on the stream: the text, then the line end, each by one
    [write]. *)
Definition print (text : string) : M store unit :=
  (write text ;; write (String LF "") ;; ret tt)%py.

(** The console under the relays, and what it raises. *)
Fixpoint console_of (s : stream) : list sink_event :=
  match s with
  | Console received _ => received
  | Relay _ _ original => console_of original
  end.

Fixpoint fault (s : stream) : option exn :=
  match s with
  | Console _ broken => broken
  | Relay _ _ original => fault original
  end.

(** The console takes what is written to it. *)
Definition working (s : stream) : Prop := fault s = None.

(** The console itself, working. *)
Definition plain (s : stream) : Prop := exists received, s = Console received None.


(** The names of the relays a write passes, outermost first. *)
Fixpoint relay_names (s : stream) : list string :=
  match s with
  | Console _ _ => []
  | Relay name _ original => name :: relay_names original
  end.

(** The buffers of those relays hold no newline, as [write] leaves them. *)
Fixpoint settled (s : stream) : Prop :=
  match s with
  | Console _ _ => True
  | Relay _ buffer original => has_newline buffer = false /\ settled original
  end.

End Streams.

(** ** The background thread: [run_daemon] *)

Module Daemon.

Import LogRelay Streams.

(** Which of [sys.stdout] and [sys.stderr] a text is written to. *)
Inductive channel := Stdout | Stderr.

Definition channel_eqb (a b : channel) : bool :=
  match a, b with
  | Stdout, Stdout | Stderr, Stderr => true
  | _, _ => false
  end.

Definition name (ch : channel) : string :=
  match ch with Stdout => "stdout" | Stderr => "stderr" end.

(** How [focus_daemon] ends, as [run_until_complete] reports it: it
    returns, it is cancelled, or it raises an [Exception]. *)
Inductive ending :=
| Completed
| Cancelled
| Failed (e : exn).

(** What [focus_daemon], of the backend's [main] module, does as seen from
    [run_daemon]: the texts it writes, in order, and how it ends.  A write
    that raises raises inside [focus_daemon]; what it makes of that shows in
    the writes that follow and in how it ends. *)
Record run := {
  output : list (channel * string);
  ended : ending
}.

(** The variables of [run_daemon]: the controller, the two relays, and
    whether [sys.stdout] and [sys.stderr] are the relays.  The queue is one
    object, which the controller and every relay refer to: it is kept as
    the controller's [log_queue].  The streams saved as [original_stdout]
    and [original_stderr] are what the relays hold as [_original_stream]. *)
Record frame := {
  self : Controller.FocusController;
  gui_stdout : stream;
  gui_stderr : stream;
  redirected : bool
}.

Definition relay (ch : channel) (f : frame) : stream :=
  match ch with Stdout => gui_stdout f | Stderr => gui_stderr f end.

Definition original_of (s : stream) : stream :=
  match s with
  | Relay _ _ original => original
  | Console _ _ => s
  end.

Definition over (original : stream) (s : stream) : stream :=
  match s with
  | Relay name buffer _ => Relay name buffer original
  | Console _ _ => original
  end.

(** What [sys.stdout] or [sys.stderr] is. *)
Definition sys_stream (ch : channel) (f : frame) : stream :=
  if redirected f then relay ch f else original_of (relay ch f).

Definition put_back (ch : channel) (st : store) (f : frame) : frame :=
  {| self := Controller.set_log_queue st.2 (self f);
     gui_stdout := match ch with Stdout => st.1 | Stderr => gui_stdout f end;
     gui_stderr := match ch with Stdout => gui_stderr f | Stderr => st.1 end;
     redirected := redirected f |}.

(** A method call on one of the relays. *)
Definition on_relay {A} (ch : channel) (c : M store A) : M frame A :=
  fun f =>
    let r := c (relay ch f, Controller.log_queue (self f)) in
    (r.1, put_back ch r.2 f).

(** A method call on the stream a relay stands over. *)
Definition on_original {A} (ch : channel) (c : M store A) : M frame A :=
  fun f =>
    let r := c (original_of (relay ch f), Controller.log_queue (self f)) in
    (r.1, put_back ch (over r.2.1 (relay ch f), r.2.2) f).

Definition assign (g : Controller.FocusController -> Controller.FocusController)
  : M frame unit :=
  modify (fun f => {| self := g (self f); gui_stdout := gui_stdout f;
                      gui_stderr := gui_stderr f; redirected := redirected f |}).

Definition set_redirected (b : bool) (f : frame) : frame :=
  {| self := self f; gui_stdout := gui_stdout f;
     gui_stderr := gui_stderr f; redirected := b |}.

(** [sys.stdout.write(message)] or [sys.stderr.write(message)]. *)
Definition sys_write (ch : channel) (message : string) : M frame unit :=
  (f <- get ;;
   if redirected f then on_relay ch (write message) ;; ret tt
   else on_original ch (write message) ;; ret tt)%py.

(** [print(text)]: the text, then the line end, each by one [write] on
    [sys.stdout]. *)
Definition print (text : string) : M frame unit :=
  (sys_write Stdout text ;; sys_write Stdout (String LF ""))%py.

(** A call made inside [focus_daemon]: what it raises does not reach
    [run_daemon] as such. *)
Definition attempt {A} (c : M frame A) : M frame unit :=
  fun f => (Return tt, (c f).2).

Fixpoint write_output (out : list (channel * string)) : M frame unit :=
  match out with
  | [] => ret tt
  | (ch, message) :: out' => (attempt (sys_write ch message) ;; write_output out')%py
  end.

(** [try: body  finally: final]. *)
Definition try_finally {A} (body : M frame A) (final : M frame unit) : M frame A :=
  fun f =>
    match body f with
    | (o, f') =>
        match final f' with
        | (Return _, f'') => (o, f'')
        | (Raise e, f'') => (Raise e, f'')
        end
    end.

(** The frame once both relays are made and installed (lines 112 to 120);
    [original_stdout] and [original_stderr] are what [sys.stdout] and
    [sys.stderr] are at that time. *)
Definition enter (loop : nat) (c : Controller.FocusController)
    (original_stdout original_stderr : stream) : frame :=
  {| self := Controller.set_daemon_handles (Some loop) (Controller.daemon_task c) c;
     gui_stdout := Relay "stdout" "" original_stdout;
     gui_stderr := Relay "stderr" "" original_stderr;
     redirected := true |}.

(** The [finally] block of [run_daemon].  The clean-up of pending tasks and
    the closing of the loop touch none of these variables. *)
Definition finally_block : M frame unit :=
  (on_relay Stdout flush ;;
   on_relay Stderr flush ;;
   modify (set_redirected false) ;;
   assign (fun c => Controller.set_daemon_handles None (Controller.daemon_task c) c) ;;
   assign (fun c => Controller.set_daemon_handles (Controller.daemon_loop c) None c))%py.

(** The [try] statement of [run_daemon]: its body with its two [except]
    clauses, and its [finally] block. *)
Definition run_daemon_body (task : nat) (r : run) : M frame unit :=
  try_finally
    (assign (fun c => Controller.set_daemon_handles (Controller.daemon_loop c) (Some task) c) ;;
     write_output (output r) ;;
     match ended r with
     | Completed => ret tt
     | Cancelled => print "[GUI] Daemon stopped"
     | Failed e => print ("[GUI] Daemon error: " +:+ exn_msg e)
     end)%py
    finally_block.

(** [run_daemon], the target of the thread [start_focus] starts. *)
Definition run_daemon (loop task : nat) (r : run) (c : Controller.FocusController)
    (original_stdout original_stderr : stream) : outcome unit * frame :=
  run_daemon_body task r (enter loop c original_stdout original_stderr).

(** Everything written to [sys.stdout] and [sys.stderr] during a run: the
    output of [focus_daemon], then the line an [except] clause prints. *)
Definition closing (e : ending) : list (channel * string) :=
  match e with
  | Completed => []
  | Cancelled => [(Stdout, "[GUI] Daemon stopped"); (Stdout, String LF "")]
  | Failed e => [(Stdout, "[GUI] Daemon error: " +:+ exn_msg e); (Stdout, String LF "")]
  end.

Definition all_output (r : run) : list (channel * string) :=
  (output r ++ closing (ended r))%list.

(** The text written to one channel, end to end. *)
Definition text_on (ch : channel) (out : list (channel * string)) : string :=
  written (map snd (List.filter (fun w => channel_eqb w.1 ch) out)).


(** The items a text gives: its lines, then its unterminated tail. *)
Definition items (ch : channel) (text : string) : list (string * string) :=
  (queued (name ch) (split_lines text).1
     ++ RelayRuns.tail_item (name ch) (split_lines text).2)%list.


(** The controller as a run has it: the queue has grown, the handles are
    [l] and [t], nothing else has changed since [c]. *)
Definition grown (c : Controller.FocusController) (l t : option nat) (f : frame) : Prop :=
  exists added,
    self f = Controller.set_daemon_handles l t
               (Controller.set_log_queue (Controller.log_queue c ++ added)%list c).


(** What holds between two writes of a run over any streams whose console
    takes what is written: [o] gives the streams at the start. *)
Definition follows (o : channel -> stream) (done : list (channel * string))
    (f : frame) : Prop :=
  redirected f = true
  /\ forall ch,
       exists buffer s,
         relay ch f = Relay (name ch) buffer s
         /\ working s
         /\ relay_names s = relay_names (o ch)
         /\ RelayRuns.console_text (console_of s)
            = RelayRuns.console_text (console_of (o ch)) +:+ text_on ch done.

End Daemon.

(** ** The controller and [sys.stdout]

    [Controller] takes a [print] for the call it is.  Here the stream
    behind [sys.stdout] is part of the state: what [start_focus] and
    [stop_focus] print goes to the console and, through every relay that is
    installed at the time, onto the log queue; and a console that refuses
    the text makes [print] raise. *)

Module Process.

Import Controller Streams.

(** The controller, the trace of its outside calls, and the stream that
    [sys.stdout] is. *)
Record process := {
  world : Controller.world;
  sys_stdout : stream
}.

(** A step that does not print. *)
Definition lift {A} (c : M Controller.world A) : M process A :=
  fun p =>
    let r := c (world p) in
    (r.1, {| world := r.2; sys_stdout := sys_stdout p |}).

(** [print(text)]: the call is recorded, and the text and the line end are
    written to [sys.stdout], whose relays put their lines on the queue of
    the controller. *)
Definition print (text : string) : M process unit :=
  fun p =>
    let w := record (Call_print text) (world p) in
    let r := Streams.print text (sys_stdout p, log_queue (self w)) in
    (r.1, {| world := with_self (set_log_queue r.2.2) w; sys_stdout := r.2.1 |}).

(** [FocusController.start_focus]. *)
Definition start_focus (env : environment) : M process bool :=
  (p <- get ;;
   if is_running (self (world p)) then ret false
   else
     try_except (lift (start_body env)) except_Exception
       (fun e =>
          print ("[GUI] Failed to start focus mode: " +:+ exn_msg e) ;;
          ret false))%py.

(** The [try] block of [stop_focus]. *)
Definition stop_body (env : environment) : M process bool :=
  (lift (assign (set_stop_event true)) ;;
   p <- get ;;
   (if is_some (daemon_loop (self (world p))) && is_some (daemon_task (self (world p))) then
      try_except
        (lift (call Call_call_soon_threadsafe_cancel (call_soon_threadsafe env)))
        except_Exception
        (fun e => print ("[GUI] Error cancelling task: " +:+ exn_msg e))
    else ret tt) ;;
   try_except
     (lift (call Call_unblock_websites (unblock_websites env)) ;;
      lift (call (Call_apply_focus_policies "productive") (apply_focus_policies env)))
     except_Exception
     (fun e => print ("[GUI] Warning: Error during cleanup: " +:+ exn_msg e)) ;;
   lift (assign (set_is_running false)) ;;
   lift (assign (set_current_status "Idle")) ;;
   p <- get ;;
   (if thread_is_alive (daemon_thread (self (world p))) then
      lift (call Call_thread_join (thread_join env)) ;;
      lift (assign (set_daemon_thread
                      (Some {| is_alive := negb (exits_within_timeout env) |})))
    else ret tt) ;;
   ret true)%py.

(** [FocusController.stop_focus]. *)
Definition stop_focus (env : environment) : M process bool :=
  (p <- get ;;
   if negb (is_running (self (world p))) then ret false
   else
     try_except (stop_body env) except_Exception
       (fun e =>
          print ("[GUI] Failed to stop focus mode: " +:+ exn_msg e) ;;
          lift (assign (set_is_running false)) ;;
          lift (assign (set_current_status "Idle")) ;;
          ret false))%py.

(** The texts a trace prints, in order. *)
Definition printed_texts (trace : list event) : list string :=
  omap (fun ev => match ev with Call_print text => Some text | _ => None end) trace.

(** The stream and the queue after a [print] that returned. *)
Definition after_print (text : string) (st : store) : store :=
  (Streams.print text st).2.

Fixpoint print_all (texts : list string) (st : store) : store :=
  match texts with
  | [] => st
  | text :: texts' => print_all texts' (after_print text st)
  end.

(** The process in which [Controller] has gone from [world p] to [w']:
    what [w'] has printed since has been written to [sys.stdout]. *)
Definition delivered (p : process) (w' : Controller.world) : process :=
  let st := print_all (printed_texts (drop (length (calls (world p))) (calls w')))
              (sys_stdout p, log_queue (self w')) in
  {| world := with_self (set_log_queue st.2) w'; sys_stdout := st.1 |}.

(** The stream behind [sys.stdout] and the queue of the controller. *)
Definition streams (p : process) : store :=
  (sys_stdout p, log_queue (self (world p))).

(** What the controller has printed between [p] and [p']. *)
Definition printed_since (p p' : process) : list string :=
  printed_texts (drop (length (calls (world p))) (calls (world p'))).

End Process.

(** ** Concrete inputs on which the statements below are run *)

Module Samples.

Import LogRelay.

Definition sample_stream : GuiLogStream :=
  {| _queue := [("stderr", "warn")]; _original_stream := [];
     _stream_name := "stdout"; _buffer := "x" |}.

Definition sample_message : string :=
  "ab" +:+ String CR (String CR (String LF ("cd" +:+ String LF "e"))).

(** The outside answers every call normally. *)
Definition calm : Controller.environment :=
  {| Controller.thread_start := None;
     Controller.call_soon_threadsafe := None;
     Controller.unblock_websites := None;
     Controller.apply_focus_policies := None;
     Controller.thread_join := None;
     Controller.exits_within_timeout := true |}.

(** The loop of the background thread is already closed when [stop_focus]
    asks it to cancel the task. *)
Definition cancel_fails : Controller.environment :=
  {| Controller.thread_start := None;
     Controller.call_soon_threadsafe := Some (Exn RuntimeError "Event loop is closed");
     Controller.unblock_websites := None;
     Controller.apply_focus_policies := None;
     Controller.thread_join := None;
     Controller.exits_within_timeout := true |}.

(** Restoring the hosts file is refused. *)
Definition cleanup_fails : Controller.environment :=
  {| Controller.thread_start := None;
     Controller.call_soon_threadsafe := None;
     Controller.unblock_websites := Some (Exn OSError "Permission denied");
     Controller.apply_focus_policies := None;
     Controller.thread_join := None;
     Controller.exits_within_timeout := true |}.

(** Joining the background thread raises. *)
Definition join_fails : Controller.environment :=
  {| Controller.thread_start := None;
     Controller.call_soon_threadsafe := None;
     Controller.unblock_websites := None;
     Controller.apply_focus_policies := None;
     Controller.thread_join := Some (Exn RuntimeError "cannot join thread");
     Controller.exits_within_timeout := false |}.

(** The controller after a successful [start_focus], once the background
    thread has stored its loop and its task. *)
Definition running : Controller.world :=
  Controller.daemon_enters 1 1 (Controller.start_focus calm Controller.init).2.

(** The same, after the task was cancelled at once and the background
    thread has finished. *)
Definition cancelled_at_once : Controller.world :=
  Controller.daemon_leaves running.

(** Three records written at 12:00, 12:05 and 12:10, read at 12:22. *)
Definition T0 : string := "2024-01-01 12:00:00".
Definition T1 : string := "2024-01-01 12:05:00".
Definition T2 : string := "2024-01-01 12:10:00".
Definition T3 : string := "2024-01-01 12:30:00".

Definition at_12_22 : Z := 1704111720000000.

Definition healthy (name : string) (rs : list Facade.row) : Facade.database :=
  {| Facade.connect := None; Facade.tables := {[ name := Facade.Stored rs ]} |}.

Definition three_records : Facade.database :=
  healthy "focus_log"
    [(Facade.SqlText "editor", Facade.SqlText "productive", Facade.SqlText T0);
     (Facade.SqlText "browser", Facade.SqlText "distracted", Facade.SqlText T1);
     (Facade.SqlText "terminal", Facade.SqlText "productive", Facade.SqlText T2)].

(** A record with the timestamp of another one, and a record stamped
    after the time of reading. *)
Definition with_duplicate : Facade.database :=
  healthy "focus_sessions"
    [(Facade.SqlText "editor", Facade.SqlText "productive", Facade.SqlText T0);
     (Facade.SqlText "browser", Facade.SqlText "distracted", Facade.SqlText T1);
     (Facade.SqlText "chat", Facade.SqlText "distracted", Facade.SqlText T1);
     (Facade.SqlText "terminal", Facade.SqlText "productive", Facade.SqlText T3)].

(** The file behind [DB_FILE] is not a database. *)
Definition damaged : Facade.database :=
  {| Facade.connect := None;
     Facade.tables :=
       {[ "focus_log" := Facade.Failing (Exn DatabaseError "file is not a database") ]} |}.

Definition time_T0 : Z := 1704110400000000.
Definition time_T1 : Z := 1704110700000000.
Definition time_T2 : Z := 1704111000000000.

(** The rows of [three_records] as the query returns them. *)
Definition three_rows : list Facade.row :=
  [(Facade.SqlText "terminal", Facade.SqlText "productive", Facade.SqlText T2);
   (Facade.SqlText "browser", Facade.SqlText "distracted", Facade.SqlText T1);
   (Facade.SqlText "editor", Facade.SqlText "productive", Facade.SqlText T0)].

(** A configuration file with both lists. *)
Definition sample_config : gmap string (list string) :=
  {[ "productive_apps" := ["code"; "terminal"];
     "distracting_apps" := ["youtube"; "netflix"] ]}.

(** An empty database file, and the text the sqlite3 adapter stores for
    a [datetime.now()] with microseconds. *)
Definition empty_database : Facade.database :=
  {| Facade.connect := None; Facade.tables := ∅ |}.

Definition stamp_with_microseconds : string := "2024-01-01 12:00:00.123456".

(** A record of 2 January whose month and day are written with one digit,
    and a record of 10 January; read on 10 January at 12:22. *)
Definition unpadded : Facade.database :=
  healthy "focus_log"
    [(Facade.SqlText "editor", Facade.SqlText "productive",
      Facade.SqlText "2024-1-2 12:00:00");
     (Facade.SqlText "browser", Facade.SqlText "distracted",
      Facade.SqlText "2024-01-10 12:00:00")].

Definition time_2_january : Z := 1704196800000000.
Definition time_10_january : Z := 1704888000000000.
Definition at_10_january_12_22 : Z := 1704889320000000.

(** The records of 12:00, 12:05 and 12:10 in [focus_sessions], stamped
    with microseconds. *)
Definition with_microseconds : Facade.database :=
  healthy "focus_sessions"
    [(Facade.SqlText "editor", Facade.SqlText "productive",
      Facade.SqlText "2024-01-01 12:00:00.250000");
     (Facade.SqlText "browser", Facade.SqlText "distracted",
      Facade.SqlText "2024-01-01 12:05:00.500000");
     (Facade.SqlText "terminal", Facade.SqlText "productive",
      Facade.SqlText "2024-01-01 12:10:00.750000")].

(** A text handed to the relay in three pieces that cut a line. *)
Definition pieces : list string :=
  ["first li"; "ne" +:+ String LF "second"; " line" +:+ String CR (String LF "tail")].

Definition in_one_piece : list string :=
  ["first line" +:+ String LF ("second line" +:+ String CR (String LF "tail"))].

Definition mixed_run : list RelayRuns.operation :=
  [RelayRuns.Write ("a" +:+ String CR (String LF "b")); RelayRuns.Flush;
   RelayRuns.Write ""; RelayRuns.Write (String LF "c"); RelayRuns.Flush;
   RelayRuns.Flush].

(** A controller that has been started and stopped, with two lines left
    on its queue by the background thread on its way out. *)
Definition stale : Controller.world :=
  Controller.daemon_logs [("stdout", "[GUI] Daemon stopped"); ("stderr", "late")]
    (Controller.stop_focus calm running).2.

(** The window over the running controller, before the timer has updated
    its buttons, with a visible tray icon; and the same without a tray. *)
Definition window_running : Gui.FocusMainWindow :=
  Gui.new_window running.

Definition window_in_tray : Gui.FocusMainWindow :=
  (Gui.setup_tray_icon true window_running).2.

(** The window once [update_status] has run over the running controller. *)
Definition window_updated : Gui.FocusMainWindow :=
  (Gui.update_status window_running).2.

(** A controller with three items waiting on its queue. *)
Definition with_output : Controller.world :=
  Controller.daemon_logs
    [("stdout", "[Focus] editor"); ("stderr", "Traceback"); ("stderr", "")] running.

(** A table whose first record has a timestamp that does not read. *)
Definition with_unreadable : Facade.database :=
  healthy "focus_log"
    [(Facade.SqlText "editor", Facade.SqlText "productive", Facade.SqlText T0);
     (Facade.SqlText "browser", Facade.SqlText "distracted", Facade.SqlText T1);
     (Facade.SqlText "terminal", Facade.SqlText "productive",
      Facade.SqlText stamp_with_microseconds)].

Definition unreadable_rows : list Facade.row :=
  [(Facade.SqlText "browser", Facade.SqlText "distracted", Facade.SqlText T1);
   (Facade.SqlText "terminal", Facade.SqlText "productive",
    Facade.SqlText stamp_with_microseconds);
   (Facade.SqlText "editor", Facade.SqlText "productive", Facade.SqlText T0)].

(** Two records without a timestamp, in either table. *)
Definition null_rows : list Facade.row :=
  [(Facade.SqlText "editor", Facade.SqlText "productive", Facade.SqlNull);
   (Facade.SqlText "browser", Facade.SqlText "distracted", Facade.SqlNull)].

Definition null_in_focus_log : Facade.database := healthy "focus_log" null_rows.

Definition null_in_focus_sessions : Facade.database := healthy "focus_sessions" null_rows.

(** Two sessions as [data_logger] stores them. *)
Definition two_logged : list Logging.logged :=
  [("2024-01-01 12:00:00.123456", "code", "productive");
   ("2024-01-01 12:05:00.654321", "youtube", "distracting")].

(** What [xdotool] and [xprop] print for an editor window. *)
Definition xdotool_answer : outcome Activity.text :=
  Return (Activity.text_of ("62914565" +:+ String LF "")).

Definition xprop_answer (win_id : Activity.text) : outcome Activity.text :=
  Return (Activity.text_of
            ("WM_CLASS(STRING) = " +:+ String Activity.double_quote "code"
             +:+ String Activity.double_quote ", "
             +:+ String Activity.double_quote "Code"
             +:+ String Activity.double_quote (String LF ""))).

(** A run of the daemon that is cancelled in the middle of a line. *)
Definition cancelled_run : Daemon.run :=
  {| Daemon.output := [(Daemon.Stdout, "[INFO] blocking" +:+ String LF "tick");
                       (Daemon.Stderr, "warn");
                       (Daemon.Stdout, "tock")];
     Daemon.ended := Daemon.Cancelled |}.

(** [Thread.start] raises. *)
Definition launch_fails : Controller.environment :=
  {| Controller.thread_start := Some (Exn RuntimeError "can't start new thread");
     Controller.call_soon_threadsafe := None;
     Controller.unblock_websites := None;
     Controller.apply_focus_policies := None;
     Controller.thread_join := None;
     Controller.exits_within_timeout := true |}.

(** A controller in a process whose [sys.stdout] is the console; is the
    relay that a background thread has installed over the console; is a
    console that has been closed. *)
Definition at_console (w : Controller.world) : Process.process :=
  {| Process.world := w; Process.sys_stdout := Streams.Console [] None |}.

Definition behind_relay (w : Controller.world) : Process.process :=
  {| Process.world := w;
     Process.sys_stdout := Streams.Relay "stdout" "" (Streams.Console [] None) |}.

Definition console_closed (w : Controller.world) : Process.process :=
  {| Process.world := w;
     Process.sys_stdout :=
       Streams.Console [] (Some (Exn ValueError "I/O operation on closed file.")) |}.

End Samples.

(** * Properties *)

(** ** The log relay *)

Module LogRelayFacts.

Import LogRelay Samples.
Local Open Scope list_scope.
Local Arguments String.append : simpl nomatch.

Lemma split_newline_none s :
  split_newline s = None -> split_lines s = ([], s).
Proof.
  induction s as [|c s IH]; simpl; [reflexivity|].
  destruct (Ascii.eqb c LF); [discriminate|].
  destruct (split_newline s) as [[line rest]|]; [discriminate|].
  intros _. rewrite (IH eq_refl). reflexivity.
Qed.

Lemma split_newline_some s line rest :
  split_newline s = Some (line, rest) ->
  split_lines s = (line :: (split_lines rest).1, (split_lines rest).2).
Proof.
  revert line; induction s as [|c s IH]; intros line; simpl; [discriminate|].
  destruct (Ascii.eqb c LF).
  - intros [= <- <-]. reflexivity.
  - destruct (split_newline s) as [[line' rest']|]; [|discriminate].
    intros [= <- <-]. rewrite (IH line' eq_refl). reflexivity.
Qed.

(** The loop of [write] enqueues the complete lines of the buffer, oldest
    first, and leaves the unterminated tail in the buffer. *)
Lemma drain_split_lines name buf q :
  drain name buf q = ((split_lines buf).2, q ++ queued name (split_lines buf).1).
Proof.
  funelim (drain name buf q).
  - rewrite H0. rewrite (split_newline_some _ _ _ H). simpl.
    rewrite <- app_assoc. reflexivity.
  - rewrite (split_newline_none _ e). simpl. rewrite app_nil_r. reflexivity.
Qed.

Lemma split_lines_join s :
  join_lines (split_lines s).1 +:+ (split_lines s).2 = s.
Proof.
  induction s as [|c s IH]; simpl; [reflexivity|].
  destruct (split_lines s) as [ls rest]; simpl in IH.
  destruct (Ascii.eqb c LF) eqn:Hc.
  - apply Ascii.eqb_eq in Hc. subst c. simpl. f_equal. exact IH.
  - destruct ls as [|l ls]; simpl in *; f_equal; exact IH.
Qed.

Lemma split_lines_tail s : has_newline (split_lines s).2 = false.
Proof.
  unfold has_newline.
  induction s as [|c s IH]; simpl; [reflexivity|].
  destruct (Ascii.eqb c LF) eqn:Hc; simpl; [exact IH|].
  destruct (split_lines s) as [[|l ls] rest]; simpl in *; [|exact IH].
  rewrite Hc. destruct (split_newline rest) as [[? ?]|]; [discriminate|reflexivity].
Qed.

Lemma split_lines_lines s :
  Forall (fun l => has_newline l = false) (split_lines s).1.
Proof.
  unfold has_newline.
  induction s as [|c s IH]; simpl; [constructor|].
  destruct (Ascii.eqb c LF) eqn:Hc; simpl.
  - constructor; [reflexivity|exact IH].
  - destruct (split_lines s) as [[|l ls] rest]; simpl in *; [constructor|].
    inversion IH as [|? ? Hl Hls]; subst. constructor; [|exact Hls].
    simpl. rewrite Hc. destruct (split_newline l) as [[? ?]|]; [discriminate|reflexivity].
Qed.

(** Lines are cut from the text as a whole: cutting [a] and then the rest
    with [b] appended is cutting [a +:+ b]. *)
Lemma split_lines_app a b :
  split_lines (a +:+ b) =
    ((split_lines a).1 ++ (split_lines ((split_lines a).2 +:+ b)).1,
     (split_lines ((split_lines a).2 +:+ b)).2).
Proof.
  induction a as [|c a IH]; simpl.
  - destruct (split_lines b); reflexivity.
  - rewrite IH. destruct (split_lines a) as [la rest]; simpl.
    destruct (Ascii.eqb c LF) eqn:Hc; simpl; [reflexivity|].
    destruct la as [|l ls]; simpl; rewrite ?Hc; [|reflexivity].
    destruct (split_lines (rest +:+ b)) as [[|l' ls'] rest']; reflexivity.
Qed.

Lemma write_nonempty message s :
  message <> "" ->
  write message s =
    (Return (String.length message),
     {| _queue := _queue s ++ queued (_stream_name s) (split_lines (_buffer s +:+ message)).1;
        _original_stream := _original_stream s ++ [SinkWrite message; SinkFlush];
        _stream_name := _stream_name s;
        _buffer := (split_lines (_buffer s +:+ message)).2 |}).
Proof.
  intros Hne. unfold write.
  destruct (String.eqb message "") eqn:E.
  - apply String.eqb_eq in E. contradiction.
  - unfold bind, modify, ret, run_drain, emit, set_buffer; simpl.
    rewrite drain_split_lines. simpl. rewrite <- app_assoc. reflexivity.
Qed.

Lemma write_empty s : write "" s = (Return 0%nat, s).
Proof. reflexivity. Qed.

Lemma no_newline_split_lines b :
  has_newline b = false -> split_lines b = ([], b).
Proof.
  unfold has_newline. intros H. apply split_newline_none.
  destruct (split_newline b); [discriminate|reflexivity].
Qed.

Lemma append_empty_r b : b +:+ "" = b.
Proof. induction b as [|c b IH]; simpl; [reflexivity|]. f_equal. exact IH. Qed.

Lemma append_assoc a b c : (a +:+ b) +:+ c = a +:+ (b +:+ c).
Proof. induction a as [|x a IH]; simpl; [reflexivity|]. f_equal. exact IH. Qed.

(** Whatever the text, a [write] on a relay whose buffer holds no newline
    returns the length of the text and leaves on the queue and in the
    buffer what cutting the buffered text followed by the new text gives. *)
Lemma write_queue_buffer message s :
  has_newline (_buffer s) = false ->
  (write message s).1 = Return (String.length message)
  /\ _queue (write message s).2 =
       _queue s ++ queued (_stream_name s) (split_lines (_buffer s +:+ message)).1
  /\ _buffer (write message s).2 = (split_lines (_buffer s +:+ message)).2
  /\ _stream_name (write message s).2 = _stream_name s.
Proof.
  intros Hb. destruct (String.eqb message "") eqn:E.
  - apply String.eqb_eq in E. subst message. rewrite write_empty.
    rewrite append_empty_r, (no_newline_split_lines _ Hb). simpl.
    rewrite app_nil_r. auto.
  - assert (Hne : message <> "") by (intros ->; discriminate).
    rewrite (write_nonempty _ _ Hne). simpl. auto.
Qed.

(** Successive writes enqueue the lines of the written texts taken end to
    end: the queue receives the lines in write order. *)
Lemma write_all_in_order messages : forall s,
  has_newline (_buffer s) = false ->
  (write_all messages s).1 = Return tt
  /\ _queue (write_all messages s).2 =
       _queue s ++ queued (_stream_name s) (split_lines (_buffer s +:+ written messages)).1
  /\ _buffer (write_all messages s).2 = (split_lines (_buffer s +:+ written messages)).2
  /\ _stream_name (write_all messages s).2 = _stream_name s.
Proof.
  induction messages as [|m ms IH]; intros s Hb; simpl.
  - rewrite append_empty_r, (no_newline_split_lines _ Hb). simpl.
    rewrite app_nil_r. auto.
  - destruct (write_queue_buffer m s Hb) as (Hr & Hq & Hbuf & Hn).
    unfold bind. destruct (write m s) as [r s1]; simpl in *. subst r.
    assert (Hb1 : has_newline (_buffer s1) = false)
      by (rewrite Hbuf; apply split_lines_tail).
    destruct (IH s1 Hb1) as (Hr' & Hq' & Hbuf' & Hn').
    rewrite <- append_assoc, split_lines_app. simpl.
    rewrite Hr', Hq', Hbuf', Hn', Hq, Hbuf, Hn.
    unfold queued. rewrite map_app, app_assoc. auto.
Qed.

Lemma rstrip_cr_spec l :
  exists n, l = rstrip_cr l +:+ carriage_returns n
            /\ ends_with_cr (rstrip_cr l) = false.
Proof.
  induction l as [|c l (n & Hl & He)]; simpl.
  - exists 0%nat. auto.
  - destruct (rstrip_cr l) as [|d r] eqn:Hr.
    + simpl in Hl. destruct (Ascii.eqb c CR) eqn:Hc.
      * apply Ascii.eqb_eq in Hc. subst c. exists (S n). simpl. rewrite <- Hl. auto.
      * exists n. simpl. rewrite <- Hl, Hc. auto.
    + exists n. split.
      * simpl. f_equal. exact Hl.
      * exact He.
Qed.

(** C4 (as amended) -- Every [write] of a non-empty text forwards the text
    unchanged to the original stream and flushes it at once, adds the text
    to the buffer, and for each complete newline-terminated segment of the
    buffered text puts [(origin, line)] on the shared queue with the
    trailing carriage returns of the line removed, oldest segment first;
    the unterminated tail stays in the buffer.  Over successive writes the
    queue therefore receives the lines of the written texts in write
    order. *)
Theorem write_relays message s (Hne : message <> "") :
  write message s =
    (Return (String.length message),
     {| _queue := _queue s ++ queued (_stream_name s) (split_lines (_buffer s +:+ message)).1;
        _original_stream := _original_stream s ++ [SinkWrite message; SinkFlush];
        _stream_name := _stream_name s;
        _buffer := (split_lines (_buffer s +:+ message)).2 |})
  /\ join_lines (split_lines (_buffer s +:+ message)).1
       +:+ (split_lines (_buffer s +:+ message)).2 = _buffer s +:+ message
  /\ Forall (fun l => has_newline l = false) (split_lines (_buffer s +:+ message)).1
  /\ has_newline (split_lines (_buffer s +:+ message)).2 = false
  /\ (forall l, exists n, l = rstrip_cr l +:+ carriage_returns n
                          /\ ends_with_cr (rstrip_cr l) = false)
  /\ (forall messages,
        has_newline (_buffer s) = false ->
        _queue (write_all messages s).2 =
          _queue s ++ queued (_stream_name s)
                        (split_lines (_buffer s +:+ written messages)).1).
Proof.
  split; [apply write_nonempty; exact Hne|].
  split; [apply split_lines_join|].
  split; [apply split_lines_lines|].
  split; [apply split_lines_tail|].
  split; [apply rstrip_cr_spec|].
  intros messages Hb. apply (write_all_in_order messages s Hb).
Qed.

(** [write_relays] on a relay with a pending character, for a text with
    two complete lines, one of them ended by two carriage returns. *)
Lemma write_relays_witness :
  write sample_message sample_stream =
    (Return 9%nat,
     {| _queue := [("stderr", "warn"); ("stdout", "xab"); ("stdout", "cd")];
        _original_stream := [SinkWrite sample_message; SinkFlush];
        _stream_name := "stdout";
        _buffer := "e" |}).
Proof.
  exact (proj1 (write_relays sample_message sample_stream ltac:(discriminate))).
Defined.

(** C4 (as stated) fails on the empty text: [write("")] returns before it
    touches the original stream, so nothing is flushed. *)
Lemma write_empty_does_not_flush :
  write "" (new_stream [] "stdout") = (Return 0%nat, new_stream [] "stdout")
  /\ ~ In SinkFlush (_original_stream (write "" (new_stream [] "stdout")).2).
Proof. split; [reflexivity|]. simpl. tauto. Qed.

End LogRelayFacts.

(** ** The task lifecycle controller *)

Module ControllerFacts.

Import Controller Samples.
Local Open Scope list_scope.

Lemma get_nowait_forever_empties q : forall n r th dl dt se st tr,
  (length q < n)%nat ->
  get_nowait_forever n (mk_world r th dl dt se st q tr) =
    (Raise (Exn QueueEmpty ""), mk_world r th dl dt se st [] tr).
Proof.
  induction q as [|item q IH]; intros n r th dl dt se st tr Hn;
    (destruct n as [|n]; [simpl in Hn; lia|]).
  - reflexivity.
  - simpl in Hn. simpl. unfold bind at 1. simpl.
    apply (IH n). lia.
Qed.

(** Clearing the stale log lines always ends, by [queue.Empty], with the
    queue empty. *)
Lemma clear_log_queue_spec w :
  clear_log_queue w = (Return tt, with_self (set_log_queue []) w).
Proof.
  destruct w as [[r th dl dt se st q] tr].
  unfold clear_log_queue, bind, get, try_except. simpl log_queue.
  change (get_nowait_forever (S (length q))
            {| self := {| is_running := r; daemon_thread := th; daemon_loop := dl;
                          daemon_task := dt; stop_event := se; current_status := st;
                          log_queue := q |}; calls := tr |})
    with (get_nowait_forever (S (length q)) (mk_world r th dl dt se st q tr)).
  rewrite get_nowait_forever_empties by lia. reflexivity.
Qed.

(** What the [try] block of [start_focus] does, by the outcome of
    [Thread.start]. *)
Lemma start_body_spec env w :
  start_body env w =
    match thread_start env with
    | None =>
        (Return true,
         mk_world true (Some {| is_alive := true |}) (daemon_loop (self w))
           (daemon_task (self w)) false "Focus Active" []
           (calls w ++ [Call_thread_start]))
    | Some e =>
        (Raise e,
         mk_world (is_running (self w)) (Some {| is_alive := false |})
           (daemon_loop (self w)) (daemon_task (self w)) false
           (current_status (self w)) [] (calls w ++ [Call_thread_start]))
    end.
Proof.
  unfold start_body. unfold bind at 1. unfold assign at 1, modify at 1.
  unfold bind at 1. rewrite clear_log_queue_spec.
  destruct w as [[r th dl dt se st q] tr].
  destruct env as [ts cs ub ap tj ex]; simpl thread_start.
  destruct ts as [e|]; reflexivity.
Qed.

Lemma start_focus_idle env w :
  is_running (self w) = false ->
  start_focus env w =
    match thread_start env with
    | None =>
        (Return true,
         mk_world true (Some {| is_alive := true |}) (daemon_loop (self w))
           (daemon_task (self w)) false "Focus Active" []
           (calls w ++ [Call_thread_start]))
    | Some e =>
        (Return false,
         mk_world false (Some {| is_alive := false |})
           (daemon_loop (self w)) (daemon_task (self w)) false
           (current_status (self w)) []
           ((calls w ++ [Call_thread_start])
              ++ [Call_print ("[GUI] Failed to start focus mode: " +:+ exn_msg e)]))
    end.
Proof.
  intros Hidle. unfold start_focus, bind at 1, get. rewrite Hidle.
  unfold try_except. rewrite start_body_spec, Hidle.
  destruct (thread_start env) as [e|]; reflexivity.
Qed.

Lemma start_focus_running env w :
  is_running (self w) = true -> start_focus env w = (Return false, w).
Proof.
  intros Hrun. unfold start_focus, bind, get. rewrite Hrun. reflexivity.
Qed.

Lemma start_focus_true_runs env w w' :
  start_focus env w = (Return true, w') ->
  is_running (self w') = true /\ current_status (self w') = "Focus Active".
Proof.
  destruct (is_running (self w)) eqn:Hr.
  - rewrite (start_focus_running _ _ Hr). discriminate.
  - rewrite (start_focus_idle _ _ Hr).
    destruct (thread_start env); [discriminate|].
    intros [= <-]. split; reflexivity.
Qed.

(** C2 -- A [start_focus] call made while the controller is running, and
    so in particular one made right after a [start_focus] that returned
    [True], returns [False] and changes nothing: neither a field of the
    controller (flag, status, thread and task handles, stop event, log
    queue) nor the trace of outside calls. *)
Theorem start_focus_while_running env w
  (Hrun : is_running (self w) = true
          \/ exists env0 w0, start_focus env0 w0 = (Return true, w)) :
  start_focus env w = (Return false, w).
Proof.
  apply start_focus_running.
  destruct Hrun as [Hrun | (env0 & w0 & Hstart)]; [exact Hrun|].
  apply (start_focus_true_runs _ _ _ Hstart).
Qed.

(** [start_focus_while_running] right after the first successful
    [start_focus]. *)
Lemma start_focus_while_running_witness :
  start_focus cancel_fails (start_focus calm init).2
  = (Return false, (start_focus calm init).2).
Proof.
  apply (start_focus_while_running cancel_fails (start_focus calm init).2).
  right. exists calm, init. reflexivity.
Defined.

Ltac open_world w :=
  let r := fresh "r" in let th := fresh "th" in let dl := fresh "dl" in
  let dt := fresh "dt" in let se := fresh "se" in let st := fresh "st" in
  let q := fresh "q" in let tr := fresh "tr" in
  destruct w as [[r th dl dt se st q] tr];
  try (destruct th as [[[|]]|]); try (destruct dl as [?|]); try (destruct dt as [?|]).

Ltac open_env env :=
  let ts := fresh "ts" in let cs := fresh "cs" in let ub := fresh "ub" in
  let ap := fresh "ap" in let tj := fresh "tj" in let ex := fresh "ex" in
  destruct env as [ts cs ub ap tj ex];
  try (destruct cs as [[? ?]|]); try (destruct ub as [[? ?]|]);
  try (destruct ap as [[? ?]|]); try (destruct tj as [[? ?]|]).

Ltac run_stop :=
  unfold stop_focus, stop_body, try_except, bind, get, assign, call, print,
    modify, ret, raise, returns_or_raises, with_self, record, except_Exception,
    is_some, thread_is_alive, get_status;
  simpl.

Ltac in_trace :=
  repeat rewrite in_app_iff; simpl; intuition (auto; congruence).

Lemma stop_focus_idle env w :
  is_running (self w) = false -> stop_focus env w = (Return false, w).
Proof.
  intros Hidle. unfold stop_focus, bind, get. rewrite Hidle. reflexivity.
Qed.

(** However its body ends, [stop_focus] on a running controller leaves the
    flag down and the status at ["Idle"]. *)
Lemma stop_focus_goes_idle env w :
  is_running (self w) = true ->
  is_running (self (stop_focus env w).2) = false
  /\ current_status (self (stop_focus env w).2) = "Idle".
Proof.
  intros Hrun. open_world w; open_env env; simpl in Hrun; subst;
    run_stop; split; reflexivity.
Qed.

Lemma stop_focus_returns env w : exists b, (stop_focus env w).1 = Return b.
Proof.
  destruct (is_running (self w)) eqn:Hr.
  - open_world w; open_env env; simpl in Hr; subst; run_stop; eauto.
  - rewrite (stop_focus_idle _ _ Hr). eauto.
Qed.

Lemma stop_focus_raise_caught env w e w' :
  is_running (self w) = true ->
  stop_body env w = (Raise e, w') ->
  stop_focus env w =
    (Return false,
     with_self (set_current_status "Idle")
       (with_self (set_is_running false)
          (record (Call_print ("[GUI] Failed to stop focus mode: " +:+ exn_msg e)) w'))).
Proof.
  intros Hrun Hraise. unfold stop_focus, bind at 1, get. rewrite Hrun.
  change (negb true) with false. cbv iota.
  unfold try_except. cbv beta. rewrite Hraise. reflexivity.
Qed.




(** The run "start, immediate cancellation, stop": the whole trace holds
    one [unblock_websites] and one [apply_focus_policies("productive")],
    and no request to cancel. *)
Lemma start_cancel_stop_scenario :
  (start_focus calm init).1 = Return true
  /\ (stop_focus calm cancelled_at_once).1 = Return true
  /\ calls (stop_focus calm cancelled_at_once).2 =
       [Call_thread_start; Call_unblock_websites;
        Call_apply_focus_policies "productive"]
  /\ get_status (self (stop_focus calm cancelled_at_once).2) = "Idle".
Proof. repeat split; reflexivity. Qed.



Lemma step_consistent w w' : consistent w -> step w w' -> consistent w'.
Proof.
  intros Hc Hstep. destruct Hstep as [env w|env w|loop task w|lines w|w|w].
  - destruct (is_running (self w)) eqn:Hr.
    + rewrite (start_focus_running _ _ Hr). exact Hc.
    + rewrite (start_focus_idle _ _ Hr).
      destruct (thread_start env); simpl.
      * right. split; [reflexivity|].
        destruct Hc as [[Hc _]|[_ Hc]]; [congruence|exact Hc].
      * left. split; reflexivity.
  - destruct (is_running (self w)) eqn:Hr.
    + right. apply (stop_focus_goes_idle env w Hr).
    + rewrite (stop_focus_idle _ _ Hr). exact Hc.
  - exact Hc.
  - exact Hc.
  - exact Hc.
  - exact Hc.
Qed.

Lemma reachable_consistent w : reachable w -> consistent w.
Proof.
  induction 1 as [|w w' _ IH Hstep].
  - right. split; reflexivity.
  - exact (step_consistent w w' IH Hstep).
Qed.

(** C7 -- In every state the controller can reach, [get_status] returns
    one of two values and no other: ["Focus Active"], which is how the code
    spells Running, exactly when the running flag is up, and ["Idle"]
    exactly when it is down.  The value follows the last transition: it is
    ["Focus Active"] after a [start_focus] that returned [True] and ["Idle"]
    after a [stop_focus] that returned [True]. *)
Theorem get_status_running_or_idle w (Hreach : reachable w) :
  ((get_status (self w) = "Focus Active" /\ is_running (self w) = true)
   \/ (get_status (self w) = "Idle" /\ is_running (self w) = false))
  /\ (forall env, (start_focus env w).1 = Return true ->
        get_status (self (start_focus env w).2) = "Focus Active")
  /\ (forall env, (stop_focus env w).1 = Return true ->
        get_status (self (stop_focus env w).2) = "Idle").
Proof.
  split; [|split].
  - destruct (reachable_consistent w Hreach) as [[Hr Hs]|[Hr Hs]]; auto.
  - intros env Hret.
    destruct (start_focus env w) as [o w1] eqn:Hstart. simpl in Hret. subst o.
    apply (start_focus_true_runs _ _ _ Hstart).
  - intros env Hret. destruct (is_running (self w)) eqn:Hr.
    + apply (stop_focus_goes_idle env w Hr).
    + rewrite (stop_focus_idle _ _ Hr) in Hret. discriminate.
Qed.

Lemma running_reachable : reachable running.
Proof.
  unfold running.
  eapply reachable_step; [|apply step_daemon_enters].
  eapply reachable_step; [apply reachable_init|apply step_start].
Defined.

(** [get_status_running_or_idle] on the running controller. *)
Lemma get_status_running_or_idle_witness :
  ((get_status (self running) = "Focus Active" /\ is_running (self running) = true)
   \/ (get_status (self running) = "Idle" /\ is_running (self running) = false))
  /\ (forall env, (start_focus env running).1 = Return true ->
        get_status (self (start_focus env running).2) = "Focus Active")
  /\ (forall env, (stop_focus env running).1 = Return true ->
        get_status (self (stop_focus env running).2) = "Idle").
Proof.
  exact (get_status_running_or_idle running running_reachable).
Defined.

End ControllerFacts.

(** ** Zero-padded timestamps are ordered as their times *)

Module TimestampsFacts.

Import Timestamps Calendar.
Local Open Scope Z_scope.

Lemma days_from_civil_day y m d :
  days_from_civil y m d = days_from_civil y m 0 + d.
Proof. unfold days_from_civil. lia. Qed.

(** A month ends where the next one starts. *)
Lemma month_length y m :
  1 <= m <= 12 ->
  days_from_civil (next_year y m) (next_month m) 0
  = days_from_civil y m 0 + days_in_month y m.
Proof.
  intros Hm.
  assert (Hcases : m = 1 \/ m = 2 \/ m = 3 \/ m = 4 \/ m = 5 \/ m = 6 \/ m = 7
                   \/ m = 8 \/ m = 9 \/ m = 10 \/ m = 11 \/ m = 12) by lia.
  unfold next_year, next_month, days_from_civil, days_in_month, is_leap.
  repeat destruct Hcases as [-> | Hcases]; try subst m; simpl;
    try (Z.to_euclidean_division_equations; lia).
  destruct (y mod 4 =? 0) eqn:H4; destruct (y mod 100 =? 0) eqn:H100;
    destruct (y mod 400 =? 0) eqn:H400; simpl;
    rewrite ?Z.eqb_eq, ?Z.eqb_neq in *;
    Z.to_euclidean_division_equations; lia.
Qed.

Lemma days_in_month_bounds y m : 28 <= days_in_month y m <= 31.
Proof.
  unfold days_in_month.
  destruct (m =? 2); [destruct (is_leap y); lia|].
  destruct ((m =? 4) || (m =? 6) || (m =? 9) || (m =? 11))%bool; lia.
Qed.

Lemma month_of_bounds l : 1 <= month_of l <= 12.
Proof. unfold month_of. Z.to_euclidean_division_equations. lia. Qed.

Lemma month_start_next l :
  month_start (l + 1)
  = month_start l + days_in_month (year_of l) (month_of l).
Proof.
  unfold month_start.
  rewrite <- (month_length (year_of l) (month_of l) (month_of_bounds l)).
  f_equal.
  - unfold next_year, year_of, month_of.
    destruct ((l - 1) mod 12 + 1 =? 12) eqn:E;
      rewrite ?Z.eqb_eq, ?Z.eqb_neq in E;
      Z.to_euclidean_division_equations; lia.
  - unfold next_month, month_of.
    destruct ((l - 1) mod 12 + 1 =? 12) eqn:E;
      rewrite ?Z.eqb_eq, ?Z.eqb_neq in E;
      Z.to_euclidean_division_equations; lia.
Qed.

Lemma month_start_monotone l (n : nat) :
  month_start l <= month_start (l + Z.of_nat n).
Proof.
  induction n as [|n IH]; [rewrite Z.add_0_r; lia|].
  replace (l + Z.of_nat (S n)) with ((l + Z.of_nat n) + 1) by lia.
  rewrite month_start_next.
  pose proof (days_in_month_bounds (year_of (l + Z.of_nat n)) (month_of (l + Z.of_nat n))).
  lia.
Qed.

Lemma month_start_at y m :
  1 <= m <= 12 -> month_start (12 * y + m) = days_from_civil y m 0.
Proof.
  intros Hm. unfold month_start. f_equal.
  - unfold year_of. Z.to_euclidean_division_equations. lia.
  - unfold month_of. Z.to_euclidean_division_equations. lia.
Qed.

(** A later date of the calendar has the greater day count. *)
Lemma days_from_civil_increasing y1 m1 d1 y2 m2 d2 :
  valid_date y1 m1 d1 -> valid_date y2 m2 d2 ->
  (y1 * 100 + m1) * 100 + d1 < (y2 * 100 + m2) * 100 + d2 ->
  days_from_civil y1 m1 d1 < days_from_civil y2 m2 d2.
Proof.
  intros (Hm1 & Hd1) (Hm2 & Hd2) Hlt.
  pose proof (days_in_month_bounds y1 m1) as Hb1.
  pose proof (days_in_month_bounds y2 m2) as Hb2.
  rewrite (days_from_civil_day y1 m1 d1), (days_from_civil_day y2 m2 d2).
  destruct (Z.eq_dec (12 * y1 + m1) (12 * y2 + m2)) as [Heq|Hne].
  - assert (y1 = y2) by lia. assert (m1 = m2) by lia. subst. lia.
  - assert (Hl : 12 * y1 + m1 < 12 * y2 + m2) by lia.
    rewrite <- (month_start_at y1 m1 Hm1), <- (month_start_at y2 m2 Hm2).
    pose proof (month_start_next (12 * y1 + m1)) as Hnext.
    pose proof (month_start_monotone (12 * y1 + m1 + 1)
                  (Z.to_nat (12 * y2 + m2 - (12 * y1 + m1 + 1)))) as Hmono.
    rewrite Z2Nat.id in Hmono by lia.
    replace (12 * y1 + m1 + 1 + (12 * y2 + m2 - (12 * y1 + m1 + 1)))
      with (12 * y2 + m2) in Hmono by lia.
    assert (Hy : year_of (12 * y1 + m1) = y1)
      by (unfold year_of; Z.to_euclidean_division_equations; lia).
    assert (Hm : month_of (12 * y1 + m1) = m1)
      by (unfold month_of; Z.to_euclidean_division_equations; lia).
    rewrite Hy, Hm in Hnext. lia.
Qed.

(** The instant grows with the fields. *)
Lemma instant_monotone y1 m1 d1 h1 n1 s1 y2 m2 d2 h2 n2 s2 :
  valid_date y1 m1 d1 -> valid_date y2 m2 d2 ->
  0 <= h1 <= 23 -> 0 <= n1 <= 59 -> 0 <= s1 <= 59 ->
  0 <= h2 <= 23 -> 0 <= n2 <= 59 -> 0 <= s2 <= 59 ->
  fields y1 m1 d1 h1 n1 s1 <= fields y2 m2 d2 h2 n2 s2 ->
  instant y1 m1 d1 h1 n1 s1 <= instant y2 m2 d2 h2 n2 s2.
Proof.
  intros Hv1 Hv2 Hh1 Hn1 Hs1 Hh2 Hn2 Hs2 Hle.
  unfold fields in Hle. unfold instant.
  destruct (Z.eq_dec ((y1 * 100 + m1) * 100 + d1) ((y2 * 100 + m2) * 100 + d2))
    as [Heq|Hne].
  - pose proof (days_in_month_bounds y1 m1). pose proof (days_in_month_bounds y2 m2).
    destruct Hv1 as (? & ?), Hv2 as (? & ?).
    assert (y1 = y2) by lia. assert (m1 = m2) by lia. assert (d1 = d2) by lia.
    subst. lia.
  - assert (Hlt : (y1 * 100 + m1) * 100 + d1 < (y2 * 100 + m2) * 100 + d2) by lia.
    pose proof (days_from_civil_increasing _ _ _ _ _ _ Hv1 Hv2 Hlt). lia.
Qed.


Lemma digit_range c d :
  digit c = Some d -> 0 <= d <= 9 /\ Z.of_N (N_of_ascii c) = d + 48.
Proof.
  unfold digit, nat_of_ascii. rewrite N_nat_Z.
  destruct ((48 <=? Z.of_N (N_of_ascii c)) && (Z.of_N (N_of_ascii c) <=? 57))%bool eqn:E;
    [|discriminate].
  intros [= <-]. apply andb_true_iff in E. lia.
Qed.

Lemma digit_compare c1 c2 d1 d2 :
  digit c1 = Some d1 -> digit c2 = Some d2 ->
  Ascii.compare c1 c2 = (d1 ?= d2).
Proof.
  intros H1 H2. apply digit_range in H1, H2.
  destruct H1 as [_ H1], H2 as [_ H2].
  unfold Ascii.compare. rewrite <- N2Z.inj_compare, H1, H2.
  rewrite !(Z.add_comm _ 48). apply Z.add_compare_mono_l.
Qed.

(** [digits n] reads a number below [10 ^ n] after what it was given. *)
Lemma digits_read n : forall acc s v r,
  digits n acc s = Some (v, r) ->
  0 <= v - acc * 10 ^ Z.of_nat n < 10 ^ Z.of_nat n.
Proof.
  induction n as [|n IH]; intros acc s v r H.
  - simpl in H. injection H as <- <-. simpl. lia.
  - simpl in H. destruct s as [|c s]; [discriminate|].
    destruct (digit c) as [d|] eqn:Hd; [|discriminate].
    apply IH in H. apply digit_range in Hd.
    rewrite Nat2Z.inj_succ, Z.pow_succ_r by lia.
    assert (0 < 10 ^ Z.of_nat n) by (apply Z.pow_pos_nonneg; lia).
    nia.
Qed.

(** Two texts that start with [n] digits compare as the numbers read, then
    as what follows. *)
Lemma digits_compare n : forall a1 a2 s1 s2 v1 v2 r1 r2,
  digits n a1 s1 = Some (v1, r1) ->
  digits n a2 s2 = Some (v2, r2) ->
  String.compare s1 s2
  = match v1 - a1 * 10 ^ Z.of_nat n ?= v2 - a2 * 10 ^ Z.of_nat n with
    | Eq => String.compare r1 r2
    | c => c
    end.
Proof.
  induction n as [|n IH]; intros a1 a2 s1 s2 v1 v2 r1 r2 H1 H2.
  - simpl in H1, H2. injection H1 as <- <-. injection H2 as <- <-.
    change (10 ^ Z.of_nat 0) with 1. rewrite !Z.mul_1_r, !Z.sub_diag. reflexivity.
  - simpl in H1, H2.
    destruct s1 as [|c1 s1]; [discriminate|]. destruct s2 as [|c2 s2]; [discriminate|].
    destruct (digit c1) as [d1|] eqn:Hd1; [|discriminate].
    destruct (digit c2) as [d2|] eqn:Hd2; [|discriminate].
    simpl String.compare. rewrite (digit_compare _ _ _ _ Hd1 Hd2).
    rewrite (IH _ _ _ _ _ _ _ _ H1 H2).
    apply digits_read in H1, H2. apply digit_range in Hd1, Hd2.
    rewrite Nat2Z.inj_succ, Z.pow_succ_r by lia.
    set (p := 10 ^ Z.of_nat n) in *.
    assert (0 < p) by (apply Z.pow_pos_nonneg; lia).
    destruct (Z.compare_spec d1 d2);
      destruct (Z.compare_spec (v1 - (10 * a1 + d1) * p) (v2 - (10 * a2 + d2) * p));
      destruct (Z.compare_spec (v1 - a1 * (10 * p)) (v2 - a2 * (10 * p)));
      try reflexivity; exfalso; nia.
Qed.

Lemma digits_compare_0 n s1 s2 v1 v2 r1 r2 :
  digits n 0 s1 = Some (v1, r1) ->
  digits n 0 s2 = Some (v2, r2) ->
  0 <= v1 /\ 0 <= v2
  /\ String.compare s1 s2
     = match v1 ?= v2 with Eq => String.compare r1 r2 | c => c end.
Proof.
  intros H1 H2.
  pose proof (digits_read _ _ _ _ _ H1). pose proof (digits_read _ _ _ _ _ H2).
  rewrite (digits_compare _ _ _ _ _ _ _ _ _ H1 H2).
  rewrite !Z.mul_0_l, !Z.sub_0_r in *. repeat split; try lia.
Qed.

Lemma expect_compare c s1 s2 r1 r2 :
  expect c s1 = Some r1 -> expect c s2 = Some r2 ->
  String.compare s1 s2 = String.compare r1 r2.
Proof.
  unfold expect. destruct s1 as [|c1 s1]; [discriminate|].
  destruct s2 as [|c2 s2]; [discriminate|].
  destruct (Ascii.eqb c c1) eqn:E1; [|discriminate].
  destruct (Ascii.eqb c c2) eqn:E2; [|discriminate].
  apply Ascii.eqb_eq in E1, E2. subst c1 c2.
  intros [= <-] [= <-]. simpl.
  unfold Ascii.compare. rewrite N.compare_refl. reflexivity.
Qed.

Tactic Notation "read_field" hyp(H) "as" ident(x) ident(s) ident(E) :=
  apply bind_Some in H; destruct H as ([x s] & E & H); cbv beta iota in H.

Tactic Notation "read_mark" hyp(H) "as" ident(s) ident(E) :=
  apply bind_Some in H; destruct H as (s & E & H); cbv beta iota in H.

(** Two zero-padded timestamps compare, as texts, the way their fields
    compare as one number. *)
Lemma strptime_padded_compare s1 s2 t1 t2 :
  strptime_padded s1 = Some t1 -> strptime_padded s2 = Some t2 ->
  exists r1 r2,
    well_formed r1 /\ well_formed r2 /\ t1 = time r1 /\ t2 = time r2
    /\ String.compare s1 s2 = (key r1 ?= key r2).
Proof.
  unfold strptime_padded. intros H1 H2.
  read_field H1 as y1 a1 Ey1. read_mark H1 as b1 Ea1.
  read_field H1 as m1 c1 Em1. read_mark H1 as e1 Ec1.
  read_field H1 as d1 f1 Ed1. read_mark H1 as g1 Ef1.
  read_field H1 as h1 i1 Eh1. read_mark H1 as j1 Ei1.
  read_field H1 as n1 k1 En1. read_mark H1 as l1 Ek1.
  read_field H1 as x1 o1 Ex1.
  read_field H2 as y2 a2 Ey2. read_mark H2 as b2 Ea2.
  read_field H2 as m2 c2 Em2. read_mark H2 as e2 Ec2.
  read_field H2 as d2 f2 Ed2. read_mark H2 as g2 Ef2.
  read_field H2 as h2 i2 Eh2. read_mark H2 as j2 Ei2.
  read_field H2 as n2 k2 En2. read_mark H2 as l2 Ek2.
  read_field H2 as x2 o2 Ex2.
  match type of H1 with (if ?b then _ else _) = _ => destruct b eqn:V1; [|discriminate] end.
  match type of H2 with (if ?b then _ else _) = _ => destruct b eqn:V2; [|discriminate] end.
  injection H1 as <-. injection H2 as <-.
  repeat (apply andb_true_iff in V1; destruct V1 as [V1 ?]).
  repeat (apply andb_true_iff in V2; destruct V2 as [V2 ?]).
  apply String.eqb_eq in V1, V2. subst o1 o2.
  destruct (digits_compare_0 _ _ _ _ _ _ _ Ey1 Ey2) as (? & ? & Cy).
  destruct (digits_compare_0 _ _ _ _ _ _ _ Em1 Em2) as (? & ? & Cm).
  destruct (digits_compare_0 _ _ _ _ _ _ _ Ed1 Ed2) as (? & ? & Cd).
  destruct (digits_compare_0 _ _ _ _ _ _ _ Eh1 Eh2) as (? & ? & Ch).
  destruct (digits_compare_0 _ _ _ _ _ _ _ En1 En2) as (? & ? & Cn).
  destruct (digits_compare_0 _ _ _ _ _ _ _ Ex1 Ex2) as (? & ? & Cx).
  pose proof (expect_compare _ _ _ _ _ Ea1 Ea2) as Ca.
  pose proof (expect_compare _ _ _ _ _ Ec1 Ec2) as Cc.
  pose proof (expect_compare _ _ _ _ _ Ef1 Ef2) as Cf.
  pose proof (expect_compare _ _ _ _ _ Ei1 Ei2) as Ci.
  pose proof (expect_compare _ _ _ _ _ Ek1 Ek2) as Ck.
  exists {| r_year := y1; r_month := m1; r_day := d1;
            r_hour := h1; r_minute := n1; r_second := x1 |},
         {| r_year := y2; r_month := m2; r_day := d2;
            r_hour := h2; r_minute := n2; r_second := x2 |}.
  pose proof (days_in_month_bounds y1 m1). pose proof (days_in_month_bounds y2 m2).
  assert (W1 : well_formed {| r_year := y1; r_month := m1; r_day := d1;
                              r_hour := h1; r_minute := n1; r_second := x1 |})
    by (unfold well_formed, valid_date; simpl; lia).
  assert (W2 : well_formed {| r_year := y2; r_month := m2; r_day := d2;
                              r_hour := h2; r_minute := n2; r_second := x2 |})
    by (unfold well_formed, valid_date; simpl; lia).
  split; [exact W1|]. split; [exact W2|].
  split; [reflexivity|]. split; [reflexivity|].
  rewrite Cy, Ca, Cm, Cc, Cd, Cf, Ch, Ci, Cn, Ck, Cx. simpl String.compare.
  unfold key, fields. simpl.
  unfold well_formed, valid_date in W1, W2. simpl in W1, W2.
  destruct (Z.compare_spec y1 y2); destruct (Z.compare_spec m1 m2);
    destruct (Z.compare_spec d1 d2); destruct (Z.compare_spec h1 h2);
    destruct (Z.compare_spec n1 n2); destruct (Z.compare_spec x1 x2);
    symmetry; first [apply Z.compare_eq_iff | apply Z.compare_lt_iff | apply Z.compare_gt_iff];
    lia.
Qed.

(** The order of zero-padded timestamps as texts is their order in
    time. *)
Lemma strptime_padded_monotone s1 s2 t1 t2 :
  strptime_padded s1 = Some t1 -> strptime_padded s2 = Some t2 ->
  String.leb s1 s2 = true -> t1 <= t2.
Proof.
  intros H1 H2 Hle.
  destruct (strptime_padded_compare _ _ _ _ H1 H2)
    as (r1 & r2 & W1 & W2 & -> & -> & Hc).
  unfold String.leb in Hle. rewrite Hc in Hle.
  assert (Hkey : key r1 <= key r2).
  { destruct (Z.compare_spec (key r1) (key r2)); [lia|lia|discriminate]. }
  destruct W1 as (? & ? & ? & ?), W2 as (? & ? & ? & ?).
  apply instant_monotone; assumption.
Qed.

Ltac in_pattern :=
  cbv beta; rewrite ?orb_true_iff, ?andb_true_iff, ?Z.eqb_eq, ?Z.leb_le; lia.

Lemma digit_bounds c d : digit c = Some d -> 0 <= d <= 9.
Proof.
  unfold digit.
  destruct ((48 <=? Z.of_nat (nat_of_ascii c)) && (Z.of_nat (nat_of_ascii c) <=? 57))%bool eqn:E;
    [|discriminate].
  intros [= <-]. apply andb_true_iff in E. lia.
Qed.

Lemma digit_not_space c d : digit c = Some d -> is_blank c = false.
Proof.
  unfold digit, is_blank.
  destruct ((48 <=? Z.of_nat (nat_of_ascii c)) && (Z.of_nat (nat_of_ascii c) <=? 57))%bool eqn:E;
    [|discriminate].
  intros _. apply andb_true_iff in E.
  apply orb_false_iff. split; apply andb_false_iff; lia.
Qed.

(** A field written with two digits is read as the number they write, when
    the pattern of the field has that number. *)
Lemma field_two_digits two one s v r :
  digits 2 0 s = Some (v, r) ->
  (forall x y, 0 <= x <= 9 -> 0 <= y <= 9 -> v = 10 * x + y -> two x y = true) ->
  field two one s = Some (v, r).
Proof.
  intros H Htwo. simpl in H.
  destruct s as [|a s]; [discriminate|].
  destruct (digit a) as [x|] eqn:Hx; [|discriminate].
  destruct s as [|b s]; [discriminate|].
  destruct (digit b) as [y|] eqn:Hy; [|discriminate].
  injection H as <- <-. unfold field. rewrite Hx, Hy.
  rewrite (Htwo x y (digit_bounds _ _ Hx) (digit_bounds _ _ Hy)) by lia.
  reflexivity.
Qed.

Lemma spaces_one s r v r' :
  expect " " s = Some r -> digits 2 0 r = Some (v, r') -> spaces s = Some r.
Proof.
  unfold expect, spaces. destruct s as [|c s]; [discriminate|].
  destruct (Ascii.eqb " " c) eqn:E; [|discriminate].
  apply Ascii.eqb_eq in E. subst c. intros [= <-] H.
  change (is_blank " ") with true. cbv beta iota. f_equal.
  simpl in H. destruct s as [|a s]; [discriminate|].
  destruct (digit a) as [x|] eqn:Hx; [|discriminate].
  simpl. rewrite (digit_not_space _ _ Hx). reflexivity.
Qed.

(** [strptime_ascii] reads every zero-padded timestamp, and as
    [strptime_padded] reads it. *)
Lemma strptime_ascii_padded s t :
  strptime_padded s = Some t -> strptime_ascii s = Some t.
Proof.
  unfold strptime_padded. intros H.
  read_field H as y a Ey. read_mark H as b Ea.
  read_field H as m c Em. read_mark H as e Ec.
  read_field H as d f Ed. read_mark H as g Ef.
  read_field H as h i Eh. read_mark H as j Ei.
  read_field H as n k En. read_mark H as l Ek.
  read_field H as x o Ex.
  match type of H with (if ?b then _ else _) = _ => destruct b eqn:V; [|discriminate] end.
  injection H as <-.
  repeat (apply andb_true_iff in V; destruct V as [V ?]).
  assert (Hb : 1 <= m <= 12 /\ 1 <= d <= 31 /\ h <= 23 /\ n <= 59 /\ x <= 59).
  { pose proof (days_in_month_bounds y m).
    repeat match goal with
           | H : (_ <=? _) = true |- _ => apply Z.leb_le in H
           end. lia. }
  unfold strptime_ascii.
  rewrite Ey. simpl mbind. rewrite Ea. simpl mbind.
  unfold month_field. rewrite (field_two_digits _ _ _ _ _ Em) by (intros; in_pattern).
  simpl mbind. rewrite Ec. simpl mbind.
  unfold day_field. rewrite (field_two_digits _ _ _ _ _ Ed) by (intros; in_pattern).
  simpl mbind. rewrite (spaces_one _ _ _ _ Ef Eh). simpl mbind.
  unfold hour_field. rewrite (field_two_digits _ _ _ _ _ Eh) by (intros; in_pattern).
  simpl mbind. rewrite Ei. simpl mbind.
  unfold minute_field. rewrite (field_two_digits _ _ _ _ _ En) by (intros; in_pattern).
  simpl mbind. rewrite Ek. simpl mbind.
  unfold second_field. rewrite (field_two_digits _ _ _ _ _ Ex) by (intros; in_pattern).
  simpl mbind.
  match goal with |- (if ?b then _ else _) = _ => replace b with true; [reflexivity|] end.
  symmetry. repeat (apply andb_true_iff; split); assumption.
Qed.

End TimestampsFacts.

(** ** The session query facade *)

Module FacadeFacts.

Import Facade Samples.
Local Open Scope list_scope.

Lemma sql_leb_total a b : sql_leb a b = false -> sql_leb b a = true.
Proof.
  unfold sql_leb, sql_compare.
  destruct a as [|x|x|x], b as [|y|y|y]; simpl; try discriminate; try reflexivity.
  - rewrite (Z.compare_antisym x y). destruct (x ?= y)%Z; simpl; congruence.
  - rewrite (String.compare_antisym x y). destruct (String.compare y x); simpl; congruence.
  - rewrite (String.compare_antisym x y). destruct (String.compare y x); simpl; congruence.
Qed.

Lemma insert_desc_HdRel r a rs :
  newer_first a r -> HdRel newer_first a rs -> HdRel newer_first a (insert_desc r rs).
Proof.
  intros Har Hrs. destruct rs as [|r' rs]; simpl.
  - constructor. exact Har.
  - destruct (sql_leb r'.2 r.2); constructor; [exact Har|].
    inversion Hrs; assumption.
Qed.

Lemma insert_desc_sorted r rs :
  Sorted newer_first rs -> Sorted newer_first (insert_desc r rs).
Proof.
  induction rs as [|r' rs IH]; intros Hs; simpl.
  - repeat constructor.
  - destruct (sql_leb r'.2 r.2) eqn:Hle.
    + constructor; [exact Hs|]. constructor. exact Hle.
    + inversion Hs as [|? ? Hs' Hhd]; subst.
      constructor; [apply IH; exact Hs'|].
      apply insert_desc_HdRel; [|exact Hhd].
      unfold newer_first. apply sql_leb_total. exact Hle.
Qed.

Lemma order_by_timestamp_desc_sorted rs :
  Sorted newer_first (order_by_timestamp_desc rs).
Proof.
  induction rs as [|r rs IH]; simpl; [constructor|].
  apply insert_desc_sorted. exact IH.
Qed.

Lemma take_sorted n : forall rs,
  Sorted newer_first rs -> Sorted newer_first (take n rs).
Proof.
  induction n as [|n IH]; intros rs Hs; [constructor|].
  destruct rs as [|r rs]; [constructor|]. simpl.
  inversion Hs as [|? ? Hs' Hhd]; subst.
  constructor; [apply IH; exact Hs'|].
  destruct rs as [|r' rs]; [destruct n; constructor|].
  inversion Hhd; subst. destruct n; constructor. assumption.
Qed.

(** Whatever table answers, its rows come newest first, and no more of
    them than a non-negative bound allows. *)
Lemma query_sorted db name limit rows :
  query db name limit = Return rows ->
  Sorted newer_first rows
  /\ ((0 <= limit)%Z -> (Z.of_nat (length rows) <= limit)%Z).
Proof.
  unfold query.
  destruct (tables db !! name) as [[rs|e]|]; try discriminate.
  destruct ((limit <? - 2 ^ 63) || (2 ^ 63 <=? limit))%Z; [discriminate|].
  intros [= <-]. unfold sql_limit. split.
  - destruct (limit <? 0)%Z; [|apply take_sorted];
      apply order_by_timestamp_desc_sorted.
  - intros Hpos. destruct (limit <? 0)%Z eqn:Hneg; [lia|].
    rewrite length_take. lia.
Qed.

Lemma fetched_rows_sorted db limit rows :
  fetched_rows db limit = Some rows ->
  Sorted newer_first rows
  /\ ((0 <= limit)%Z -> (Z.of_nat (length rows) <= limit)%Z).
Proof.
  unfold fetched_rows. destruct (connect db); [discriminate|].
  destruct (query db "focus_log" limit) as [rows'|e] eqn:Ha.
  - intros [= <-]. exact (query_sorted _ _ _ _ Ha).
  - destruct (except_classes [OperationalError] e); [|discriminate].
    destruct (query db "focus_sessions" limit) as [rows'|e'] eqn:Hb; [|discriminate].
    intros [= <-]. exact (query_sorted _ _ _ _ Hb).
Qed.

Section Loops.

Variable strptime : string -> option Z.
Variable now : Z.

Ltac run_row :=
  unfold focus_log_row, focus_sessions_row, try_except, bind, parse_timestamp,
    as_datetime, minutes_between, index, keep_positive, modify, ret, raise,
    append, extend, entry, computed_duration, later_time, stored_time,
    except_classes;
  simpl.

Lemma extend_nil f : extend [] f = f.
Proof. destruct f. unfold extend. simpl. rewrite app_nil_r. reflexivity. Qed.

Lemma extend_extend a b f : extend b (extend a f) = extend (a ++ b) f.
Proof. unfold extend. simpl. rewrite app_assoc. reflexivity. Qed.

(** On rows whose timestamps are texts, one round of the [focus_log] loop
    adds what the duration view says for the row. *)
Lemma focus_log_row_entry rows i r f :
  text_stamped r = true ->
  (forall j p, rows !! j = Some p -> text_stamped p = true) ->
  focus_log_row strptime now rows i r f =
    (Return tt, extend (entry strptime now rows i r) f).
Proof.
  intros Hr Hrows. destruct r as [[app mode] [| |s|]]; try discriminate.
  destruct f as [ss tr]. destruct i as [|j].
  - run_row. destruct (strptime s) as [t|]; simpl; [|reflexivity].
    destruct (positive (minutes (now - t))); simpl; rewrite ?app_nil_r; reflexivity.
  - run_row. rewrite Nat.sub_0_r.
    destruct (strptime s) as [t|]; simpl; [|reflexivity].
    destruct (rows !! j) as [[[pa pm] pts]|] eqn:Hj; simpl; [|reflexivity].
    specialize (Hrows _ _ Hj). destruct pts as [| |ps|]; try discriminate. simpl.
    destruct (strptime ps) as [tp|]; simpl; [|reflexivity].
    destruct (positive (minutes (tp - t))); simpl; rewrite ?app_nil_r; reflexivity.
Qed.

(** The same for one round of the [focus_sessions] loop. *)
Lemma focus_sessions_row_entry rows i r f :
  text_stamped r = true ->
  (forall j p, rows !! j = Some p -> text_stamped p = true) ->
  focus_sessions_row strptime now rows i r f =
    (Return tt, extend (entry strptime now rows i r) f).
Proof.
  intros Hr Hrows. destruct r as [[app mode] [| |s|]]; try discriminate.
  destruct f as [ss tr]. destruct i as [|j].
  - run_row. destruct (strptime s) as [t|]; simpl; [|reflexivity].
    destruct (positive (minutes (now - t))); simpl; rewrite ?app_nil_r; reflexivity.
  - run_row. rewrite Nat.sub_0_r.
    destruct (strptime s) as [t|]; simpl; [|reflexivity].
    destruct (rows !! j) as [[[pa pm] pts]|] eqn:Hj; simpl; [|reflexivity].
    specialize (Hrows _ _ Hj). destruct pts as [| |ps|]; try discriminate. simpl.
    destruct (strptime ps) as [tp|]; simpl; [|reflexivity].
    destruct (positive (minutes (tp - t))); simpl; rewrite ?app_nil_r; reflexivity.
Qed.

Lemma for_enumerate_entries body rows :
  (forall i r f, text_stamped r = true ->
     body i r f = (Return tt, extend (entry strptime now rows i r) f)) ->
  forall l i f,
    Forall (fun r => text_stamped r = true) l ->
    for_enumerate body i l f =
      (Return tt, extend (concat (imap (fun k => entry strptime now rows (i + k)) l)) f).
Proof.
  intros Hbody. induction l as [|r l IH]; intros i f Hl; simpl.
  - rewrite extend_nil. reflexivity.
  - inversion Hl as [|? ? Hr Hl']; subst.
    unfold bind. rewrite (Hbody i r f Hr).
    rewrite (IH (S i) _ Hl'). rewrite extend_extend.
    rewrite Nat.add_0_r.
    assert (E : imap (fun k => entry strptime now rows (S i + k)) l
                = imap ((fun k => entry strptime now rows (i + k)) ∘ S) l).
    { apply imap_ext. intros k x _. simpl. f_equal. lia. }
    rewrite E. reflexivity.
Qed.

Lemma focus_log_loop rows f :
  Forall (fun r => text_stamped r = true) rows ->
  for_enumerate (focus_log_row strptime now rows) 0 rows f =
    (Return tt, extend (derived strptime now rows) f).
Proof.
  intros Hrows.
  apply (for_enumerate_entries (focus_log_row strptime now rows) rows); [|exact Hrows].
  intros i r f' Hr. apply focus_log_row_entry; [exact Hr|].
  intros j p Hj. exact (Forall_lookup_1 _ _ _ _ Hrows Hj).
Qed.

Lemma focus_sessions_loop rows f :
  Forall (fun r => text_stamped r = true) rows ->
  for_enumerate (focus_sessions_row strptime now rows) 0 rows f =
    (Return tt, extend (derived strptime now rows) f).
Proof.
  intros Hrows.
  apply (for_enumerate_entries (focus_sessions_row strptime now rows) rows); [|exact Hrows].
  intros i r f' Hr. apply focus_sessions_row_entry; [exact Hr|].
  intros j p Hj. exact (Forall_lookup_1 _ _ _ _ Hrows Hj).
Qed.

Lemma positive_iff d : positive d = true <-> (0 < d)%Q.
Proof.
  unfold positive. rewrite negb_true_iff.
  destruct (Qle_bool d 0) eqn:E.
  - apply Qle_bool_iff in E. split; [discriminate|].
    intros H. exfalso. apply (Qlt_not_le _ _ H E).
  - split; [|reflexivity]. intros _.
    apply Qnot_le_lt. intros H. apply Qle_bool_iff in H. congruence.
Qed.

Lemma positive_false_iff d : positive d = false <-> (d <= 0)%Q.
Proof.
  unfold positive. rewrite negb_false_iff. apply Qle_bool_iff.
Qed.

Ltac finish_round :=
  simpl; split;
  [ reflexivity
  | first
      [ exists []; split; [rewrite app_nil_r; reflexivity | constructor]
      | eexists [_]; split;
        [ reflexivity
        | constructor; [|constructor]; unfold acceptable; simpl;
          first [ right; reflexivity | left; apply positive_iff; assumption ] ] ] ].

Lemma focus_log_row_ok rows i r f :
  round_ok f (focus_log_row strptime now rows i r f)
  /\ forall e, (focus_log_row strptime now rows i r f).1 = Raise e ->
               exn_cls e = TypeError.
Proof.
  destruct r as [[app mode] ts]. destruct f as [ss tr]. unfold round_ok.
  destruct ts as [|z|s|b]; [| |destruct (strptime s) as [t|] eqn:Hs|];
    (destruct i as [|j];
     [| destruct (rows !! j) as [[[pa pm] [|pz|ps|pb]]|] eqn:Hj;
        [| |destruct (strptime ps) as [tp|] eqn:Hps| |] ]);
    run_row; rewrite ?Nat.sub_0_r, ?Hs, ?Hj; simpl; rewrite ?Hps; simpl;
    try (match goal with |- context [positive ?d] =>
           destruct (positive d) eqn:Hpos end);
    (split; [finish_round | intros e He; simpl in He;
                            first [discriminate | injection He as <-; reflexivity]]).
Qed.

Lemma focus_sessions_row_ok rows i r f :
  round_ok f (focus_sessions_row strptime now rows i r f).
Proof.
  destruct r as [[app mode] ts]. destruct f as [ss tr]. unfold round_ok.
  destruct ts as [|z|s|b]; [| |destruct (strptime s) as [t|] eqn:Hs|];
    (destruct i as [|j];
     [| destruct (rows !! j) as [[[pa pm] [|pz|ps|pb]]|] eqn:Hj;
        [| |destruct (strptime ps) as [tp|] eqn:Hps| |] ]);
    run_row; rewrite ?Nat.sub_0_r, ?Hs, ?Hj; simpl; rewrite ?Hps; simpl;
    try (match goal with |- context [positive ?d] =>
           destruct (positive d) eqn:Hpos end);
    finish_round.
Qed.

Lemma for_enumerate_ok (body : nat -> row -> M frame unit) :
  (forall i r f, round_ok f (body i r f)) ->
  forall l i f, round_ok f (for_enumerate body i l f).
Proof.
  intros Hbody. induction l as [|r l IH]; intros i f; simpl.
  - split; [reflexivity|]. exists []. rewrite app_nil_r. split; [reflexivity|constructor].
  - unfold bind. destruct (Hbody i r f) as (Ht & items & Hs & Hok).
    destruct (body i r f) as [[[]|e] f1]; simpl in *.
    + destruct (IH (S i) f1) as (Ht' & items' & Hs' & Hok').
      split; [congruence|]. exists (items ++ items').
      rewrite Hs', Hs, app_assoc. split; [reflexivity|].
      apply Forall_app; split; assumption.
    + split; [exact Ht|]. exists items. split; assumption.
Qed.

Lemma for_enumerate_raise (body : nat -> row -> M frame unit) (P : exn -> Prop) :
  (forall i r f e, (body i r f).1 = Raise e -> P e) ->
  forall l i f e, (for_enumerate body i l f).1 = Raise e -> P e.
Proof.
  intros Hbody. induction l as [|r l IH]; intros i f e; simpl; [discriminate|].
  unfold bind. destruct (body i r f) as [[[]|e'] f1] eqn:Hb; simpl.
  - apply IH.
  - intros [= <-]. apply (Hbody i r f). rewrite Hb. reflexivity.
Qed.

Lemma view_from prefix p : forall suffix rows,
  rows = prefix ++ p :: suffix ->
  Forall (reads strptime) rows ->
  concat (imap (fun k => entry strptime now rows (S (length prefix) + k)) suffix)
  = view strptime (default 0%Z (stored_time strptime p.2)) suffix.
Proof.
  intros suffix. revert prefix p.
  induction suffix as [|r rest IH]; intros prefix p rows Hrows Hreads; [reflexivity|].
  assert (Hp : reads strptime p).
  { rewrite Forall_forall in Hreads. apply Hreads. subst rows.
    rewrite elem_of_app, elem_of_cons. auto. }
  assert (Hr : reads strptime r).
  { rewrite Forall_forall in Hreads. apply Hreads. subst rows.
    rewrite elem_of_app, !elem_of_cons. auto. }
  destruct Hp as [tp Hp], Hr as [t Hr].
  assert (Hlook : rows !! length prefix = Some p).
  { subst rows. apply list_lookup_middle. reflexivity. }
  simpl. rewrite Nat.add_0_r.
  assert (Hentry : entry strptime now rows (S (length prefix)) r
                   = if positive (minutes (tp - t))
                     then [(r.1.1, r.1.2, minutes (tp - t))] else []).
  { unfold entry, computed_duration, later_time. rewrite Hr. simpl.
    rewrite Hlook. simpl. rewrite Hp. reflexivity. }
  assert (IH' := IH (prefix ++ [p]) r rows).
  rewrite Hr in IH'. simpl in IH'.
  rewrite Hentry, Hp, Hr. simpl. f_equal.
  rewrite <- IH'.
  - f_equal. apply imap_ext. intros k x _. simpl.
    rewrite length_app. simpl. f_equal. lia.
  - subst rows. rewrite <- app_assoc. reflexivity.
  - exact Hreads.
Qed.

(** On rows whose timestamps all read, the row-by-row view is the view of
    the data model: the first record against [now], each other one against
    the record before it. *)
Lemma derived_view rows :
  Forall (reads strptime) rows -> derived strptime now rows = view strptime now rows.
Proof.
  intros Hreads. destruct rows as [|r rest]; [reflexivity|].
  unfold derived. simpl.
  assert (Hr : reads strptime r) by (inversion Hreads; assumption).
  destruct Hr as [t Hr].
  assert (Hentry : entry strptime now (r :: rest) 0 r
                   = if positive (minutes (now - t))
                     then [(r.1.1, r.1.2, minutes (now - t))] else []).
  { unfold entry, computed_duration, later_time. rewrite Hr. reflexivity. }
  assert (Hrest := view_from [] r rest (r :: rest) eq_refl Hreads).
  rewrite Hr in Hrest. simpl in Hrest.
  rewrite Hentry, Hr. simpl. f_equal. exact Hrest.
Qed.

Lemma reads_text_stamped r : reads strptime r -> text_stamped r = true.
Proof.
  unfold reads, text_stamped, stored_time. intros [t Ht].
  destruct r.2; try discriminate. reflexivity.
Qed.

Lemma except_operational e :
  except_classes [OperationalError] e = true <-> exn_cls e = OperationalError.
Proof.
  unfold except_classes. simpl. rewrite orb_false_r.
  destruct (exn_cls e); simpl; split; congruence.
Qed.

Lemma from_focus_log_unfold db limit g :
  from_focus_log strptime now db limit g =
    match query db "focus_log" limit with
    | Return rows =>
        for_enumerate (focus_log_row strptime now rows) 0 rows
          (note (Executed "focus_log") g)
    | Raise e => (Raise e, note (Executed "focus_log") g)
    end.
Proof.
  unfold from_focus_log, select_recent, bind, modify. simpl.
  destruct (query db "focus_log" limit); reflexivity.
Qed.

Lemma from_focus_sessions_unfold db limit g :
  from_focus_sessions strptime now db limit g =
    match query db "focus_sessions" limit with
    | Return rows =>
        for_enumerate (focus_sessions_row strptime now rows) 0 rows
          (note (Executed "focus_sessions") g)
    | Raise e => (Raise e, note (Executed "focus_sessions") g)
    end.
Proof.
  unfold from_focus_sessions, select_recent, bind, modify. simpl.
  destruct (query db "focus_sessions" limit); reflexivity.
Qed.

Lemma fetch_unfold db limit g :
  fetch strptime now db limit g =
    match connect db with
    | Some e => (Raise e, note Connected g)
    | None =>
        match from_focus_log strptime now db limit (note Connected g) with
        | (Return _, g1) => (Return tt, note Closed g1)
        | (Raise e, g1) =>
            if except_classes [OperationalError] e then
              match from_focus_sessions strptime now db limit g1 with
              | (Return _, g2) => (Return tt, note Closed g2)
              | (Raise e', g2) => (Raise e', g2)
              end
            else (Raise e, g1)
        end
    end.
Proof.
  unfold fetch, bind, modify, returns_or_raises, try_except, ret, raise. simpl.
  destruct (connect db) as [e|]; [reflexivity|].
  destruct (from_focus_log strptime now db limit (note Connected g)) as [[[]|e] g1];
    [reflexivity|].
  change (exn_class_eqb (exn_cls e) OperationalError || false)
    with (except_classes [OperationalError] e).
  destruct (except_classes [OperationalError] e); [|reflexivity].
  destruct (from_focus_sessions strptime now db limit g1) as [[[]|e'] g2]; reflexivity.
Qed.

Lemma get_recent_sessions_unfold db limit f :
  get_recent_sessions strptime now db limit f =
    match fetch strptime now db limit (reset f) with
    | (Return _, g) => (Return (sessions g), g)
    | (Raise e, g) => (Return (sessions g), note (failure_line e) g)
    end.
Proof.
  unfold get_recent_sessions, bind, modify, try_except, get, ret, except_Exception.
  simpl. destruct (fetch strptime now db limit (reset f)) as [[[]|e] g]; reflexivity.
Qed.

(** The facade returns to its caller whatever happens inside. *)
Lemma get_recent_sessions_returns db limit f :
  exists l, (get_recent_sessions strptime now db limit f).1 = Return l.
Proof.
  rewrite get_recent_sessions_unfold.
  destruct (fetch strptime now db limit (reset f)) as [[[]|e] g]; simpl; eauto.
Qed.

(** On rows with text timestamps the facade returns the row-by-row view
    of the rows it fetched. *)
Lemma get_recent_sessions_derived db limit f rows :
  fetched_rows db limit = Some rows ->
  Forall (fun r => text_stamped r = true) rows ->
  (get_recent_sessions strptime now db limit f).1
  = Return (derived strptime now rows).
Proof.
  unfold fetched_rows. intros Hrows Htext.
  rewrite get_recent_sessions_unfold, fetch_unfold, from_focus_log_unfold.
  destruct (connect db); [discriminate|].
  destruct (query db "focus_log" limit) as [rows'|e] eqn:Ha.
  - injection Hrows as ->. rewrite (focus_log_loop rows _ Htext).
    reflexivity.
  - destruct (except_classes [OperationalError] e); [|discriminate].
    rewrite from_focus_sessions_unfold.
    destruct (query db "focus_sessions" limit) as [rows'|e'] eqn:Hb; [|discriminate].
    injection Hrows as ->. rewrite (focus_sessions_loop rows _ Htext).
    reflexivity.
Qed.

Ltac frame_facts H g :=
  let Ht := fresh "Ht" in let items := fresh "items" in
  let Hs := fresh "Hs" in let Hok := fresh "Hok" in
  destruct H as (Ht & items & Hs & Hok);
  destruct g as [? ?]; unfold note, reset, failure_line in *; simpl in *; subst.

Ltac close_trace :=
  repeat rewrite <- app_assoc; simpl;
  eexists _, _; split; [reflexivity|]; split; [first [assumption | constructor]|].

Ltac not_queried :=
  split;
  [ intros Hin; simpl in Hin;
    repeat (destruct Hin as [Hin|Hin]; [discriminate|]); contradiction
  | let Hconn := fresh "Hconn" in let e0 := fresh "e0" in
    let He0 := fresh "He0" in let Hop := fresh "Hop" in
    intros [Hconn (e0 & He0 & Hop)]; try discriminate; try congruence ].

(** The shape of every call of the facade: it returns a list of acceptable
    items, and it has queried [focus_sessions] exactly when it could connect
    and the query on [focus_log] raised [sqlite3.OperationalError]. *)
Lemma get_recent_sessions_shape db limit f :
  exists l new,
    get_recent_sessions strptime now db limit f
    = (Return l, {| sessions := l; trace := trace f ++ new |})
    /\ Forall acceptable l
    /\ (In (Executed "focus_sessions") new <-> fell_back db limit).
Proof.
  unfold fell_back.
  rewrite get_recent_sessions_unfold, fetch_unfold, from_focus_log_unfold.
  destruct (connect db) as [ec|] eqn:Hc.
  { unfold note, reset, failure_line; simpl. close_trace. not_queried. }
  destruct (query db "focus_log" limit) as [rows|e] eqn:Ha.
  - pose proof (for_enumerate_ok _
                  (fun i r g => proj1 (focus_log_row_ok rows i r g)) rows 0%nat
                  (note (Executed "focus_log") (note Connected (reset f)))) as Hloop.
    pose proof (for_enumerate_raise _ (fun e => exn_cls e = TypeError)
                  (fun i r g => proj2 (focus_log_row_ok rows i r g)) rows 0%nat
                  (note (Executed "focus_log") (note Connected (reset f)))) as Hcls.
    destruct (for_enumerate (focus_log_row strptime now rows) 0 rows
                (note (Executed "focus_log") (note Connected (reset f))))
      as [[[]|e] g1].
    + frame_facts Hloop g1. close_trace. not_queried.
    + assert (He : except_classes [OperationalError] e = false).
      { specialize (Hcls e eq_refl). unfold except_classes. simpl.
        rewrite Hcls. reflexivity. }
      rewrite He. frame_facts Hloop g1. close_trace. not_queried.
  - destruct (except_classes [OperationalError] e) eqn:He.
    + apply except_operational in He.
      rewrite from_focus_sessions_unfold.
      destruct (query db "focus_sessions" limit) as [rows|e'] eqn:Hb.
      * pose proof (for_enumerate_ok _
                      (fun i r g => focus_sessions_row_ok rows i r g) rows 0%nat
                      (note (Executed "focus_sessions")
                         (note (Executed "focus_log") (note Connected (reset f)))))
          as Hloop.
        destruct (for_enumerate (focus_sessions_row strptime now rows) 0 rows
                    (note (Executed "focus_sessions")
                       (note (Executed "focus_log") (note Connected (reset f)))))
          as [[[]|e'] g1];
          frame_facts Hloop g1; close_trace;
          (split; [intros _; split; [reflexivity|]; exists e; auto
                  | intros _; simpl; auto]).
      * unfold note, reset, failure_line; simpl. close_trace.
        split; [intros _; split; [reflexivity|]; exists e; auto
               | intros _; simpl; auto].
    + unfold note, reset, failure_line; simpl. close_trace.
      split;
        [ intros Hin; simpl in Hin;
          repeat (destruct Hin as [Hin|Hin]; [discriminate|]); contradiction
        | intros [_ (e0 & He0 & Hop)]; injection He0 as <-;
          apply except_operational in Hop; congruence ].
Qed.

Lemma connect_failure db limit f e :
  connect db = Some e ->
  get_recent_sessions strptime now db limit f
  = (Return [], {| sessions := []; trace := trace f ++ [Connected; failure_line e] |}).
Proof.
  intros Hc. rewrite get_recent_sessions_unfold, fetch_unfold, Hc.
  unfold note, reset. simpl. rewrite <- app_assoc. reflexivity.
Qed.

Lemma focus_log_failure db limit f e :
  connect db = None ->
  query db "focus_log" limit = Raise e ->
  exn_cls e <> OperationalError ->
  get_recent_sessions strptime now db limit f
  = (Return [],
     {| sessions := [];
        trace := trace f ++ [Connected; Executed "focus_log"; failure_line e] |}).
Proof.
  intros Hc Ha Hcls.
  rewrite get_recent_sessions_unfold, fetch_unfold, from_focus_log_unfold, Hc, Ha.
  destruct (except_classes [OperationalError] e) eqn:He.
  - apply except_operational in He. contradiction.
  - unfold note, reset. simpl. repeat rewrite <- app_assoc. reflexivity.
Qed.

Lemma focus_sessions_failure db limit f e e' :
  connect db = None ->
  query db "focus_log" limit = Raise e ->
  exn_cls e = OperationalError ->
  query db "focus_sessions" limit = Raise e' ->
  get_recent_sessions strptime now db limit f
  = (Return [],
     {| sessions := [];
        trace := trace f ++ [Connected; Executed "focus_log";
                             Executed "focus_sessions"; failure_line e'] |}).
Proof.
  intros Hc Ha Hcls Hb.
  rewrite get_recent_sessions_unfold, fetch_unfold, from_focus_log_unfold, Hc, Ha.
  apply except_operational in Hcls. rewrite Hcls.
  rewrite from_focus_sessions_unfold, Hb.
  unfold note, reset. simpl. repeat rewrite <- app_assoc. reflexivity.
Qed.

(** C1 (as amended) -- The facade queries [focus_sessions] only when its
    query on [focus_log] raised [sqlite3.OperationalError], the class of the
    "no such table" failure.  No failure reaches the caller: a failure to
    connect, any other failure of the query on [focus_log], and a failure of
    the query on [focus_sessions] are caught and printed, and the facade
    returns the (empty) list collected so far. *)
Theorem fallback_only_on_operational_error db limit f :
  (exists l, (get_recent_sessions strptime now db limit f).1 = Return l)
  /\ (exists new,
        trace (get_recent_sessions strptime now db limit f).2 = trace f ++ new
        /\ (In (Executed "focus_sessions") new <-> fell_back db limit))
  /\ (forall e,
        connect db = Some e ->
        get_recent_sessions strptime now db limit f
        = (Return [],
           {| sessions := [];
              trace := trace f ++ [Connected; failure_line e] |}))
  /\ (forall e,
        connect db = None ->
        query db "focus_log" limit = Raise e ->
        exn_cls e <> OperationalError ->
        get_recent_sessions strptime now db limit f
        = (Return [],
           {| sessions := [];
              trace := trace f ++ [Connected; Executed "focus_log"; failure_line e] |}))
  /\ (forall e e',
        connect db = None ->
        query db "focus_log" limit = Raise e ->
        exn_cls e = OperationalError ->
        query db "focus_sessions" limit = Raise e' ->
        get_recent_sessions strptime now db limit f
        = (Return [],
           {| sessions := [];
              trace := trace f ++ [Connected; Executed "focus_log";
                                   Executed "focus_sessions"; failure_line e'] |})).
Proof.
  split; [apply get_recent_sessions_returns|].
  split.
  { destruct (get_recent_sessions_shape db limit f) as (l & new & Heq & _ & Hiff).
    exists new. rewrite Heq. split; [reflexivity|exact Hiff]. }
  split; [intros e; apply connect_failure|].
  split; [intros e; apply focus_log_failure|].
  intros e e'. apply focus_sessions_failure.
Qed.

Lemma entry_nonpositive rows i r d :
  computed_duration strptime now rows i r = Some d ->
  (d <= 0)%Q ->
  entry strptime now rows i r = [].
Proof.
  intros Hd Hle. unfold entry. rewrite Hd.
  apply positive_false_iff in Hle. rewrite Hle. reflexivity.
Qed.

Lemma entry_positive rows i r d :
  computed_duration strptime now rows i r = Some d ->
  (0 < d)%Q ->
  entry strptime now rows i r = [(r.1.1, r.1.2, d)].
Proof.
  intros Hd Hlt. unfold entry. rewrite Hd.
  apply positive_iff in Hlt. rewrite Hlt. reflexivity.
Qed.

(** C9 -- Whatever the database holds, the facade returns normally, and
    every item it returns carries a positive duration or the default [0.0]
    of an unreadable timestamp.  On rows with text timestamps it returns,
    row by row, the row with its computed duration when that is positive
    and nothing when the computed duration is zero or negative, as a
    duplicate or a reversed timestamp makes it. *)
Theorem nonpositive_durations_excluded db limit f :
  (exists l,
     (get_recent_sessions strptime now db limit f).1 = Return l
     /\ Forall acceptable l)
  /\ (forall rows,
        fetched_rows db limit = Some rows ->
        Forall (fun r => text_stamped r = true) rows ->
        (get_recent_sessions strptime now db limit f).1
        = Return (concat (imap (entry strptime now rows) rows))
        /\ (forall i r d,
              rows !! i = Some r ->
              computed_duration strptime now rows i r = Some d ->
              ((d <= 0)%Q -> entry strptime now rows i r = [])
              /\ ((0 < d)%Q -> entry strptime now rows i r = [(r.1.1, r.1.2, d)]))).
Proof.
  split.
  - destruct (get_recent_sessions_shape db limit f) as (l & new & Heq & Hok & _).
    exists l. rewrite Heq. split; [reflexivity|exact Hok].
  - intros rows Hrows Htext. split.
    + apply (get_recent_sessions_derived db limit f rows Hrows Htext).
    + intros i r d _ Hd. split.
      * apply entry_nonpositive. exact Hd.
      * apply entry_positive. exact Hd.
Qed.

(** A zero-padded timestamp is read by a parser that reads such
    timestamps as the calendar has them. *)
Lemma padded_reads r :
  (forall s t, Timestamps.strptime_padded s = Some t -> strptime s = Some t) ->
  reads Timestamps.strptime_padded r ->
  stored_time strptime r.2 = stored_time Timestamps.strptime_padded r.2
  /\ reads strptime r.
Proof.
  intros Hparser [t Ht]. unfold reads, stored_time in *.
  destruct r.2 as [| |s|]; try discriminate.
  rewrite Ht, (Hparser s t Ht). eauto.
Qed.

(** Newest first in time: on zero-padded timestamps the order of the
    stored texts is the order of the times. *)
Lemma padded_rows_in_time rows :
  (forall s t, Timestamps.strptime_padded s = Some t -> strptime s = Some t) ->
  Forall (reads Timestamps.strptime_padded) rows ->
  Sorted newer_first rows ->
  Sorted (fun a b => (default 0 (stored_time strptime b.2)
                      <= default 0 (stored_time strptime a.2))%Z) rows.
Proof.
  intros Hparser Hpadded Hsorted.
  induction Hsorted as [|a l Hl IH Hhd]; [constructor|].
  inversion Hpadded as [|? ? Ha Hrest]; subst.
  constructor; [apply IH; exact Hrest|].
  destruct Hhd as [|b l Hab]; constructor.
  inversion Hrest as [|? ? Hb _]; subst.
  rewrite (proj1 (padded_reads a Hparser Ha)), (proj1 (padded_reads b Hparser Hb)).
  destruct Ha as [ta Ha], Hb as [tb Hb].
  rewrite Ha, Hb. simpl.
  unfold newer_first, sql_leb, sql_compare in Hab.
  unfold stored_time in Ha, Hb.
  destruct a.2 as [| |sa|]; try discriminate.
  destruct b.2 as [| |sb|]; try discriminate.
  apply (TimestampsFacts.strptime_padded_monotone sb sa tb ta Hb Ha).
  unfold String.leb. exact Hab.
Qed.

(** C3 (as amended) -- On fetched records whose timestamps are zero-padded
    texts ["YYYY-MM-DD HH:MM:SS"], which [strptime] reads as the calendar
    has them, the facade works on the records newest first in time (the
    order of the stored texts, in which the query returns them, is then the
    order of their times) and computes the durations of the data model:
    the most recent record is measured from its timestamp to [now], every
    other record from its timestamp to the timestamp of the record listed
    just before it (the next newer one), in minutes; the records are
    returned in that order, paired with their durations, those with a
    positive one (see C9). *)
Theorem recent_sessions_newest_first db limit f rows
  (Hrows : fetched_rows db limit = Some rows)
  (Hparser : forall s t, Timestamps.strptime_padded s = Some t -> strptime s = Some t)
  (Hpadded : Forall (reads Timestamps.strptime_padded) rows) :
  (get_recent_sessions strptime now db limit f).1
  = Return (view strptime now rows)
  /\ Sorted newer_first rows
  /\ Sorted (fun a b => (default 0 (stored_time strptime b.2)
                         <= default 0 (stored_time strptime a.2))%Z) rows
  /\ ((0 <= limit)%Z -> (Z.of_nat (length rows) <= limit)%Z).
Proof.
  assert (Hread : Forall (reads strptime) rows).
  { eapply Forall_impl; [exact Hpadded|]. intros r Hr.
    exact (proj2 (padded_reads r Hparser Hr)). }
  assert (Htext : Forall (fun r => text_stamped r = true) rows).
  { eapply Forall_impl; [exact Hread|]. intros r. apply reads_text_stamped. }
  destruct (fetched_rows_sorted db limit rows Hrows) as [Hsorted Hlen].
  split.
  { rewrite (get_recent_sessions_derived db limit f rows Hrows Htext).
    rewrite (derived_view rows Hread). reflexivity. }
  split; [exact Hsorted|].
  split; [|exact Hlen].
  apply padded_rows_in_time; assumption.
Qed.

End Loops.

Import Timestamps.

(** [recent_sessions_newest_first] on the records of 12:00, 12:05 and
    12:10 read at 12:22: the durations are [now - T2], [T2 - T1] and
    [T1 - T0], newest record first. *)
Lemma recent_sessions_newest_first_witness :
  (get_recent_sessions strptime_ascii at_12_22 three_records 3 blank).1
  = Return [(SqlText "terminal", SqlText "productive", minutes (at_12_22 - time_T2));
            (SqlText "browser", SqlText "distracted", minutes (time_T2 - time_T1));
            (SqlText "editor", SqlText "productive", minutes (time_T1 - time_T0))]
  /\ Sorted newer_first three_rows
  /\ Sorted (fun a b => (default 0 (stored_time strptime_ascii b.2)
                         <= default 0 (stored_time strptime_ascii a.2))%Z) three_rows
  /\ ((0 <= 3)%Z -> (Z.of_nat (length three_rows) <= 3)%Z).
Proof.
  assert (Hrows : fetched_rows three_records 3 = Some three_rows)
    by (vm_compute; reflexivity).
  assert (Hpadded : Forall (reads strptime_padded) three_rows)
    by (repeat constructor; vm_compute; eauto).
  exact (recent_sessions_newest_first strptime_ascii at_12_22
           three_records 3 blank three_rows Hrows
           TimestampsFacts.strptime_ascii_padded Hpadded).
Defined.

(** C3 (as stated) fails on stored records of two kinds.  A record written
    on 2 January as ["2024-1-2 12:00:00"] and a record written on 10 January
    as ["2024-01-10 12:00:00"] both read, but the query orders them as
    texts: the older record is listed first, and the newest one, measured
    against it, gets a negative duration and is left out.  And the three
    records of the example, stamped with microseconds as the sqlite3 adapter
    writes [datetime.now()], do not read in the facade's format: each comes
    back with the duration [0.0], not with [now - T2], [T2 - T1] and
    [T1 - T0]. *)
Lemma recent_sessions_out_of_order :
  (strptime_ascii "2024-1-2 12:00:00" = Some time_2_january
   /\ strptime_ascii "2024-01-10 12:00:00" = Some time_10_january
   /\ (time_2_january < time_10_january < at_10_january_12_22)%Z
   /\ (get_recent_sessions strptime_ascii at_10_january_12_22 unpadded 50 blank).1
      = Return [(SqlText "editor", SqlText "productive",
                 minutes (at_10_january_12_22 - time_2_january))])
  /\ (get_recent_sessions strptime_ascii at_12_22 with_microseconds 3 blank).1
     = Return [(SqlText "terminal", SqlText "productive", 0%Q);
               (SqlText "browser", SqlText "distracted", 0%Q);
               (SqlText "editor", SqlText "productive", 0%Q)].
Proof. repeat split; vm_compute; reflexivity. Qed.

(** C1 (as stated) fails: a query on [focus_log] that fails because the
    file is not a database is not a missing table, and yet the failure does
    not reach the caller: the facade prints it and returns the empty
    list. *)
Lemma damaged_database_not_propagated :
  query damaged "focus_log" 50 = Raise (Exn DatabaseError "file is not a database")
  /\ get_recent_sessions strptime_padded at_12_22 damaged 50 blank
     = (Return [],
        {| sessions := [];
           trace := [Connected; Executed "focus_log";
                     Printed "[GUI] Error fetching sessions: file is not a database"] |}).
Proof. split; vm_compute; reflexivity. Qed.

(** A record stamped like another one and a record stamped after the time
    of reading are left out; the records after them are still measured
    against them. *)
Lemma duplicate_and_future_dropped :
  get_recent_sessions strptime_padded at_12_22 with_duplicate 50 blank
  = (Return [(SqlText "browser", SqlText "distracted", minutes 1500000000);
             (SqlText "editor", SqlText "productive", minutes 300000000)],
     {| sessions := [(SqlText "browser", SqlText "distracted", minutes 1500000000);
                     (SqlText "editor", SqlText "productive", minutes 300000000)];
        trace := [Connected; Executed "focus_log"; Executed "focus_sessions"; Closed] |}).
Proof. vm_compute. reflexivity. Qed.

End FacadeFacts.

(** ** The classification lookup *)

Module BackendFacts.

Import Facade Backend Samples Timestamps.
Local Open Scope list_scope.

(** The values [check_app_category] can return. *)
Lemma check_app_category_range {S} app_name config (s : S) category :
  (check_app_category app_name config s).1 = Return category ->
  category = "productive" \/ category = "distracting" \/ category = "neutral".
Proof.
  unfold check_app_category, bind, subscript, ret, raise.
  destruct (config !! "productive_apps") as [p|]; simpl; [|discriminate].
  destruct (contains p app_name); simpl; [intros [= <-]; auto|].
  destruct (config !! "distracting_apps") as [d|]; simpl; [|discriminate].
  destruct (contains d app_name); simpl; intros [= <-]; auto.
Qed.

(** C8 fails on the code -- For an application listed under
    [distracting_apps] the lookup returns ["distracting"], which is not one
    of the three categories of a session record; a record logged with it is
    then counted by [get_session_stats] neither as productive nor as
    distracted. *)
Theorem check_app_category_distracting :
  check_app_category "youtube" sample_config tt = (Return "distracting", tt)
  /\ ~ In "distracting" record_categories
  /\ (exists db,
        log_session stamp_with_microseconds "youtube" "distracting"
          (init_db empty_database) tt = (Return db, tt)
        /\ (get_session_stats strptime_padded at_12_22 db blank).1
           = Return {| total_sessions := 1; total_time_minutes := (0 + 0)%Q;
                       productive_count := 0; distracted_count := 0 |}).
Proof.
  split; [vm_compute; reflexivity|].
  split.
  { unfold record_categories. simpl. intros [H|[H|[H|[]]]]; discriminate. }
  eexists. split; [vm_compute; reflexivity|]. vm_compute. reflexivity.
Qed.

End BackendFacts.

(** ** Runs of a log relay *)

Module RelayRunsFacts.

Import LogRelay RelayRuns Samples LogRelayFacts.
Local Open Scope list_scope.
Local Arguments String.append : simpl nomatch.

Lemma has_newline_cons c s :
  has_newline (String c s) = Ascii.eqb c LF || has_newline s.
Proof.
  unfold has_newline. simpl. destruct (Ascii.eqb c LF); [reflexivity|].
  destruct (split_newline s) as [[? ?]|]; reflexivity.
Qed.

Lemma has_newline_app a b :
  has_newline (a +:+ b) = has_newline a || has_newline b.
Proof.
  induction a as [|c a IH]; simpl; [reflexivity|].
  rewrite !has_newline_cons, IH, orb_assoc. reflexivity.
Qed.

Lemma rstrip_cr_no_newline l :
  has_newline l = false -> has_newline (rstrip_cr l) = false.
Proof.
  intros Hl. destruct (rstrip_cr_spec l) as (n & Heq & _).
  rewrite Heq, has_newline_app in Hl. apply orb_false_iff in Hl. tauto.
Qed.

Lemma queued_clean name ls :
  Forall (fun l => has_newline l = false) ls ->
  Forall (clean name) (queued name ls).
Proof.
  induction 1 as [|l ls Hl _ IH]; simpl; constructor; [|exact IH].
  split; [reflexivity|]. split; [apply rstrip_cr_no_newline; exact Hl|].
  destruct (rstrip_cr_spec l) as (n & _ & He). exact He.
Qed.

Lemma tail_item_clean name tail :
  has_newline tail = false -> Forall (clean name) (tail_item name tail).
Proof.
  intros Ht. unfold tail_item. destruct (String.eqb tail ""); constructor; [|constructor].
  split; [reflexivity|]. split; [apply rstrip_cr_no_newline; exact Ht|].
  destruct (rstrip_cr_spec tail) as (n & _ & He). exact He.
Qed.

Lemma flush_spec s :
  flush s =
    (Return tt,
     {| _queue := _queue s ++ tail_item (_stream_name s) (_buffer s);
        _original_stream := _original_stream s ++ [SinkFlush];
        _stream_name := _stream_name s;
        _buffer := "" |}).
Proof.
  destruct s as [q o n b]. unfold flush, bind, modify, get, ret, emit, put,
    set_buffer, tail_item. simpl.
  destruct (String.eqb b "") eqn:E; simpl.
  - apply String.eqb_eq in E. subst b. rewrite app_nil_r. reflexivity.
  - reflexivity.
Qed.

Lemma run_operation_clean o s :
  has_newline (_buffer s) = false ->
  (run_operation o s).1 = Return tt
  /\ has_newline (_buffer (run_operation o s).2) = false
  /\ _stream_name (run_operation o s).2 = _stream_name s
  /\ exists added,
       _queue (run_operation o s).2 = _queue s ++ added
       /\ Forall (clean (_stream_name s)) added.
Proof.
  intros Hb. destruct o as [message|]; simpl.
  - destruct (write_queue_buffer message s Hb) as (Hr & Hq & Hbuf & Hn).
    unfold bind. destruct (write message s) as [r s1]; simpl in *. subst r. simpl.
    split; [reflexivity|]. split; [rewrite Hbuf; apply split_lines_tail|].
    split; [exact Hn|].
    eexists. split; [exact Hq|]. apply queued_clean, split_lines_lines.
  - rewrite flush_spec. simpl. split; [reflexivity|]. split; [reflexivity|].
    split; [reflexivity|].
    eexists. split; [reflexivity|]. apply tail_item_clean. exact Hb.
Qed.

(** X1 -- Over any run of writes and flushes on a relay whose buffer holds
    no newline (as a new relay's does), every call returns, the buffer never
    comes to hold a newline, and every item the run puts on the shared queue
    carries the relay's name, holds no newline and does not end in a
    carriage return; items already on the queue stay in front. *)
Theorem operations_keep_relay_clean os : forall s
  (Hbuffer : has_newline (_buffer s) = false),
  (run_operations os s).1 = Return tt
  /\ has_newline (_buffer (run_operations os s).2) = false
  /\ _stream_name (run_operations os s).2 = _stream_name s
  /\ exists added,
       _queue (run_operations os s).2 = _queue s ++ added
       /\ Forall (clean (_stream_name s)) added.
Proof.
  induction os as [|o os IH]; intros s Hb; simpl.
  - split; [reflexivity|]. split; [exact Hb|]. split; [reflexivity|].
    exists []. rewrite app_nil_r. split; [reflexivity|constructor].
  - destruct (run_operation_clean o s Hb) as (Hr & Hb1 & Hn1 & added1 & Hq1 & Hc1).
    unfold bind. destruct (run_operation o s) as [r s1]; simpl in *. subst r.
    destruct (IH s1 Hb1) as (Hr' & Hb' & Hn' & added2 & Hq2 & Hc2).
    split; [exact Hr'|]. split; [exact Hb'|]. split; [congruence|].
    exists (added1 ++ added2). rewrite Hq2, Hq1, app_assoc. split; [reflexivity|].
    apply Forall_app. split; [exact Hc1|]. rewrite <- Hn1. exact Hc2.
Qed.

(** [operations_keep_relay_clean] on a new relay, for a run that mixes
    writes, an empty write and repeated flushes. *)
Lemma operations_keep_relay_clean_witness :
  (run_operations mixed_run (new_stream [("stderr", "warn")] "stdout")).1 = Return tt
  /\ has_newline (_buffer (run_operations mixed_run
                             (new_stream [("stderr", "warn")] "stdout")).2) = false
  /\ _stream_name (run_operations mixed_run
                     (new_stream [("stderr", "warn")] "stdout")).2 = "stdout"
  /\ exists added,
       _queue (run_operations mixed_run (new_stream [("stderr", "warn")] "stdout")).2
       = [("stderr", "warn")] ++ added
       /\ Forall (clean "stdout") added.
Proof.
  apply (operations_keep_relay_clean mixed_run
           (new_stream [("stderr", "warn")] "stdout")).
  reflexivity.
Defined.

(** X2 -- How a text is cut into [write] calls does not matter to the
    consumer: two sequences of writes that hand over the same text leave
    the same queue and the same buffer. *)
Theorem write_all_chunking s ms1 ms2
  (Hbuffer : has_newline (_buffer s) = false)
  (Htext : written ms1 = written ms2) :
  _queue (write_all ms1 s).2 = _queue (write_all ms2 s).2
  /\ _buffer (write_all ms1 s).2 = _buffer (write_all ms2 s).2.
Proof.
  destruct (write_all_in_order ms1 s Hbuffer) as (_ & Hq1 & Hb1 & _).
  destruct (write_all_in_order ms2 s Hbuffer) as (_ & Hq2 & Hb2 & _).
  rewrite Hq1, Hq2, Hb1, Hb2, Htext. split; reflexivity.
Qed.

Lemma write_all_chunking_witness :
  _queue (write_all pieces (new_stream [] "stdout")).2
  = _queue (write_all in_one_piece (new_stream [] "stdout")).2
  /\ _buffer (write_all pieces (new_stream [] "stdout")).2
     = _buffer (write_all in_one_piece (new_stream [] "stdout")).2.
Proof.
  apply (write_all_chunking (new_stream [] "stdout") pieces in_one_piece);
    reflexivity.
Defined.

Lemma console_text_app a b :
  console_text (a ++ b) = console_text a +:+ console_text b.
Proof.
  induction a as [|[m|] a IH]; simpl; [reflexivity| |exact IH].
  rewrite IH, append_assoc. reflexivity.
Qed.

Lemma console_flushes_app a b :
  console_flushes (a ++ b) = (console_flushes a + console_flushes b)%nat.
Proof.
  induction a as [|[m|] a IH]; simpl; [reflexivity|exact IH|].
  rewrite IH. reflexivity.
Qed.

Lemma write_console message s :
  (write message s).1 = Return (String.length message)
  /\ console_text (_original_stream (write message s).2)
     = console_text (_original_stream s) +:+ message
  /\ console_flushes (_original_stream (write message s).2)
     = (console_flushes (_original_stream s)
        + (if nonempty message then 1 else 0))%nat.
Proof.
  unfold nonempty. destruct (String.eqb message "") eqn:E.
  - apply String.eqb_eq in E. subst message. rewrite write_empty. simpl.
    rewrite append_empty_r, Nat.add_0_r. auto.
  - assert (Hne : message <> "") by (intros ->; discriminate).
    rewrite (write_nonempty _ _ Hne). simpl.
    rewrite console_text_app, console_flushes_app. simpl.
    rewrite append_empty_r. auto.
Qed.

(** X3 -- The console is preserved: whatever the relay's state, after a
    sequence of writes the original stream has received the written texts
    end to end, unchanged, after what it had received before, and it has
    been flushed once for each non-empty write. *)
Theorem console_receives_text messages : forall s,
  (write_all messages s).1 = Return tt
  /\ console_text (_original_stream (write_all messages s).2)
     = console_text (_original_stream s) +:+ written messages
  /\ console_flushes (_original_stream (write_all messages s).2)
     = (console_flushes (_original_stream s)
        + length (filter (fun m => nonempty m = true) messages))%nat.
Proof.
  induction messages as [|m ms IH]; intros s; simpl.
  - rewrite append_empty_r, Nat.add_0_r. auto.
  - destruct (write_console m s) as (Hr & Ht & Hf).
    unfold bind. destruct (write m s) as [r s1]; simpl in *. subst r.
    destruct (IH s1) as (Hr' & Ht' & Hf').
    rewrite Hr', Ht', Hf', Ht, Hf, append_assoc.
    split; [reflexivity|]. split; [reflexivity|].
    rewrite filter_cons. destruct (nonempty m); simpl.
    + destruct (decide (true = true)); [simpl; lia|congruence].
    + destruct (decide (false = true)); [congruence|simpl; lia].
Qed.

Lemma written_app a b : written (a ++ b) = written a +:+ written b.
Proof.
  induction a as [|m a IH]; simpl; [reflexivity|].
  rewrite IH, append_assoc. reflexivity.
Qed.

Lemma split_lines_terminated tail :
  has_newline tail = false ->
  split_lines (tail +:+ String LF "") = ([tail], "").
Proof.
  induction tail as [|c tail IH]; intros Hnl; [reflexivity|].
  rewrite has_newline_cons in Hnl. apply orb_false_iff in Hnl.
  destruct Hnl as [Hc Hnl]. simpl. rewrite Hc, (IH Hnl). reflexivity.
Qed.

(** X4 -- A [flush] after a sequence of writes leaves nothing behind: the
    buffer is empty, and the queue holds, after what it held, the complete
    lines of the buffered and written text followed by its unterminated
    tail as one more line (none when the tail is empty), trailing carriage
    returns removed.  When there is a tail, this is the queue that writing
    a final newline would have given. *)
Theorem flush_after_writes s messages
  (Hbuffer : has_newline (_buffer s) = false) :
  (write_all_then_flush messages s).1 = Return tt
  /\ _buffer (write_all_then_flush messages s).2 = ""
  /\ _queue (write_all_then_flush messages s).2
     = _queue s
       ++ queued (_stream_name s) (split_lines (_buffer s +:+ written messages)).1
       ++ tail_item (_stream_name s) (split_lines (_buffer s +:+ written messages)).2
  /\ ((split_lines (_buffer s +:+ written messages)).2 <> "" ->
      _queue (write_all_then_flush messages s).2
      = _queue (write_all (messages ++ [String LF ""]) s).2).
Proof.
  destruct (write_all_in_order messages s Hbuffer) as (Hr & Hq & Hb & Hn).
  assert (Hflush :
    (write_all_then_flush messages s).1 = Return tt
    /\ _buffer (write_all_then_flush messages s).2 = ""
    /\ _queue (write_all_then_flush messages s).2
       = _queue s
         ++ queued (_stream_name s) (split_lines (_buffer s +:+ written messages)).1
         ++ tail_item (_stream_name s) (split_lines (_buffer s +:+ written messages)).2).
  { unfold write_all_then_flush, bind.
    destruct (write_all messages s) as [r s1]; simpl in *. subst r.
    rewrite flush_spec. simpl. rewrite Hq, Hb, Hn, app_assoc. auto. }
  destruct Hflush as (H1 & H2 & H3).
  split; [exact H1|]. split; [exact H2|]. split; [exact H3|].
  intros Htail. rewrite H3.
  destruct (write_all_in_order (messages ++ [String LF ""]) s Hbuffer)
    as (_ & Hq' & _ & _).
  rewrite Hq'. f_equal.
  assert (Hw : written (messages ++ [String LF ""])
               = written messages +:+ String LF "")
    by (rewrite written_app; reflexivity).
  set (text := _buffer s +:+ written messages) in *.
  assert (Hcut : split_lines (text +:+ String LF "")
                 = ((split_lines text).1 ++ [(split_lines text).2], "")).
  { rewrite (split_lines_app text (String LF "")).
    rewrite (split_lines_terminated _ (split_lines_tail text)). reflexivity. }
  rewrite Hw, <- append_assoc. fold text. rewrite Hcut. simpl.
  unfold queued, tail_item. rewrite map_app. simpl.
  destruct (String.eqb (split_lines text).2 "") eqn:E; [|reflexivity].
  apply String.eqb_eq in E. contradiction.
Qed.

Lemma flush_after_writes_witness :
  (write_all_then_flush pieces (new_stream [] "stdout")).1 = Return tt
  /\ _buffer (write_all_then_flush pieces (new_stream [] "stdout")).2 = ""
  /\ _queue (write_all_then_flush pieces (new_stream [] "stdout")).2
     = [("stdout", "first line"); ("stdout", "second line"); ("stdout", "tail")]
  /\ _queue (write_all_then_flush pieces (new_stream [] "stdout")).2
     = _queue (write_all (pieces ++ [String LF ""]) (new_stream [] "stdout")).2.
Proof.
  pose proof (flush_after_writes (new_stream [] "stdout") pieces eq_refl)
    as (H1 & H2 & H3 & H4).
  split; [exact H1|]. split; [exact H2|]. split; [exact H3|].
  apply H4. discriminate.
Defined.

End RelayRunsFacts.

(** ** More on the task lifecycle controller *)

Module ControllerTraceFacts.

Import Controller ControllerTrace Samples ControllerFacts.
Local Open Scope list_scope.



Lemma stop_focus_leaves_idle env w :
  is_running (self (stop_focus env w).2) = false.
Proof.
  destruct (is_running (self w)) eqn:Hr.
  - apply (stop_focus_goes_idle env w Hr).
  - rewrite (stop_focus_idle env w Hr). exact Hr.
Qed.

(** X7 -- After a [stop_focus], whatever it did and returned, a second
    [stop_focus] returns [False] and does nothing: no cleanup call is
    repeated and no field changes. *)
Theorem stop_focus_twice env env' w :
  stop_focus env' (stop_focus env w).2 = (Return false, (stop_focus env w).2).
Proof.
  apply stop_focus_idle. apply stop_focus_leaves_idle.
Qed.

(** X8 -- The controller can always be started again: after a
    [stop_focus], whatever it did and returned (also when its body raised),
    a [start_focus] whose thread starts returns [True] and leaves the
    controller running, with status ["Focus Active"], the stop event
    cleared and an empty log queue. *)
Theorem start_after_stop env env' w
  (Hthread : thread_start env' = None) :
  (start_focus env' (stop_focus env w).2).1 = Return true
  /\ is_running (self (start_focus env' (stop_focus env w).2).2) = true
  /\ get_status (self (start_focus env' (stop_focus env w).2).2) = "Focus Active"
  /\ stop_event (self (start_focus env' (stop_focus env w).2).2) = false
  /\ log_queue (self (start_focus env' (stop_focus env w).2).2) = [].
Proof.
  rewrite (start_focus_idle env' _ (stop_focus_leaves_idle env w)), Hthread.
  repeat split; reflexivity.
Qed.

(** [start_after_stop] after a [stop_focus] whose join raised. *)
Lemma start_after_stop_witness :
  (start_focus calm (stop_focus join_fails running).2).1 = Return true
  /\ is_running (self (start_focus calm (stop_focus join_fails running).2).2) = true
  /\ get_status (self (start_focus calm (stop_focus join_fails running).2).2)
     = "Focus Active"
  /\ stop_event (self (start_focus calm (stop_focus join_fails running).2).2) = false
  /\ log_queue (self (start_focus calm (stop_focus join_fails running).2).2) = [].
Proof.
  apply (start_after_stop join_fails calm running). reflexivity.
Defined.

Lemma count_calls_app ev a b :
  count_calls ev (a ++ b) = (count_calls ev a + count_calls ev b)%nat.
Proof. unfold count_calls. rewrite filter_app, length_app. reflexivity. Qed.

Lemma count_calls_cons ev x l :
  count_calls ev (x :: l) = (flag (event_eqb ev x) + count_calls ev l)%nat.
Proof.
  unfold count_calls. rewrite filter_cons.
  destruct (event_eqb ev x); simpl.
  - destruct (decide (true = true)); [reflexivity|congruence].
  - destruct (decide (false = true)); [congruence|reflexivity].
Qed.

Lemma count_calls_nil ev : count_calls ev [] = 0%nat.
Proof. reflexivity. Qed.

Lemma stop_focus_counts env w :
  is_running (self w) = true ->
  exists new,
    calls (stop_focus env w).2 = calls w ++ new
    /\ count_calls Call_unblock_websites new = 1%nat
    /\ count_calls Call_thread_start new = 0%nat
    /\ (daemon_thread (self w) <> None ->
        daemon_thread (self (stop_focus env w).2) <> None).
Proof.
  intros Hrun.
  open_world w; open_env env; simpl in Hrun; subst;
    run_stop; repeat rewrite <- app_assoc; simpl;
    eexists; (split; [reflexivity|]); (split; [reflexivity|]);
    (split; [reflexivity|]); congruence.
Qed.

Lemma step_bookkept w w' : bookkept w -> step w w' -> bookkept w'.
Proof.
  unfold bookkept. intros (Hinv & Hcount) Hstep.
  destruct Hstep as [env w|env w|loop task w|lines w|w|w].
  - destruct (is_running (self w)) eqn:Hr.
    + rewrite (start_focus_running _ _ Hr). simpl. rewrite Hr. split; assumption.
    + rewrite (start_focus_idle _ _ Hr). simpl in Hcount.
      destruct (thread_start env) as [e|]; simpl.
      * split; [discriminate|].
        rewrite !count_calls_app, !count_calls_cons, !count_calls_nil. simpl. lia.
      * split; [intros _; split; [reflexivity|discriminate]|].
        rewrite !count_calls_app, !count_calls_cons, !count_calls_nil. simpl. lia.
  - destruct (is_running (self w)) eqn:Hr.
    + destruct (stop_focus_counts env w Hr) as (new & Hcalls & Hub & Hts & _).
      rewrite (stop_focus_leaves_idle env w), Hcalls.
      split; [discriminate|].
      rewrite !count_calls_app, Hub, Hts. simpl in *. lia.
    + rewrite (stop_focus_idle _ _ Hr). simpl. rewrite Hr. split; assumption.
  - split; [exact Hinv|exact Hcount].
  - split; [exact Hinv|exact Hcount].
  - split; [|exact Hcount]. intros Hr. destruct (Hinv Hr) as [Hse Hth].
    split; [exact Hse|]. simpl. destruct (daemon_thread (self w)); congruence.
  - split; [exact Hinv|exact Hcount].
Qed.

(** X9 -- In every state the controller can reach: while it is running
    the stop event is clear and a thread handle is held; and the cleanup
    has never run more often than threads were started -- the number of
    [unblock_websites] calls, plus one when the controller is running, is at
    most the number of [Thread.start] calls. *)
Theorem reachable_bookkept w (Hreach : reachable w) :
  (is_running (self w) = true ->
   stop_event (self w) = false /\ daemon_thread (self w) <> None)
  /\ (count_calls Call_unblock_websites (calls w) + flag (is_running (self w))
      <= count_calls Call_thread_start (calls w))%nat.
Proof.
  induction Hreach as [|w w' _ IH Hstep].
  - split; [discriminate|]. simpl. rewrite !count_calls_nil. simpl. lia.
  - exact (step_bookkept w w' IH Hstep).
Qed.

(** [reachable_bookkept] on the running controller. *)
Lemma reachable_bookkept_witness :
  (is_running (self running) = true ->
   stop_event (self running) = false /\ daemon_thread (self running) <> None)
  /\ (count_calls Call_unblock_websites (calls running) + flag (is_running (self running))
      <= count_calls Call_thread_start (calls running))%nat.
Proof.
  exact (reachable_bookkept running running_reachable).
Defined.

End ControllerTraceFacts.

(** ** The window and the tray icon *)

Module GuiFacts.

Import Controller ControllerTrace Gui Samples ControllerFacts.
Local Open Scope list_scope.

Lemma update_status_spec win :
  (update_status win).1 = Return tt
  /\ controller (update_status win).2 = controller win
  /\ status_value (update_status win).2 = get_status (self (controller win))
  /\ start_button (update_status win).2
     = negb (String.eqb (get_status (self (controller win))) "Focus Active")
  /\ stop_button (update_status win).2
     = String.eqb (get_status (self (controller win))) "Focus Active"
  /\ tray_icon (update_status win).2
     = option_map (tray_update_status (get_status (self (controller win))))
         (tray_icon win)
  /\ log_output (update_status win).2 = log_output win
  /\ message_boxes (update_status win).2 = message_boxes win
  /\ hidden (update_status win).2 = hidden win.
Proof.
  destruct win as [w t sv ss sb pb lo sc mb h].
  unfold update_status, bind, get, modify, ret. simpl.
  destruct (String.eqb (get_status (self w)) "Focus Active"); destruct t; simpl;
    repeat split; reflexivity.
Qed.

(** X10 -- Over a controller in a state it can reach, [update_status]
    brings the window in step with the controller and changes nothing in
    it: the label shows the status, the start button (and the tray's start
    action) is enabled exactly when the controller is idle, the stop button
    (and the tray's stop action) exactly when it is running, and the tray's
    tool tip names the status. *)
Theorem update_status_in_step win
  (Hreach : reachable (controller win)) :
  (update_status win).1 = Return tt
  /\ controller (update_status win).2 = controller win
  /\ status_value (update_status win).2 = get_status (self (controller win))
  /\ in_step (update_status win).2
  /\ (forall t, tray_icon win = Some t ->
      exists t',
        tray_icon (update_status win).2 = Some t'
        /\ start_action t' = negb (is_running (self (controller win)))
        /\ stop_action t' = is_running (self (controller win))
        /\ tool_tip t' = "Auto Focus Mode - " +:+ get_status (self (controller win))
        /\ is_visible t' = is_visible t).
Proof.
  destruct (update_status_spec win) as (Hr & Hc & Hv & Hsb & Hpb & Ht & _).
  assert (Heqb : String.eqb (get_status (self (controller win))) "Focus Active"
                 = is_running (self (controller win))).
  { unfold get_status.
    destruct (reachable_consistent _ Hreach) as [[Hrun Hs]|[Hrun Hs]];
      rewrite Hrun, Hs; reflexivity. }
  split; [exact Hr|]. split; [exact Hc|]. split; [exact Hv|].
  split.
  { unfold in_step. rewrite Hsb, Hpb, Hc, Heqb. split; reflexivity. }
  intros t Htray. rewrite Ht, Htray. simpl. eexists. split; [reflexivity|].
  unfold tray_update_status. rewrite Heqb.
  destruct (is_running (self (controller win))); simpl; repeat split; reflexivity.
Qed.

(** [update_status_in_step] on the window over the running controller. *)
Lemma update_status_in_step_witness :
  (update_status window_in_tray).1 = Return tt
  /\ controller (update_status window_in_tray).2 = controller window_in_tray
  /\ status_value (update_status window_in_tray).2
     = get_status (self (controller window_in_tray))
  /\ in_step (update_status window_in_tray).2
  /\ (forall t, tray_icon window_in_tray = Some t ->
      exists t',
        tray_icon (update_status window_in_tray).2 = Some t'
        /\ start_action t' = negb (is_running (self (controller window_in_tray)))
        /\ stop_action t' = is_running (self (controller window_in_tray))
        /\ tool_tip t'
           = "Auto Focus Mode - " +:+ get_status (self (controller window_in_tray))
        /\ is_visible t' = is_visible t).
Proof.
  apply (update_status_in_step window_in_tray). exact running_reachable.
Defined.

Lemma drain_loop_spec q : forall fuel updated r th dl dt se st tr t sv ss sb pb lo sc mb h,
  (length q < fuel)%nat ->
  drain_loop fuel updated
    (window_with r th dl dt se st q tr t sv ss sb pb lo sc mb h)
  = (Return (updated || negb (Nat.eqb (length q) 0)),
     window_with r th dl dt se st [] tr t sv ss sb pb
       (lo ++ map (fun item => display_line item.1 item.2) q) sc mb h).
Proof.
  induction q as [|[name line] q IH];
    intros fuel updated r th dl dt se st tr t sv ss sb pb lo sc mb h Hfuel;
    (destruct fuel as [|fuel]; [simpl in Hfuel; lia|]).
  - simpl. rewrite app_nil_r, orb_false_r. reflexivity.
  - simpl in Hfuel. simpl drain_loop.
    unfold bind at 1. unfold try_except, bind at 1, on_controller. simpl.
    unfold bind at 1, modify at 1. simpl.
    change (drain_loop fuel true
              (window_with r th dl dt se st q tr t sv ss sb pb
                 (lo ++ [display_line name line]) sc mb h)
            = (Return (updated || true),
               window_with r th dl dt se st [] tr t sv ss sb pb
                 (lo ++ display_line name line
                     :: map (fun item => display_line item.1 item.2) q) sc mb h)).
    rewrite (IH fuel) by lia. rewrite orb_true_r. simpl.
    rewrite <- app_assoc. reflexivity.
Qed.

(** X11 -- [drain_log_queue] takes every item off the controller's queue
    and hands one text per item to the output widget, in queue order: the
    line itself, or ["[STDERR] "] followed by the line when the item comes
    from stderr and is not empty.  It ends with the queue empty, changes
    nothing else in the controller, and scrolls to the end exactly when it
    displayed something. *)
Theorem drain_log_queue_displays_all win :
  (drain_log_queue win).1 = Return tt
  /\ controller (drain_log_queue win).2
     = with_self (set_log_queue []) (controller win)
  /\ log_output (drain_log_queue win).2
     = log_output win
       ++ map (fun item => display_line item.1 item.2)
            (log_queue (self (controller win)))
  /\ scrolled_to_end (drain_log_queue win).2
     = (scrolled_to_end win
        + flag (negb (Nat.eqb (length (log_queue (self (controller win)))) 0)))%nat
  /\ start_button (drain_log_queue win).2 = start_button win
  /\ stop_button (drain_log_queue win).2 = stop_button win
  /\ message_boxes (drain_log_queue win).2 = message_boxes win.
Proof.
  destruct win as [[[r th dl dt se st q] tr] t sv ss sb pb lo sc mb h].
  assert (Heq :
    drain_log_queue (window_with r th dl dt se st q tr t sv ss sb pb lo sc mb h)
    = (Return tt,
       window_with r th dl dt se st [] tr t sv ss sb pb
         (lo ++ map (fun item => display_line item.1 item.2) q)
         (sc + flag (negb (Nat.eqb (length q) 0))) mb h)).
  { unfold drain_log_queue. unfold bind at 1. unfold get. cbv beta iota.
    unfold bind at 1.
    change (log_queue (self (controller
              (window_with r th dl dt se st q tr t sv ss sb pb lo sc mb h))))
      with q.
    rewrite (drain_loop_spec q (S (length q)) false) by lia.
    destruct q as [|item q]; simpl; unfold ret, modify, window_with, scroll_to_end;
      simpl; repeat f_equal; lia. }
  unfold window_with, mk_world in Heq. rewrite Heq. simpl.
  repeat split; reflexivity.
Qed.

Lemma stop_focus_result env w :
  is_running (self w) = true ->
  (stop_focus env w).1
  = Return (negb (thread_is_alive (daemon_thread (self w)) && raises (thread_join env))).
Proof.
  intros Hrun. open_world w; open_env env; simpl in Hrun; subst; run_stop; reflexivity.
Qed.

Lemma closeEvent_spec env answer_yes win :
  closeEvent env answer_yes win =
    if tray_is_visible win then
      (Return false,
       hide (show_box (Information "Auto Focus Mode"
         ("The application will continue to run in the system tray. "
          +:+ "To quit, choose 'Exit' from the tray icon menu.")) win))
    else if is_running (self (controller win)) then
      if answer_yes then
        (match (stop_focus env (controller win)).1 with
         | Return _ => Return true
         | Raise e => Raise e
         end,
         set_controller (stop_focus env (controller win)).2
           (show_box (Question "Confirm Exit"
              "Focus mode is currently active. Do you want to stop it and exit?") win))
      else
        (Return false,
         show_box (Question "Confirm Exit"
           "Focus mode is currently active. Do you want to stop it and exit?") win)
    else (Return true, win).
Proof.
  unfold closeEvent, bind, get, modify, ret, on_controller.
  destruct (tray_is_visible win); [reflexivity|].
  destruct (is_running (self (controller win))); [|reflexivity].
  destruct answer_yes; [|reflexivity]. simpl.
  destruct (stop_focus env (controller win)) as [[b|e] w']; reflexivity.
Qed.

(** X12 -- [closeEvent] always returns, and it accepts the close only with
    the controller idle: when it accepts, the controller is not running
    afterwards (it has been stopped if it was running and the user said
    yes); when it ignores the close -- the tray icon is visible, or the user
    said no -- the controller is as it was.  With a visible tray icon the
    window is only hidden. *)
Theorem closeEvent_accepts_only_idle env answer_yes win :
  (exists accepted,
     (closeEvent env answer_yes win).1 = Return accepted
     /\ (accepted = true ->
         is_running (self (controller (closeEvent env answer_yes win).2)) = false)
     /\ (accepted = false ->
         controller (closeEvent env answer_yes win).2 = controller win))
  /\ (tray_is_visible win = true ->
      (closeEvent env answer_yes win).1 = Return false
      /\ hidden (closeEvent env answer_yes win).2 = true)
  /\ (tray_is_visible win = false ->
      is_running (self (controller win)) = true ->
      (closeEvent env answer_yes win).1 = Return answer_yes).
Proof.
  rewrite closeEvent_spec.
  destruct (tray_is_visible win) eqn:Hv.
  { split; [|split; [|discriminate]].
    - exists false. split; [reflexivity|]. split; [discriminate|]. reflexivity.
    - intros _. split; reflexivity. }
  destruct (is_running (self (controller win))) eqn:Hrun.
  - destruct answer_yes.
    + destruct (stop_focus_returns env (controller win)) as [b Hb].
      destruct (stop_focus_goes_idle env (controller win) Hrun) as [Hidle _].
      destruct (stop_focus env (controller win)) as [o w'] eqn:Hstop.
      simpl in Hb, Hidle. subst o. simpl.
      split; [|split; [discriminate|reflexivity]].
      exists true. split; [reflexivity|]. split; [intros _; exact Hidle|discriminate].
    + simpl. split; [|split; [discriminate|reflexivity]].
      exists false. split; [reflexivity|]. split; [discriminate|reflexivity].
  - simpl. split; [|split; [discriminate|discriminate]].
    exists true. split; [reflexivity|]. split; [intros _; exact Hrun|discriminate].
Qed.

Lemma on_exit_spec env app :
  on_exit env app =
    match parent_window app with
    | Some win =>
        if is_running (self (controller win)) then
          (match (stop_focus env (controller win)).1 with
           | Return _ => Return tt
           | Raise e => Raise e
           end,
           match (stop_focus env (controller win)).1 with
           | Return _ =>
               {| parent_window :=
                    Some (set_controller (stop_focus env (controller win)).2 win);
                  quit_called := true |}
           | Raise _ =>
               {| parent_window :=
                    Some (set_controller (stop_focus env (controller win)).2 win);
                  quit_called := quit_called app |}
           end)
        else (Return tt, {| parent_window := Some win; quit_called := true |})
    | None => (Return tt, app)
    end.
Proof.
  unfold on_exit, bind, get, modify, ret, on_parent, on_controller.
  destruct app as [[win|] qc]; simpl; [|reflexivity].
  destruct (is_running (self (controller win))); [|reflexivity]. simpl.
  destruct (stop_focus env (controller win)) as [[b|e] w']; reflexivity.
Qed.

(** X13 -- The tray's Exit: with a parent window, [on_exit] stops the
    controller when it is running, then calls [QApplication.quit]; the
    controller is idle afterwards and, if it was idle already, untouched.
    Without a parent window [on_exit] does nothing at all, not even
    quit. *)
Theorem on_exit_stops_then_quits env app :
  (on_exit env app).1 = Return tt
  /\ (forall win,
        parent_window app = Some win ->
        quit_called (on_exit env app).2 = true
        /\ exists win',
             parent_window (on_exit env app).2 = Some win'
             /\ is_running (self (controller win')) = false
             /\ (is_running (self (controller win)) = false -> win' = win))
  /\ (parent_window app = None -> (on_exit env app).2 = app).
Proof.
  rewrite on_exit_spec. destruct app as [[win|] qc]; simpl.
  - destruct (is_running (self (controller win))) eqn:Hrun.
    + destruct (stop_focus_returns env (controller win)) as [b Hb].
      destruct (stop_focus_goes_idle env (controller win) Hrun) as [Hidle _].
      destruct (stop_focus env (controller win)) as [o w'] eqn:Hstop.
      simpl in Hb, Hidle. subst o. simpl.
      split; [reflexivity|]. split; [|discriminate].
      intros win0 [= <-]. split; [reflexivity|].
      eexists. split; [reflexivity|]. split; [exact Hidle|]. rewrite Hrun. discriminate.
    + split; [reflexivity|]. split; [|discriminate].
      intros win0 [= <-]. split; [reflexivity|].
      exists win. split; [reflexivity|]. split; [exact Hrun|reflexivity].
  - split; [reflexivity|]. split; [discriminate|reflexivity].
Qed.

Lemma in_step_set_controller_box b w win :
  is_running (self w) = is_running (self (controller win)) ->
  in_step win -> in_step (show_box b (set_controller w win)).
Proof. unfold in_step. simpl. intros ->. tauto. Qed.

Lemma clicked_then_updated b w win status running_now :
  current_status (self w) = status ->
  String.eqb status "Focus Active" = running_now ->
  is_running (self w) = running_now ->
  in_step (update_status (show_box b (set_controller w win))).2.
Proof.
  intros Hs He Hr.
  destruct (update_status_spec (show_box b (set_controller w win)))
    as (_ & Hc & _ & Hsb & Hpb & _).
  unfold in_step. rewrite Hsb, Hpb, Hc. simpl. unfold get_status.
  rewrite Hs, He, Hr. split; reflexivity.
Qed.

Lemma on_start_clicked_spec env win :
  on_start_clicked env win =
    match start_focus env (controller win) with
    | (Return true, w) =>
        update_status
          (show_box (Information "Success" "Focus mode started successfully!")
             (set_controller w win))
    | (Return false, w) =>
        (Return tt,
         show_box (Warning "Error"
                     "Failed to start focus mode. It may already be running.")
           (set_controller w win))
    | (Raise e, w) => (Raise e, set_controller w win)
    end.
Proof.
  unfold on_start_clicked, bind, on_controller, modify.
  destruct (start_focus env (controller win)) as [[[|]|e] w]; reflexivity.
Qed.

Lemma on_stop_clicked_spec env win :
  on_stop_clicked env win =
    match stop_focus env (controller win) with
    | (Return true, w) =>
        update_status
          (show_box (Information "Success" "Focus mode stopped successfully!")
             (set_controller w win))
    | (Return false, w) =>
        (Return tt,
         show_box (Warning "Error" "Failed to stop focus mode.")
           (set_controller w win))
    | (Raise e, w) => (Raise e, set_controller w win)
    end.
Proof.
  unfold on_stop_clicked, bind, on_controller, modify.
  destruct (stop_focus env (controller win)) as [[[|]|e] w]; reflexivity.
Qed.

(** X14 -- The button handlers and the buttons.  From a window whose
    buttons are in step with the controller, [on_start_clicked] always
    leaves them in step, and so does [on_stop_clicked] unless the thread was
    alive and its join raised: then the controller has gone idle while the
    window, which is updated only after a success, still offers Stop and
    not Start. *)
Theorem clicks_and_buttons env win
  (Hstep : in_step win) :
  in_step (on_start_clicked env win).2
  /\ (is_running (self (controller win))
      && thread_is_alive (daemon_thread (self (controller win)))
      && raises (thread_join env) = false ->
      in_step (on_stop_clicked env win).2)
  /\ (is_running (self (controller win))
      && thread_is_alive (daemon_thread (self (controller win)))
      && raises (thread_join env) = true ->
      is_running (self (controller (on_stop_clicked env win).2)) = false
      /\ stop_button (on_stop_clicked env win).2 = true
      /\ start_button (on_stop_clicked env win).2 = false).
Proof.
  split; [|split].
  - rewrite on_start_clicked_spec.
    destruct (is_running (self (controller win))) eqn:Hrun.
    + rewrite (start_focus_running _ _ Hrun). simpl.
      apply in_step_set_controller_box; [reflexivity|exact Hstep].
    + rewrite (start_focus_idle _ _ Hrun).
      destruct (thread_start env) as [e|].
      * simpl. apply in_step_set_controller_box; [simpl; congruence|exact Hstep].
      * apply (clicked_then_updated _ _ _ "Focus Active" true); reflexivity.
  - intros Hok. rewrite on_stop_clicked_spec.
    destruct (is_running (self (controller win))) eqn:Hrun.
    + simpl in Hok. pose proof (stop_focus_result env _ Hrun) as Hres.
      rewrite Hok in Hres.
      destruct (stop_focus_goes_idle env _ Hrun) as [Hidle Hstatus].
      destruct (stop_focus env (controller win)) as [o w']. simpl in *. subst o.
      apply (clicked_then_updated _ _ _ "Idle" false);
        [exact Hstatus|reflexivity|exact Hidle].
    + rewrite (stop_focus_idle _ _ Hrun). simpl.
      apply in_step_set_controller_box; [reflexivity|exact Hstep].
  - intros Hbad. rewrite on_stop_clicked_spec.
    destruct (is_running (self (controller win))) eqn:Hrun; [|discriminate].
    simpl in Hbad. pose proof (stop_focus_result env _ Hrun) as Hres.
    rewrite Hbad in Hres.
    destruct (stop_focus_goes_idle env _ Hrun) as [Hidle _].
    destruct Hstep as [Hsb Hpb].
    destruct (stop_focus env (controller win)) as [o w']. simpl in *. subst o.
    simpl. rewrite Hsb, Hpb, Hrun. auto.
Qed.

(** [clicks_and_buttons] on the updated window over the running
    controller, when the join raises. *)
Lemma clicks_and_buttons_witness :
  in_step (on_start_clicked join_fails window_updated).2
  /\ (is_running (self (controller window_updated))
      && thread_is_alive (daemon_thread (self (controller window_updated)))
      && raises (thread_join join_fails) = false ->
      in_step (on_stop_clicked join_fails window_updated).2)
  /\ (is_running (self (controller window_updated))
      && thread_is_alive (daemon_thread (self (controller window_updated)))
      && raises (thread_join join_fails) = true ->
      is_running (self (controller (on_stop_clicked join_fails window_updated).2)) = false
      /\ stop_button (on_stop_clicked join_fails window_updated).2 = true
      /\ start_button (on_stop_clicked join_fails window_updated).2 = false).
Proof.
  apply (clicks_and_buttons join_fails window_updated). split; reflexivity.
Defined.

End GuiFacts.

(** ** More on the session query facade *)

Module FacadeReadingFacts.

Import Facade FacadeReading Samples FacadeFacts.
Local Open Scope list_scope.

Section Reading.

Variable strptime : string -> option Z.
Variable now : Z.

Ltac run_row :=
  unfold focus_log_row, focus_sessions_row, try_except, bind, parse_timestamp,
    as_datetime, minutes_between, index, keep_positive, modify, ret, raise,
    append, except_classes;
  simpl.

Ltac finish_small :=
  simpl;
  first [ exists []; split; [rewrite app_nil_r; reflexivity | simpl; lia]
        | eexists [_]; split; [reflexivity | simpl; lia] ].

Lemma focus_log_row_small rows i r f :
  round_small f (focus_log_row strptime now rows i r f).
Proof.
  destruct r as [[app mode] ts]. destruct f as [ss tr]. unfold round_small.
  destruct ts as [|z|s|b]; [| |destruct (strptime s) as [t|] eqn:Hs|];
    (destruct i as [|j];
     [| destruct (rows !! j) as [[[pa pm] [|pz|ps|pb]]|] eqn:Hj;
        [| |destruct (strptime ps) as [tp|] eqn:Hps| |] ]);
    run_row; rewrite ?Nat.sub_0_r, ?Hs, ?Hj; simpl; rewrite ?Hps; simpl;
    try (match goal with |- context [positive ?d] =>
           destruct (positive d) eqn:Hpos end);
    finish_small.
Qed.

Lemma focus_sessions_row_small rows i r f :
  round_small f (focus_sessions_row strptime now rows i r f).
Proof.
  destruct r as [[app mode] ts]. destruct f as [ss tr]. unfold round_small.
  destruct ts as [|z|s|b]; [| |destruct (strptime s) as [t|] eqn:Hs|];
    (destruct i as [|j];
     [| destruct (rows !! j) as [[[pa pm] [|pz|ps|pb]]|] eqn:Hj;
        [| |destruct (strptime ps) as [tp|] eqn:Hps| |] ]);
    run_row; rewrite ?Nat.sub_0_r, ?Hs, ?Hj; simpl; rewrite ?Hps; simpl;
    try (match goal with |- context [positive ?d] =>
           destruct (positive d) eqn:Hpos end);
    finish_small.
Qed.

Lemma for_enumerate_small (body : nat -> row -> M frame unit) :
  (forall i r f, round_small f (body i r f)) ->
  forall l i f,
    exists items,
      sessions (for_enumerate body i l f).2 = sessions f ++ items
      /\ (length items <= length l)%nat.
Proof.
  intros Hbody. induction l as [|r l IH]; intros i f; simpl.
  - exists []. rewrite app_nil_r. split; [reflexivity|simpl; lia].
  - unfold bind. destruct (Hbody i r f) as (items & Hs & Hlen).
    destruct (body i r f) as [[[]|e] f1]; simpl in *.
    + destruct (IH (S i) f1) as (items' & Hs' & Hlen').
      exists (items ++ items'). rewrite Hs', Hs, app_assoc, length_app.
      split; [reflexivity|lia].
    + exists items. split; [exact Hs|lia].
Qed.

Ltac loop_facts Hloop Hsmall g :=
  let Ht := fresh "Ht" in let items := fresh "items" in
  let Hs := fresh "Hs" in let Hok := fresh "Hok" in
  let items' := fresh "items'" in let Hs' := fresh "Hs'" in
  let Hlen := fresh "Hlen" in
  destruct Hloop as (Ht & items & Hs & Hok);
  destruct Hsmall as (items' & Hs' & Hlen);
  destruct g as [? ?]; unfold note, reset, failure_line in *; simpl in *; subst.

Ltac close_trace :=
  repeat rewrite <- app_assoc; simpl;
  eexists _, _; split; [reflexivity|].

Ltac is_closed :=
  left; split;
  [ simpl; tauto
  | let text := fresh "text" in let Hin := fresh "Hin" in
    intros [text Hin]; simpl in Hin;
    repeat (destruct Hin as [Hin|Hin]; [discriminate|]); contradiction ].

Ltac is_printed :=
  right; split;
  [ let Hin := fresh "Hin" in
    intros Hin; simpl in Hin;
    repeat (destruct Hin as [Hin|Hin]; [discriminate|]); contradiction
  | eexists; simpl; repeat (first [left; reflexivity | right]) ].

(** The outcome of every call: the list has at most as many items as the
    bound allows, and the connection is closed exactly when nothing was
    printed. *)
Lemma get_recent_sessions_outcome db limit f :
  exists l new,
    get_recent_sessions strptime now db limit f
    = (Return l, {| sessions := l; trace := trace f ++ new |})
    /\ ((0 <= limit)%Z -> (Z.of_nat (length l) <= limit)%Z)
    /\ ((In Closed new /\ ~ printed new) \/ (~ In Closed new /\ printed new)).
Proof.
  rewrite get_recent_sessions_unfold, fetch_unfold, from_focus_log_unfold.
  destruct (connect db) as [ec|] eqn:Hc.
  { unfold note, reset, failure_line; simpl. close_trace.
    split; [simpl; lia|]. is_printed. }
  destruct (query db "focus_log" limit) as [rows|e] eqn:Ha.
  - destruct (query_sorted _ _ _ _ Ha) as [_ Hrows].
    pose proof (for_enumerate_ok _
                  (fun i r g => proj1 (focus_log_row_ok strptime now rows i r g))
                  rows 0%nat
                  (note (Executed "focus_log") (note Connected (reset f)))) as Hloop.
    pose proof (for_enumerate_small _
                  (fun i r g => focus_log_row_small rows i r g) rows 0%nat
                  (note (Executed "focus_log") (note Connected (reset f)))) as Hsmall.
    pose proof (for_enumerate_raise _ (fun e => exn_cls e = TypeError)
                  (fun i r g => proj2 (focus_log_row_ok strptime now rows i r g))
                  rows 0%nat
                  (note (Executed "focus_log") (note Connected (reset f)))) as Hcls.
    destruct (for_enumerate (focus_log_row strptime now rows) 0 rows
                (note (Executed "focus_log") (note Connected (reset f))))
      as [[[]|e] g1].
    + loop_facts Hloop Hsmall g1. close_trace.
      split; [intros Hl; specialize (Hrows Hl); lia|]. is_closed.
    + assert (He : except_classes [OperationalError] e = false).
      { specialize (Hcls e eq_refl). unfold except_classes. simpl.
        rewrite Hcls. reflexivity. }
      rewrite He. loop_facts Hloop Hsmall g1. close_trace.
      split; [intros Hl; specialize (Hrows Hl); lia|]. is_printed.
  - destruct (except_classes [OperationalError] e) eqn:He.
    + rewrite from_focus_sessions_unfold.
      destruct (query db "focus_sessions" limit) as [rows|e'] eqn:Hb.
      * destruct (query_sorted _ _ _ _ Hb) as [_ Hrows].
        pose proof (for_enumerate_ok _
                      (fun i r g => focus_sessions_row_ok strptime now rows i r g)
                      rows 0%nat
                      (note (Executed "focus_sessions")
                         (note (Executed "focus_log") (note Connected (reset f)))))
          as Hloop.
        pose proof (for_enumerate_small _
                      (fun i r g => focus_sessions_row_small rows i r g) rows 0%nat
                      (note (Executed "focus_sessions")
                         (note (Executed "focus_log") (note Connected (reset f)))))
          as Hsmall.
        destruct (for_enumerate (focus_sessions_row strptime now rows) 0 rows
                    (note (Executed "focus_sessions")
                       (note (Executed "focus_log") (note Connected (reset f)))))
          as [[[]|e'] g1];
          loop_facts Hloop Hsmall g1; close_trace;
          (split; [intros Hl; specialize (Hrows Hl); lia|]);
          [is_closed|is_printed].
      * unfold note, reset, failure_line; simpl. close_trace.
        split; [simpl; lia|]. is_printed.
    + unfold note, reset, failure_line; simpl. close_trace.
      split; [simpl; lia|]. is_printed.
Qed.

(** X15 -- The facade returns at most [limit] items, whatever the database
    holds and whichever table answers: each fetched row adds at most one
    item. *)
Theorem get_recent_sessions_bounded db limit f
  (Hlimit : (0 <= limit)%Z) :
  exists l,
    (get_recent_sessions strptime now db limit f).1 = Return l
    /\ (Z.of_nat (length l) <= limit)%Z.
Proof.
  destruct (get_recent_sessions_outcome db limit f) as (l & new & Heq & Hlen & _).
  exists l. rewrite Heq. split; [reflexivity|exact (Hlen Hlimit)].
Qed.

(** X16 -- The connection is closed exactly when nothing failed: the trace
    of a call holds [conn.close()] or a printed failure, never both.  So
    after a failure that came once the connection was open -- a failing
    query, or a loop cut short -- the connection is left unclosed. *)
Theorem close_skipped_on_failure db limit f :
  exists new,
    trace (get_recent_sessions strptime now db limit f).2 = trace f ++ new
    /\ ((In Closed new /\ ~ printed new) \/ (~ In Closed new /\ printed new))
    /\ (connect db = None -> printed new -> ~ In Closed new).
Proof.
  destruct (get_recent_sessions_outcome db limit f) as (l & new & Heq & _ & Hx).
  exists new. rewrite Heq. split; [reflexivity|]. split; [exact Hx|].
  intros _ Hp. destruct Hx as [[_ Hnp]|[Hnc _]]; [contradiction|exact Hnc].
Qed.

Lemma sum_nonnegative l : forall a,
  (0 <= a)%Q -> Forall acceptable l ->
  (0 <= fold_left (fun acc (s : session) => Qplus acc s.2) l a)%Q.
Proof.
  induction l as [|s l IH]; intros a Ha Hl; simpl; [exact Ha|].
  inversion Hl as [|? ? Hs Hl']; subst. apply IH; [|exact Hl'].
  assert (Hd : (0 <= s.2)%Q).
  { destruct Hs as [Hs|Hs]; [apply Qlt_le_weak; exact Hs|rewrite Hs; apply Qle_refl]. }
  exact (Qplus_le_compat 0 a 0 s.2 Ha Hd).
Qed.

Lemma modes_apart (l : list session) :
  (length (filter (fun s => mode_is "productive" s = true) l)
   + length (filter (fun s => mode_is "distracted" s = true) l)
   <= length l)%nat.
Proof.
  induction l as [|s l IH]; [simpl; lia|].
  rewrite !filter_cons.
  assert (Hapart : mode_is "productive" s = true -> mode_is "distracted" s = true -> False).
  { unfold mode_is. destruct s.1.2 as [| |m|]; try discriminate.
    intros Hp Hd. apply String.eqb_eq in Hp. apply String.eqb_eq in Hd.
    subst m. discriminate. }
  destruct (decide (mode_is "productive" s = true)) as [Hp|Hp];
    destruct (decide (mode_is "distracted" s = true)) as [Hd|Hd]; simpl; try lia.
  exfalso. exact (Hapart Hp Hd).
Qed.

Lemma get_session_stats_unfold db f :
  get_session_stats strptime now db f =
    (match (get_recent_sessions strptime now db 1000 f).1 with
     | Return l =>
         Return {| total_sessions := length l;
                   total_time_minutes := fold_left (fun acc s => Qplus acc s.2) l 0%Q;
                   productive_count :=
                     length (filter (fun s => mode_is "productive" s = true) l);
                   distracted_count :=
                     length (filter (fun s => mode_is "distracted" s = true) l) |}
     | Raise e => Raise e
     end,
     (get_recent_sessions strptime now db 1000 f).2).
Proof.
  unfold get_session_stats, bind, ret.
  destruct (get_recent_sessions strptime now db 1000 f) as [[l|e] g]; reflexivity.
Qed.

(** X17 -- [get_session_stats] always returns, and its figures hang
    together whatever the database holds: the productive and the distracted
    records together are no more than the sessions counted, the sessions
    counted are at most 1000, and the total time is not negative.  When the
    database cannot be opened every figure is zero. *)
Theorem get_session_stats_bounds db f :
  exists st,
    (get_session_stats strptime now db f).1 = Return st
    /\ (productive_count st + distracted_count st <= total_sessions st)%nat
    /\ (total_sessions st <= 1000)%nat
    /\ (0 <= total_time_minutes st)%Q
    /\ (connect db <> None ->
        st = {| total_sessions := 0; total_time_minutes := 0%Q;
                productive_count := 0; distracted_count := 0 |}).
Proof.
  rewrite get_session_stats_unfold.
  destruct (get_recent_sessions_shape strptime now db 1000 f)
    as (l & new & Heq & Hok & _).
  destruct (get_recent_sessions_outcome db 1000 f) as (l' & new' & Heq' & Hlen & _).
  rewrite Heq in Heq'. injection Heq' as <- _. rewrite Heq. simpl.
  eexists. split; [reflexivity|]. simpl.
  split; [apply modes_apart|].
  split; [specialize (Hlen ltac:(lia)); lia|].
  split; [apply sum_nonnegative; [apply Qle_refl|exact Hok]|].
  intros Hc. destruct (connect db) as [e|] eqn:Hconn; [|congruence].
  rewrite (connect_failure strptime now db 1000 f e Hconn) in Heq.
  injection Heq as <- _. reflexivity.
Qed.

Lemma in_derived rows i r x :
  rows !! i = Some r ->
  In x (entry strptime now rows i r) ->
  In x (derived strptime now rows).
Proof.
  intros Hi Hx. unfold derived. apply in_concat.
  exists (entry strptime now rows i r). split; [|exact Hx].
  apply list_elem_of_In. apply elem_of_lookup_imap. eauto.
Qed.

(** X18 -- A record whose timestamp text does not read is not dropped: it
    is returned with the duration [0.0].  So is the record listed right
    after it, whose duration would be measured against the unreadable
    timestamp. *)
Theorem unreadable_timestamp_kept db limit f rows i r
  (Hrows : fetched_rows db limit = Some rows)
  (Htext : Forall (fun r => text_stamped r = true) rows)
  (Hrow : rows !! i = Some r)
  (Hbad : stored_time strptime r.2 = None) :
  exists l,
    (get_recent_sessions strptime now db limit f).1 = Return l
    /\ In (zero r) l
    /\ (forall r', rows !! S i = Some r' -> In (zero r') l).
Proof.
  exists (derived strptime now rows).
  split; [apply (get_recent_sessions_derived strptime now db limit f rows Hrows Htext)|].
  split.
  - apply (in_derived rows i r _ Hrow).
    unfold entry, computed_duration. rewrite Hbad. simpl. left. reflexivity.
  - intros r' Hnext. apply (in_derived rows (S i) r' _ Hnext).
    unfold entry, computed_duration, later_time. rewrite Hrow. simpl. rewrite Hbad.
    destruct (stored_time strptime r'.2); simpl; left; reflexivity.
Qed.

Lemma focus_sessions_row_zero rows i r f :
  neither_text_nor_number r.2 = true ->
  (forall j p, rows !! j = Some p -> neither_text_nor_number p.2 = true) ->
  focus_sessions_row strptime now rows i r f = (Return tt, extend [zero r] f).
Proof.
  intros Hr Hrows. destruct r as [[app mode] ts]. destruct f as [ss tr].
  destruct i as [|j].
  - destruct ts; try discriminate; reflexivity.
  - destruct (rows !! j) as [[[pa pm] pts]|] eqn:Hj.
    + specialize (Hrows _ _ Hj). simpl in Hr, Hrows.
      destruct ts; try discriminate; destruct pts; try discriminate;
        run_row; rewrite Nat.sub_0_r, Hj; reflexivity.
    + simpl in Hr. destruct ts; try discriminate;
        run_row; rewrite Nat.sub_0_r, Hj; reflexivity.
Qed.

Lemma focus_sessions_loop_zero rows :
  (forall j p, rows !! j = Some p -> neither_text_nor_number p.2 = true) ->
  forall l i f,
    Forall (fun r => neither_text_nor_number r.2 = true) l ->
    for_enumerate (focus_sessions_row strptime now rows) i l f
    = (Return tt, extend (map zero l) f).
Proof.
  intros Hrows. induction l as [|r l IH]; intros i f Hl; simpl.
  - rewrite extend_nil. reflexivity.
  - inversion Hl as [|? ? Hr Hl']; subst. unfold bind.
    rewrite (focus_sessions_row_zero rows i r f Hr Hrows).
    rewrite (IH (S i) _ Hl'), extend_extend. reflexivity.
Qed.

Lemma focus_log_row_type_error rows r f :
  neither_text_nor_number r.2 = true ->
  focus_log_row strptime now rows 0 r f
  = (Raise (Exn TypeError ("strptime() argument 1 must be str, not " +:+ type_name r.2)), f).
Proof.
  intros Hr. destruct r as [[app mode] ts]. simpl in Hr.
  destruct ts; try discriminate; reflexivity.
Qed.

(** X19 -- Records without a timestamp (a NULL, or a blob) fare
    differently in the two tables.  Read from [focus_log], the first such
    record cuts the loop short with a [TypeError] that only the outer
    handler takes: nothing is returned and the failure is printed, in the
    words of [strptime], which name what it was given ([None] for a NULL,
    [bytes] for a blob).  Read from [focus_sessions], where the loop also
    takes [TypeError], every record is returned with the duration [0.0]. *)
Theorem null_timestamps_by_schema db_log db_sessions limit f r rest e
  (Hnull : Forall (fun r => neither_text_nor_number r.2 = true) (r :: rest))
  (Hopen : connect db_log = None)
  (Hfrom_log : query db_log "focus_log" limit = Return (r :: rest))
  (Hsessions : fetched_rows db_sessions limit = Some (r :: rest))
  (Hno_log : query db_sessions "focus_log" limit = Raise e) :
  get_recent_sessions strptime now db_log limit f
  = (Return [],
     {| sessions := [];
        trace := trace f ++ [Connected; Executed "focus_log";
                             Printed ("[GUI] Error fetching sessions: "
                                      +:+ "strptime() argument 1 must be str, not "
                                      +:+ type_name r.2)] |})
  /\ (get_recent_sessions strptime now db_sessions limit f).1
     = Return (map zero (r :: rest)).
Proof.
  split.
  - rewrite get_recent_sessions_unfold, fetch_unfold, from_focus_log_unfold,
      Hopen, Hfrom_log.
    simpl for_enumerate. unfold bind at 1.
    inversion Hnull as [|? ? Hr _]; subst.
    rewrite (focus_log_row_type_error _ r _ Hr). simpl.
    unfold note, reset. simpl. repeat rewrite <- app_assoc. reflexivity.
  - unfold fetched_rows in Hsessions.
    destruct (connect db_sessions) eqn:Hc; [discriminate|].
    rewrite Hno_log in Hsessions.
    destruct (except_classes [OperationalError] e) eqn:He; [|discriminate].
    destruct (query db_sessions "focus_sessions" limit) as [rows|e'] eqn:Hb;
      [|discriminate].
    injection Hsessions as ->.
    rewrite get_recent_sessions_unfold, fetch_unfold, from_focus_log_unfold, Hc, Hno_log, He.
    rewrite from_focus_sessions_unfold, Hb.
    rewrite (focus_sessions_loop_zero (r :: rest)); [reflexivity| |exact Hnull].
    intros j p Hj. exact (Forall_lookup_1 _ _ _ _ Hnull Hj).
Qed.

Lemma entry_shape rows i (r : row) :
  entry strptime now rows i r = []
  \/ exists d, entry strptime now rows i r = [(r.1, d)].
Proof.
  unfold entry. destruct r as [[app mode] ts]. simpl.
  destruct (computed_duration strptime now rows i (app, mode, ts)) as [d|].
  - destruct (positive d); [right; eauto|left; reflexivity].
  - right. eauto.
Qed.

Lemma concat_imap_sublist (g : nat -> row -> list session) :
  forall l,
    (forall i r, g i r = [] \/ exists d, g i r = [(r.1, d)]) ->
    (fun s : session => s.1) <$> concat (imap g l)
      `sublist_of` (fun r : row => r.1) <$> l.
Proof.
  intros l. revert g. induction l as [|r l IH]; intros g Hg.
  - simpl. constructor.
  - rewrite imap_cons. simpl concat. rewrite fmap_app, fmap_cons.
    assert (Hrest := IH (g ∘ S) (fun i r => Hg (S i) r)).
    destruct (Hg 0%nat r) as [Hnil|[d Hone]].
    + rewrite Hnil. simpl. apply sublist_cons. exact Hrest.
    + rewrite Hone. simpl. apply sublist_skip. exact Hrest.
Qed.

(** X20 -- The returned items follow the order of the fetched records:
    the (name, category) pairs of the returned list are those of the fetched
    rows with some left out, none moved, none repeated, none added. *)
Theorem returned_in_row_order db limit f rows
  (Hrows : fetched_rows db limit = Some rows)
  (Htext : Forall (fun r => text_stamped r = true) rows) :
  exists l,
    (get_recent_sessions strptime now db limit f).1 = Return l
    /\ (fun s : session => s.1) <$> l `sublist_of` (fun r : row => r.1) <$> rows.
Proof.
  exists (derived strptime now rows).
  split; [apply (get_recent_sessions_derived strptime now db limit f rows Hrows Htext)|].
  apply concat_imap_sublist. intros i r. apply entry_shape.
Qed.

End Reading.

Import Timestamps.

(** [get_recent_sessions_bounded] with a bound of two on four stored
    records. *)
Lemma get_recent_sessions_bounded_witness :
  exists l,
    (get_recent_sessions strptime_padded at_12_22 with_duplicate 2 blank).1 = Return l
    /\ (Z.of_nat (length l) <= 2)%Z.
Proof.
  apply (get_recent_sessions_bounded strptime_padded at_12_22 with_duplicate 2 blank).
  lia.
Defined.

(** [unreadable_timestamp_kept] on a table whose second newest record
    carries microseconds. *)
Lemma unreadable_timestamp_kept_witness :
  exists l,
    (get_recent_sessions strptime_padded at_12_22 with_unreadable 50 blank).1 = Return l
    /\ In (SqlText "terminal", SqlText "productive", 0%Q) l
    /\ (forall r', unreadable_rows !! 2%nat = Some r' -> In (zero r') l).
Proof.
  assert (Hrows : fetched_rows with_unreadable 50 = Some unreadable_rows)
    by (vm_compute; reflexivity).
  assert (Htext : Forall (fun r => text_stamped r = true) unreadable_rows)
    by (repeat constructor).
  exact (unreadable_timestamp_kept strptime_padded at_12_22 with_unreadable 50 blank
           unreadable_rows 1%nat
           (SqlText "terminal", SqlText "productive", SqlText stamp_with_microseconds)
           Hrows Htext eq_refl eq_refl).
Defined.

(** [null_timestamps_by_schema] on the same two records in either
    table. *)
Lemma null_timestamps_by_schema_witness :
  get_recent_sessions strptime_padded at_12_22 null_in_focus_log 50 blank
  = (Return [],
     {| sessions := [];
        trace := [Connected; Executed "focus_log";
                  Printed ("[GUI] Error fetching sessions: "
                           +:+ "strptime() argument 1 must be str, not None")] |})
  /\ (get_recent_sessions strptime_padded at_12_22 null_in_focus_sessions 50 blank).1
     = Return (map zero null_rows).
Proof.
  apply (null_timestamps_by_schema strptime_padded at_12_22
           null_in_focus_log null_in_focus_sessions 50 blank
           (SqlText "editor", SqlText "productive", SqlNull)
           [(SqlText "browser", SqlText "distracted", SqlNull)]
           (no_such_table "focus_log")).
  - repeat constructor.
  - vm_compute. reflexivity.
  - vm_compute. reflexivity.
  - vm_compute. reflexivity.
  - vm_compute. reflexivity.
Defined.

(** [returned_in_row_order] on the table with a duplicate and a future
    timestamp. *)
Lemma returned_in_row_order_witness :
  exists l,
    (get_recent_sessions strptime_padded at_12_22 with_duplicate 50 blank).1 = Return l
    /\ (fun s : session => s.1) <$> l
       `sublist_of`
       [(SqlText "terminal", SqlText "productive");
        (SqlText "browser", SqlText "distracted");
        (SqlText "chat", SqlText "distracted");
        (SqlText "editor", SqlText "productive")].
Proof.
  assert (Hrows : fetched_rows with_duplicate 50
                  = Some [(SqlText "terminal", SqlText "productive", SqlText T3);
                          (SqlText "browser", SqlText "distracted", SqlText T1);
                          (SqlText "chat", SqlText "distracted", SqlText T1);
                          (SqlText "editor", SqlText "productive", SqlText T0)])
    by (vm_compute; reflexivity).
  exact (returned_in_row_order strptime_padded at_12_22 with_duplicate 50 blank _
           Hrows ltac:(repeat constructor)).
Defined.

End FacadeReadingFacts.

(** ** The backend modules: classification and logging *)

Module LoggingFacts.

Import Facade Backend Logging FacadeReading Samples FacadeFacts.
Local Open Scope list_scope.

Lemma contains_In names name : contains names name = true <-> In name names.
Proof.
  unfold contains. rewrite existsb_exists. split.
  - intros (x & Hx & He). apply String.eqb_eq in He. subst x. exact Hx.
  - intros H. exists name. split; [exact H|apply String.eqb_refl].
Qed.

(** X21 -- [check_app_category] by cases.  The productive list is looked
    at first and wins: an application on both lists is productive, and for
    a productive application a missing [distracting_apps] key goes
    unnoticed.  A missing [productive_apps] key always raises [KeyError]; a
    missing [distracting_apps] key raises it only for an application that is
    not productive.  Otherwise the application is distracting when the
    second list names it and neutral when neither does. *)
Theorem check_app_category_cases {S} app_name config (s : S) :
  (config !! "productive_apps" = None ->
   check_app_category app_name config s = (Raise (Exn KeyError "productive_apps"), s))
  /\ (forall productive,
        config !! "productive_apps" = Some productive ->
        In app_name productive ->
        check_app_category app_name config s = (Return "productive", s))
  /\ (forall productive,
        config !! "productive_apps" = Some productive ->
        ~ In app_name productive ->
        config !! "distracting_apps" = None ->
        check_app_category app_name config s
        = (Raise (Exn KeyError "distracting_apps"), s))
  /\ (forall productive distracting,
        config !! "productive_apps" = Some productive ->
        ~ In app_name productive ->
        config !! "distracting_apps" = Some distracting ->
        (In app_name distracting ->
         check_app_category app_name config s = (Return "distracting", s))
        /\ (~ In app_name distracting ->
            check_app_category app_name config s = (Return "neutral", s))).
Proof.
  unfold check_app_category, bind, subscript, ret, raise.
  split; [intros ->; reflexivity|].
  split.
  { intros p -> Hin. apply contains_In in Hin. rewrite Hin. reflexivity. }
  assert (Hout : forall p, ~ In app_name p -> contains p app_name = false).
  { intros p Hp. destruct (contains p app_name) eqn:E; [|reflexivity].
    apply contains_In in E. contradiction. }
  split.
  { intros p -> Hp ->. rewrite (Hout p Hp). reflexivity. }
  intros p d -> Hp ->. rewrite (Hout p Hp). split.
  - intros Hin. apply contains_In in Hin. rewrite Hin. reflexivity.
  - intros Hd. rewrite (Hout d Hd). reflexivity.
Qed.

Lemma init_db_lookup db :
  tables (init_db db) !! "focus_sessions" = Some (Stored (stored_rows db))
  \/ exists e, tables db !! "focus_sessions" = Some (Failing e).
Proof.
  unfold init_db, stored_rows.
  destruct (tables db !! "focus_sessions") as [[rs|e]|] eqn:E; simpl.
  - left. exact E.
  - right. eauto.
  - left. apply lookup_insert_eq.
Qed.

Lemma log_sessions_spec {S} (s : S) records : forall db rs,
  connect db = None ->
  tables db !! "focus_sessions" = Some (Stored rs) ->
  exists db',
    log_sessions records db s = (Return db', s)
    /\ connect db' = None
    /\ tables db' !! "focus_sessions" = Some (Stored (rs ++ map as_row records))
    /\ (forall name, name <> "focus_sessions" ->
        tables db' !! name = tables db !! name).
Proof.
  induction records as [|[[stamp app] cat] records IH]; intros db rs Hc Ht; simpl.
  - exists db. rewrite app_nil_r. repeat split; assumption.
  - unfold bind at 1. unfold log_session, bind, returns_or_raises, ret.
    rewrite Hc, Ht. simpl.
    destruct (IH {| connect := None;
                    tables := <["focus_sessions" :=
                                  Stored (rs ++ [(SqlText app, SqlText cat, SqlText stamp)])]>
                                (tables db) |}
                 (rs ++ [(SqlText app, SqlText cat, SqlText stamp)]) eq_refl
                 (lookup_insert_eq _ _ _))
      as (db' & Hrun & Hc' & Ht' & Hothers).
    exists db'. split; [exact Hrun|]. split; [exact Hc'|].
    split; [rewrite Ht', <- app_assoc; reflexivity|].
    intros name Hname. rewrite (Hothers name Hname). simpl.
    apply lookup_insert_ne. congruence.
Qed.

(** X22 -- Logging is append-only.  On a database that opens and whose
    [focus_sessions] table, if present, can be read, [init_db] followed by
    any number of [log_session] calls returns normally and leaves in
    [focus_sessions] the rows that were there, in place, followed by one row
    per call in call order; no other table is touched, and a further
    [init_db] changes nothing.  Without [init_db], on a database that lacks
    the table, [log_session] raises the "no such table" error and stores
    nothing. *)
Theorem logging_appends {S} (s : S) db records
  (Hopen : connect db = None)
  (Hreadable : forall e, tables db !! "focus_sessions" <> Some (Failing e)) :
  (exists db',
     log_sessions records (init_db db) s = (Return db', s)
     /\ tables db' !! "focus_sessions"
        = Some (Stored (stored_rows db ++ map as_row records))
     /\ (forall name, name <> "focus_sessions" ->
         tables db' !! name = tables db !! name)
     /\ init_db db' = db')
  /\ (tables db !! "focus_sessions" = None ->
      forall stamp app_name category,
        log_session stamp app_name category db s
        = (Raise (no_such_table "focus_sessions"), s)).
Proof.
  split.
  - assert (Hc0 : connect (init_db db) = None).
    { unfold init_db. destruct (tables db !! "focus_sessions"); exact Hopen. }
    destruct (init_db_lookup db) as [Ht0|[e He]]; [|exfalso; exact (Hreadable e He)].
    destruct (log_sessions_spec s records (init_db db) _ Hc0 Ht0)
      as (db' & Hrun & Hc' & Ht' & Hothers).
    exists db'. split; [exact Hrun|]. split; [exact Ht'|]. split.
    + intros name Hname. rewrite (Hothers name Hname).
      unfold init_db. destruct (tables db !! "focus_sessions"); [reflexivity|].
      simpl. apply lookup_insert_ne. congruence.
    + unfold init_db. rewrite Ht'. reflexivity.
  - intros Hnone stamp app cat.
    unfold log_session, bind, returns_or_raises, ret, raise.
    rewrite Hopen, Hnone. reflexivity.
Qed.

(** [logging_appends] on the database that already holds four records. *)
Lemma logging_appends_witness :
  (exists db',
     log_sessions two_logged (init_db with_duplicate) tt = (Return db', tt)
     /\ tables db' !! "focus_sessions"
        = Some (Stored (stored_rows with_duplicate ++ map as_row two_logged))
     /\ (forall name, name <> "focus_sessions" ->
         tables db' !! name = tables with_duplicate !! name)
     /\ init_db db' = db')
  /\ (tables with_duplicate !! "focus_sessions" = None ->
      forall stamp app_name category,
        log_session stamp app_name category with_duplicate tt
        = (Raise (no_such_table "focus_sessions"), tt)).
Proof.
  apply (logging_appends tt with_duplicate two_logged).
  - reflexivity.
  - intros e. vm_compute. discriminate.
Defined.

Lemma insert_desc_Forall (P : row -> Prop) r rs :
  P r -> Forall P rs -> Forall P (insert_desc r rs).
Proof.
  intros Hr. induction 1 as [|r' rs Hr' Hrs IH]; simpl.
  - repeat constructor. exact Hr.
  - destruct (sql_leb r'.2 r.2); repeat constructor; assumption.
Qed.

Lemma order_by_timestamp_desc_Forall (P : row -> Prop) rs :
  Forall P rs -> Forall P (order_by_timestamp_desc rs).
Proof.
  induction 1 as [|r rs Hr Hrs IH]; simpl; [constructor|].
  apply insert_desc_Forall; assumption.
Qed.

Lemma sql_limit_Forall (P : row -> Prop) limit rs :
  Forall P rs -> Forall P (sql_limit limit rs).
Proof.
  intros H. unfold sql_limit. destruct (limit <? 0)%Z; [exact H|].
  apply Forall_take. exact H.
Qed.

Section RoundTrip.

Variable strptime : string -> option Z.
Variable now : Z.

Lemma derived_all_zero rows :
  Forall (fun r => text_stamped r = true /\ stored_time strptime r.2 = None) rows ->
  derived strptime now rows = map zero rows.
Proof.
  intros Hrows. unfold derived.
  assert (Hgen : forall l (g : nat -> row -> list session),
            (forall i r, In r l -> g i r = [zero r]) ->
            concat (imap g l) = map zero l).
  { induction l as [|r l IH]; intros g Hg; [reflexivity|].
    rewrite imap_cons. simpl. rewrite (Hg 0%nat r) by (left; reflexivity).
    simpl. f_equal. apply IH. intros i r' Hin. apply Hg. right. exact Hin. }
  apply Hgen. intros i r Hin.
  rewrite Forall_forall in Hrows. apply list_elem_of_In in Hin.
  destruct (Hrows r Hin) as [_ Hbad].
  unfold entry, computed_duration. rewrite Hbad. reflexivity.
Qed.

(** X23 -- What [data_logger] writes, the facade reads back, without a
    duration.  After [init_db] and [log_session] calls on an empty database,
    [get_recent_sessions] falls back to [focus_sessions] and works on the
    logged rows, newest stamp first and cut at the bound; and as the stamps
    the adapter writes (with microseconds) do not read in the facade's
    format, every session comes back with the duration [0.0]. *)
Theorem logged_sessions_come_back records limit f
  (Hlimit : in_range limit)
  (Hstamps : Forall (fun rec : logged => strptime rec.1.1 = None) records) :
  exists db',
    log_sessions records (init_db empty_database) tt = (Return db', tt)
    /\ fetched_rows db' limit
       = Some (sql_limit limit (order_by_timestamp_desc (map as_row records)))
    /\ (get_recent_sessions strptime now db' limit f).1
       = Return (map zero
                   (sql_limit limit (order_by_timestamp_desc (map as_row records)))).
Proof.
  destruct (log_sessions_spec tt records (init_db empty_database) []
              eq_refl eq_refl) as (db' & Hrun & Hc & Ht & Hothers).
  exists db'. split; [exact Hrun|].
  assert (Hlog : tables db' !! "focus_log" = None).
  { rewrite (Hothers "focus_log") by discriminate. reflexivity. }
  assert (Hrange : ((limit <? - 2 ^ 63) || (2 ^ 63 <=? limit))%Z = false).
  { unfold in_range in Hlimit. apply orb_false_iff. split.
    - apply Z.ltb_ge. lia.
    - apply Z.leb_gt. lia. }
  assert (Hfetched : fetched_rows db' limit
            = Some (sql_limit limit (order_by_timestamp_desc (map as_row records)))).
  { unfold fetched_rows, query. rewrite Hc, Hlog, Ht, Hrange. reflexivity. }
  split; [exact Hfetched|].
  assert (Hrows : Forall (fun r => text_stamped r = true
                                   /\ stored_time strptime r.2 = None)
                    (sql_limit limit (order_by_timestamp_desc (map as_row records)))).
  { apply sql_limit_Forall, order_by_timestamp_desc_Forall.
    apply Forall_fmap. eapply Forall_impl; [exact Hstamps|].
    intros [[stamp app] cat] Hbad. simpl in *. split; [reflexivity|exact Hbad]. }
  rewrite (get_recent_sessions_derived strptime now db' limit f _ Hfetched).
  - rewrite (derived_all_zero _ Hrows). reflexivity.
  - eapply Forall_impl; [exact Hrows|]. intros r [Htext _]. exact Htext.
Qed.

End RoundTrip.

Import Timestamps.

(** [logged_sessions_come_back] for two sessions stamped with
    microseconds. *)
Lemma logged_sessions_come_back_witness :
  exists db',
    log_sessions two_logged (init_db empty_database) tt = (Return db', tt)
    /\ fetched_rows db' 50
       = Some (sql_limit 50 (order_by_timestamp_desc (map as_row two_logged)))
    /\ (get_recent_sessions strptime_padded at_12_22 db' 50 blank).1
       = Return [(SqlText "youtube", SqlText "distracting", 0%Q);
                 (SqlText "code", SqlText "productive", 0%Q)].
Proof.
  apply (logged_sessions_come_back strptime_padded at_12_22 two_logged 50 blank).
  - unfold in_range. lia.
  - repeat constructor.
Defined.

End LoggingFacts.

(** ** The desktop settings *)

Module OrchestratorFacts.

Import Orchestrator.
Local Open Scope list_scope.

Lemma last_naming_app setting a b :
  last_naming setting (a ++ b)
  = match last_naming setting b with
    | Some c => Some c
    | None => last_naming setting a
    end.
Proof.
  induction a as [|c a IH]; simpl.
  - destruct (last_naming setting b); reflexivity.
  - rewrite IH. destruct (last_naming setting b); reflexivity.
Qed.

(** X24 -- Switching focus mode on and off again does not bring the
    desktop back.  When every command can be launched, [apply_focus_mode]
    followed by [disable_focus_mode] runs five commands after those already
    run; the last word on the notification banners is ["true"] and on the
    sink's mute is ["0"], but the last word on [dock-fixed] is the ["false"]
    that [apply_focus_mode] set: [disable_focus_mode] has no command for
    it. *)
Theorem focus_mode_round_trip launch ran
  (Hlaunch : forall c, launch c = None) :
  (apply_focus_mode launch ran).1 = Return tt
  /\ (disable_focus_mode launch (apply_focus_mode launch ran).2)
     = (Return tt,
        ran ++ [dock_not_fixed; banners "false"; sink_mute "1";
                banners "true"; sink_mute "0"])
  /\ last_naming "show-banners"
       (disable_focus_mode launch (apply_focus_mode launch ran).2).2
     = Some (banners "true")
  /\ last_naming "set-sink-mute"
       (disable_focus_mode launch (apply_focus_mode launch ran).2).2
     = Some (sink_mute "0")
  /\ last_naming "dock-fixed"
       (disable_focus_mode launch (apply_focus_mode launch ran).2).2
     = Some dock_not_fixed
  /\ (forall ran', last_naming "dock-fixed" (disable_focus_mode launch ran').2
                   = last_naming "dock-fixed" ran').
Proof.
  assert (Happly : apply_focus_mode launch ran
                   = (Return tt, ran ++ [dock_not_fixed; banners "false"; sink_mute "1"])).
  { unfold apply_focus_mode, bind, subprocess_call, modify.
    rewrite !Hlaunch. simpl. repeat rewrite <- app_assoc. reflexivity. }
  assert (Hdisable : forall ran',
            disable_focus_mode launch ran'
            = (Return tt, ran' ++ [banners "true"; sink_mute "0"])).
  { intros ran'. unfold disable_focus_mode, bind, subprocess_call, modify.
    rewrite !Hlaunch. simpl. repeat rewrite <- app_assoc. reflexivity. }
  rewrite Happly, Hdisable. simpl.
  split; [reflexivity|].
  split; [repeat rewrite <- app_assoc; reflexivity|].
  repeat rewrite <- app_assoc. simpl.
  split; [rewrite last_naming_app; reflexivity|].
  split; [rewrite last_naming_app; reflexivity|].
  split; [rewrite last_naming_app; reflexivity|].
  intros ran'. rewrite Hdisable. simpl. rewrite last_naming_app. reflexivity.
Qed.

(** [focus_mode_round_trip] on a desktop where nothing was run before. *)
Lemma focus_mode_round_trip_witness :
  (apply_focus_mode (fun _ => None) []).1 = Return tt
  /\ (disable_focus_mode (fun _ => None) (apply_focus_mode (fun _ => None) []).2)
     = (Return tt,
        [] ++ [dock_not_fixed; banners "false"; sink_mute "1";
               banners "true"; sink_mute "0"])
  /\ last_naming "show-banners"
       (disable_focus_mode (fun _ => None) (apply_focus_mode (fun _ => None) []).2).2
     = Some (banners "true")
  /\ last_naming "set-sink-mute"
       (disable_focus_mode (fun _ => None) (apply_focus_mode (fun _ => None) []).2).2
     = Some (sink_mute "0")
  /\ last_naming "dock-fixed"
       (disable_focus_mode (fun _ => None) (apply_focus_mode (fun _ => None) []).2).2
     = Some dock_not_fixed
  /\ (forall ran', last_naming "dock-fixed" (disable_focus_mode (fun _ => None) ran').2
                   = last_naming "dock-fixed" ran').
Proof.
  apply (focus_mode_round_trip (fun _ => None) []). reflexivity.
Defined.

(** X25 -- Neither function catches anything, and neither is all or
    nothing.  Without [gsettings], both raise at their first command and
    run nothing.  Without [pactl] (and with [gsettings]),
    [apply_focus_mode] raises only after it has changed the dock and
    silenced the banners, and [disable_focus_mode] only after it has
    restored the banners: the sound is left as it was. *)
Theorem focus_mode_partial_failure ran :
  (exists e, apply_focus_mode (without "gsettings") ran = (Raise e, ran))
  /\ (exists e, disable_focus_mode (without "gsettings") ran = (Raise e, ran))
  /\ (exists e, apply_focus_mode (without "pactl") ran
                = (Raise e, ran ++ [dock_not_fixed; banners "false"]))
  /\ (exists e, disable_focus_mode (without "pactl") ran
                = (Raise e, ran ++ [banners "true"]))
  /\ (forall launch e,
        (apply_focus_mode launch ran).1 = Raise e ->
        last_naming "set-sink-mute" (apply_focus_mode launch ran).2
        = last_naming "set-sink-mute" ran).
Proof.
  split; [eexists; reflexivity|].
  split; [eexists; reflexivity|].
  split.
  { eexists. unfold apply_focus_mode, bind, subprocess_call, modify. simpl.
    rewrite <- app_assoc. reflexivity. }
  split; [eexists; reflexivity|].
  intros launch e.
  unfold apply_focus_mode, bind, subprocess_call, modify, raise.
  destruct (launch dock_not_fixed); simpl; [reflexivity|].
  destruct (launch (banners "false")); simpl.
  { intros _. rewrite last_naming_app. reflexivity. }
  destruct (launch (sink_mute "1")); simpl; [|discriminate].
  intros _. rewrite <- app_assoc, last_naming_app. reflexivity.
Qed.

End OrchestratorFacts.

(** ** The active window *)

Module ActivityFacts.

Import Activity Samples.
Local Open Scope list_scope.

Lemma lstrip_spaces a b :
  forallb is_space a = true -> lstrip (a ++ b) = lstrip b.
Proof.
  induction a as [|c a IH]; simpl; [reflexivity|].
  intros H. apply andb_true_iff in H. destruct H as [Hc Ha].
  rewrite Hc. apply IH. exact Ha.
Qed.

Lemma lstrip_keeps a c b :
  is_space c = false -> exists a', lstrip (a ++ c :: b) = a' ++ c :: b.
Proof.
  intros Hc. induction a as [|x a [a' IH]]; simpl.
  - rewrite Hc. exists []. reflexivity.
  - destruct (is_space x); [exists a'; exact IH|].
    exists (x :: a). reflexivity.
Qed.

Lemma lstrip_head l :
  match lstrip l with
  | [] => True
  | c :: _ => is_space c = false
  end.
Proof.
  induction l as [|c l IH]; simpl; [exact I|].
  destruct (is_space c) eqn:E; [exact IH|exact E].
Qed.

Lemma lstrip_fixed l :
  match l with [] => True | c :: _ => is_space c = false end ->
  lstrip l = l.
Proof. destruct l as [|c l]; simpl; [reflexivity|]. intros ->. reflexivity. Qed.

Lemma lstrip_idempotent l : lstrip (lstrip l) = lstrip l.
Proof. apply lstrip_fixed, lstrip_head. Qed.

Lemma rstrip_idempotent l : rstrip (rstrip l) = rstrip l.
Proof. unfold rstrip. rewrite rev_involutive, lstrip_idempotent. reflexivity. Qed.

Lemma lstrip_suffix l : exists a, l = a ++ lstrip l /\ forallb is_space a = true.
Proof.
  induction l as [|c l (a & Hl & Ha)]; simpl.
  - exists []. split; reflexivity.
  - destruct (is_space c) eqn:E.
    + exists (c :: a). simpl. rewrite E, Ha. split; [f_equal; exact Hl|reflexivity].
    + exists []. split; reflexivity.
Qed.

Lemma rstrip_prefix l : exists a, l = rstrip l ++ a /\ forallb is_space a = true.
Proof.
  unfold rstrip. destruct (lstrip_suffix (rev l)) as (a & Hl & Ha).
  exists (rev a). split.
  - rewrite <- rev_app_distr, <- Hl, rev_involutive. reflexivity.
  - rewrite forallb_forall in *. intros x Hx. apply Ha. apply in_rev. exact Hx.
Qed.

(** Stripping the right end leaves the left end as it is. *)
Lemma rstrip_head l :
  match l with [] => True | c :: _ => is_space c = false end ->
  match rstrip l with [] => True | c :: _ => is_space c = false end.
Proof.
  intros Hl. destruct (rstrip_prefix l) as (a & Heq & _).
  destruct (rstrip l) as [|c r]; [exact I|].
  rewrite Heq in Hl. exact Hl.
Qed.

Lemma strip_idempotent l : strip (strip l) = strip l.
Proof.
  unfold strip.
  rewrite (lstrip_fixed (rstrip (lstrip l))); [apply rstrip_idempotent|].
  apply rstrip_head, lstrip_head.
Qed.

Lemma lower_char_space c : is_space (lower_char c) = is_space c.
Proof.
  unfold lower_char.
  destruct ((65 <=? code c) && (code c <=? 90))%nat eqn:E; [|reflexivity].
  apply andb_true_iff in E. destruct E as [H1 H2].
  apply Nat.leb_le in H1. apply Nat.leb_le in H2.
  unfold is_space, code. rewrite nat_ascii_embedding by (unfold code in *; lia).
  unfold code in *.
  repeat match goal with
         | |- context [(?a <=? ?b)%nat] =>
             let H := fresh in destruct (Nat.leb_spec a b) as [H|H]
         end; simpl; try reflexivity; lia.
Qed.

Lemma lower_lstrip l : lower (lstrip l) = lstrip (lower l).
Proof.
  induction l as [|c l IH]; simpl; [reflexivity|].
  rewrite lower_char_space. destruct (is_space c); [exact IH|reflexivity].
Qed.

Lemma lower_strip l : lower (strip l) = strip (lower l).
Proof.
  unfold strip, rstrip, lower.
  rewrite map_rev. fold (lower (lstrip (rev (lstrip l)))).
  rewrite lower_lstrip. unfold lower at 1. rewrite map_rev.
  fold (lower (lstrip l)). rewrite lower_lstrip. reflexivity.
Qed.

Lemma lower_char_idempotent c : lower_char (lower_char c) = lower_char c.
Proof.
  destruct ((65 <=? code c) && (code c <=? 90))%nat eqn:E.
  - assert (Hc : lower_char c = ascii_of_nat (code c + 32))
      by (unfold lower_char; rewrite E; reflexivity).
    apply andb_true_iff in E. destruct E as [H1 H2].
    apply Nat.leb_le in H1. apply Nat.leb_le in H2.
    rewrite Hc. unfold lower_char at 1. unfold code in *.
    rewrite nat_ascii_embedding by lia.
    destruct ((65 <=? nat_of_ascii c + 32) && (nat_of_ascii c + 32 <=? 90))%nat eqn:E';
      [|reflexivity].
    apply andb_true_iff in E'. destruct E' as [_ H3]. apply Nat.leb_le in H3. lia.
  - assert (Hc : lower_char c = c) by (unfold lower_char; rewrite E; reflexivity).
    rewrite !Hc. reflexivity.
Qed.

Lemma lower_idempotent l : lower (lower l) = lower l.
Proof.
  unfold lower. rewrite map_map. apply map_ext. intros c. apply lower_char_idempotent.
Qed.

Lemma lower_char_quote c :
  Ascii.eqb (lower_char c) double_quote = Ascii.eqb c double_quote.
Proof.
  unfold lower_char.
  destruct ((65 <=? code c) && (code c <=? 90))%nat eqn:E; [|reflexivity].
  apply andb_true_iff in E. destruct E as [H1 H2].
  apply Nat.leb_le in H1. apply Nat.leb_le in H2. unfold code in *.
  destruct (Ascii.eqb c double_quote) eqn:Ec.
  - apply Ascii.eqb_eq in Ec. subst c.
    change (nat_of_ascii double_quote) with 34%nat in H1. lia.
  - apply Ascii.eqb_neq. intros Heq.
    apply (f_equal nat_of_ascii) in Heq.
    rewrite nat_ascii_embedding in Heq by lia.
    change (nat_of_ascii double_quote) with 34%nat in Heq. lia.
Qed.

Lemma remove_quotes_free l : quote_free (remove_quotes l).
Proof.
  unfold quote_free, remove_quotes. apply forallb_forall.
  intros c Hc. apply filter_In in Hc. tauto.
Qed.

Lemma remove_quotes_fixed l : quote_free l -> remove_quotes l = l.
Proof.
  unfold quote_free, remove_quotes. induction l as [|c l IH]; simpl; [reflexivity|].
  intros H. apply andb_true_iff in H. destruct H as [Hc Hl].
  rewrite Hc. f_equal. apply IH. exact Hl.
Qed.

Lemma quote_free_lstrip l : quote_free l -> quote_free (lstrip l).
Proof.
  unfold quote_free. induction l as [|c l IH]; simpl; [reflexivity|].
  intros H. destruct (is_space c); [|exact H].
  apply andb_true_iff in H. apply IH. tauto.
Qed.

Lemma quote_free_rev l : quote_free l -> quote_free (rev l).
Proof.
  unfold quote_free. rewrite !forallb_forall. intros H c Hc.
  apply H. apply in_rev. exact Hc.
Qed.

Lemma quote_free_strip l : quote_free l -> quote_free (strip l).
Proof.
  intros H. unfold strip, rstrip.
  apply quote_free_rev, quote_free_lstrip, quote_free_rev, quote_free_lstrip. exact H.
Qed.

Lemma quote_free_lower l : quote_free l -> quote_free (lower l).
Proof.
  unfold quote_free, lower. rewrite !forallb_forall. intros H c Hc.
  apply in_map_iff in Hc. destruct Hc as (x & <- & Hx).
  rewrite lower_char_quote. apply H. exact Hx.
Qed.

(** X26 -- A name [get_active_app] returns is in normal form: it holds no
    double quote, no white space at either end and no upper-case letter, so
    cleaning it again as the function does changes nothing.  (The outputs
    are ASCII texts.) *)
Theorem active_app_normalised xdotool xprop name
  (Hxdotool : forall out, xdotool = Return out -> ascii_only out = true)
  (Hxprop : forall win_id out, xprop win_id = Return out -> ascii_only out = true)
  (Hname : (get_active_app xdotool xprop tt).1 = Return (Some name)) :
  remove_quotes name = name
  /\ strip name = name
  /\ lower name = name.
Proof.
  unfold get_active_app, try_except, bind, check_output, ret, raise in Hname.
  destruct xdotool as [out|e]; simpl in Hname; [|discriminate].
  destruct (xprop (strip out)) as [out'|e']; simpl in Hname; [|discriminate].
  injection Hname as <-.
  split; [|split].
  - apply remove_quotes_fixed, quote_free_lower, quote_free_strip, remove_quotes_free.
  - rewrite <- lower_strip, strip_idempotent. reflexivity.
  - apply lower_idempotent.
Qed.

(** [active_app_normalised] on the answers for an editor window. *)
Lemma active_app_normalised_witness :
  remove_quotes (text_of "code") = text_of "code"
  /\ strip (text_of "code") = text_of "code"
  /\ lower (text_of "code") = text_of "code".
Proof.
  apply (active_app_normalised xdotool_answer xprop_answer (text_of "code")).
  - intros out [= <-]. reflexivity.
  - intros win_id out [= <-]. reflexivity.
  - reflexivity.
Defined.

Lemma before_comma_app a b :
  forallb (fun c => negb (Ascii.eqb c comma)) a = true ->
  before_comma (a ++ comma :: b) = a.
Proof.
  induction a as [|c a IH]; simpl; [reflexivity|].
  intros H. apply andb_true_iff in H. destruct H as [Hc Ha].
  apply negb_true_iff in Hc. rewrite Hc. f_equal. apply IH. exact Ha.
Qed.

Lemma last_field_app a b :
  forallb (fun c => negb (Ascii.eqb c comma)) b = true ->
  last_field (a ++ comma :: b) = b.
Proof.
  intros Hb. unfold last_field.
  rewrite rev_app_distr. simpl. rewrite <- app_assoc. simpl.
  rewrite before_comma_app; [apply rev_involutive|].
  rewrite forallb_forall in *. intros c Hc. apply Hb. apply in_rev. exact Hc.
Qed.

Lemma rstrip_spaces a b :
  forallb is_space b = true -> rstrip (a ++ b) = rstrip a.
Proof.
  intros Hb. unfold rstrip. rewrite rev_app_distr. rewrite lstrip_spaces; [reflexivity|].
  rewrite forallb_forall in *. intros c Hc. apply Hb. apply in_rev. exact Hc.
Qed.

Lemma rstrip_keeps a c :
  is_space c = false -> rstrip (a ++ [c]) = a ++ [c].
Proof.
  intros Hc. unfold rstrip. rewrite rev_app_distr. simpl. rewrite Hc.
  simpl. rewrite rev_involutive. reflexivity.
Qed.

Lemma spaces_quote_free a : forallb is_space a = true -> quote_free a.
Proof.
  unfold quote_free. rewrite !forallb_forall. intros H c Hc.
  specialize (H c Hc). destruct (Ascii.eqb c double_quote) eqn:E; [|reflexivity].
  apply Ascii.eqb_eq in E. subst c. discriminate.
Qed.

Lemma spaces_comma_free a :
  forallb is_space a = true -> forallb (fun c => negb (Ascii.eqb c comma)) a = true.
Proof.
  rewrite !forallb_forall. intros H c Hc.
  specialize (H c Hc). destruct (Ascii.eqb c comma) eqn:E; [|reflexivity].
  apply Ascii.eqb_eq in E. subst c. discriminate.
Qed.

Lemma remove_quotes_app a b :
  remove_quotes (a ++ b) = remove_quotes a ++ remove_quotes b.
Proof. unfold remove_quotes. apply List.filter_app. Qed.

(** X27 -- On a [WM_CLASS] line of the usual shape -- anything, a comma,
    blanks, the class name between double quotes, blanks or a newline --
    [get_active_app] returns the class name in lower case, stripped; what
    stands before the last comma (the instance name) plays no part.  The
    class name must hold no comma and no double quote.  (The outputs are
    ASCII texts.) *)
Theorem active_app_of_wm_class xdotool xprop out before blanks class_name trailing
  (Hxdotool : xdotool = Return out)
  (Hascii : ascii_only out = true
            /\ ascii_only (before ++ comma :: blanks ++ double_quote :: class_name
                             ++ double_quote :: trailing) = true)
  (Hxprop : xprop (strip out)
            = Return (before ++ comma :: blanks ++ double_quote :: class_name
                        ++ double_quote :: trailing))
  (Hblanks : forallb is_space blanks = true)
  (Htrailing : forallb is_space trailing = true)
  (Hcomma : forallb (fun c => negb (Ascii.eqb c comma)) class_name = true)
  (Hquote : quote_free class_name) :
  get_active_app xdotool xprop tt = (Return (Some (lower (strip class_name))), tt).
Proof.
  unfold get_active_app, try_except, bind, check_output, ret.
  rewrite Hxdotool. simpl. rewrite Hxprop. simpl. do 3 f_equal.
  set (field := blanks ++ double_quote :: class_name ++ [double_quote]).
  assert (Hline : before ++ comma :: blanks ++ double_quote :: class_name
                    ++ double_quote :: trailing
                  = (before ++ comma :: field) ++ trailing).
  { unfold field. rewrite <- !app_assoc. simpl. rewrite <- !app_assoc. simpl.
    rewrite <- !app_assoc. reflexivity. }
  rewrite Hline.
  assert (Hfield : forallb (fun c => negb (Ascii.eqb c comma)) field = true).
  { unfold field. rewrite forallb_app. simpl. rewrite forallb_app. simpl.
    rewrite (spaces_comma_free _ Hblanks), Hcomma. reflexivity. }
  assert (Hstrip : exists before', strip ((before ++ comma :: field) ++ trailing)
                                   = before' ++ comma :: field).
  { unfold strip.
    destruct (lstrip_keeps before comma (field ++ trailing) eq_refl) as [before' Hl].
    exists before'. rewrite <- !app_assoc. simpl. rewrite Hl.
    replace (before' ++ comma :: field ++ trailing)
      with ((before' ++ comma :: field) ++ trailing)
      by (rewrite <- !app_assoc; reflexivity).
    rewrite (rstrip_spaces _ _ Htrailing).
    unfold field. rewrite !app_comm_cons, !app_assoc.
    apply rstrip_keeps. reflexivity. }
  destruct Hstrip as [before' ->].
  rewrite (last_field_app before' field Hfield).
  unfold field. rewrite remove_quotes_app. simpl.
  rewrite remove_quotes_app. simpl.
  rewrite (remove_quotes_fixed _ (spaces_quote_free _ Hblanks)).
  rewrite (remove_quotes_fixed _ Hquote), app_nil_r.
  unfold strip. rewrite (lstrip_spaces _ _ Hblanks). reflexivity.
Qed.

(** [active_app_of_wm_class] on the answers for an editor window. *)
Lemma active_app_of_wm_class_witness :
  get_active_app xdotool_answer xprop_answer tt
  = (Return (Some (lower (strip (text_of "Code")))), tt).
Proof.
  apply (active_app_of_wm_class xdotool_answer xprop_answer
           (text_of ("62914565" +:+ String LF ""))
           (text_of ("WM_CLASS(STRING) = " +:+ String double_quote "code"
                     +:+ String double_quote ""))
           (text_of " ") (text_of "Code") (text_of (String LF ""))).
  - reflexivity.
  - split; reflexivity.
  - reflexivity.
  - reflexivity.
  - reflexivity.
  - reflexivity.
  - reflexivity.
Defined.

End ActivityFacts.

(** ** Streams *)

Module StreamsFacts.

Import LogRelay RelayRuns Streams.
Import LogRelayFacts RelayRunsFacts.
Local Open Scope list_scope.
Local Arguments String.append : simpl nomatch.



(** Over a console that takes what is written, a flush returns, leaves the
    relays in place and gives the console no text. *)
Lemma stream_flush_working s : forall q,
  working s ->
  (stream_flush s q).1 = Return tt
  /\ working (stream_flush s q).2.1
  /\ relay_names (stream_flush s q).2.1 = relay_names s
  /\ console_text (console_of (stream_flush s q).2.1) = console_text (console_of s).
Proof.
  unfold working.
  induction s as [received broken|name buffer original IH]; intros q Hw; simpl in *.
  - subst broken. simpl. rewrite console_text_app. simpl.
    rewrite append_empty_r. auto.
  - destruct (IH q Hw) as (Hr & Hw' & Hn & Hc).
    destruct (stream_flush original q) as [[[]|e] [original' q']]; simpl in *;
      [|discriminate].
    destruct (String.eqb buffer ""); simpl; rewrite Hn; auto.
Qed.

(** ... and a write returns, leaves the relays in place and gives the
    console the text. *)
Lemma stream_write_working message s : forall q,
  working s ->
  (exists n, (stream_write message s q).1 = Return n)
  /\ working (stream_write message s q).2.1
  /\ relay_names (stream_write message s q).2.1 = relay_names s
  /\ console_text (console_of (stream_write message s q).2.1)
     = console_text (console_of s) +:+ message.
Proof.
  unfold working.
  induction s as [received broken|name buffer original IH]; intros q Hw; simpl in *.
  - subst broken. simpl. rewrite console_text_app. simpl.
    rewrite append_empty_r. eauto.
  - destruct (String.eqb message "") eqn:E.
    + apply String.eqb_eq in E. subst message. simpl.
      rewrite append_empty_r. eauto.
    + destruct (IH q Hw) as ([n Hr] & Hw' & Hn & Hc).
      destruct (stream_write message original q) as [[n'|e] [original' q']];
        simpl in *; [|discriminate].
      destruct (stream_flush_working original' q' Hw') as (Hr2 & Hw2 & Hn2 & Hc2).
      destruct (stream_flush original' q') as [[[]|e] [original'' q'']];
        simpl in *; [|discriminate].
      rewrite Hn2, Hn, Hc2, Hc. eauto.
Qed.

(** A relay over the console itself is the relay of [LogRelay]. *)
Lemma relay_write_plain name buffer received message q :
  message <> "" ->
  stream_write message (Relay name buffer (Console received None)) q
  = (Return (String.length message),
     (Relay name (split_lines (buffer +:+ message)).2
        (Console (received ++ [SinkWrite message; SinkFlush]) None),
      q ++ queued name (split_lines (buffer +:+ message)).1)).
Proof.
  intros Hne. simpl.
  destruct (String.eqb message "") eqn:E; [apply String.eqb_eq in E; contradiction|].
  rewrite drain_split_lines. simpl. rewrite <- app_assoc. reflexivity.
Qed.

Lemma relay_flush_plain name buffer received q :
  stream_flush (Relay name buffer (Console received None)) q
  = (Return tt,
     (Relay name "" (Console (received ++ [SinkFlush]) None),
      q ++ tail_item name buffer)).
Proof.
  simpl. unfold tail_item. destruct (String.eqb buffer "") eqn:E.
  - apply String.eqb_eq in E. subst buffer. rewrite app_nil_r. reflexivity.
  - reflexivity.
Qed.

End StreamsFacts.

(** ** The background thread *)

Module DaemonFacts.

Import LogRelay RelayRuns Streams Daemon Samples.
Import LogRelayFacts RelayRunsFacts StreamsFacts.
Local Open Scope list_scope.
Local Arguments String.append : simpl nomatch.

Lemma text_on_app ch a b : text_on ch (a ++ b) = text_on ch a +:+ text_on ch b.
Proof.
  unfold text_on. rewrite List.filter_app, map_app. apply written_app.
Qed.






Lemma text_on_one ch ch' m :
  text_on ch' [(ch, m)] = if channel_eqb ch ch' then m else "".
Proof.
  unfold text_on. simpl. destruct (channel_eqb ch ch'); simpl; [|reflexivity].
  apply append_empty_r.
Qed.

Lemma same_channel ch ch' : channel_eqb ch ch' = true -> ch' = ch.
Proof. destruct ch, ch'; try discriminate; reflexivity. Qed.

Lemma relay_put_back ch ch' st f :
  relay ch' (put_back ch st f) = if channel_eqb ch ch' then st.1 else relay ch' f.
Proof. destruct ch, ch'; reflexivity. Qed.

(** While the relays are installed, a write is a write on the relay. *)
Lemma sys_write_redirected ch m f :
  redirected f = true ->
  sys_write ch m f
  = (match (stream_write m (relay ch f) (Controller.log_queue (self f))).1 with
     | Return _ => Return tt
     | Raise e => Raise e
     end,
     put_back ch (stream_write m (relay ch f) (Controller.log_queue (self f))).2 f).
Proof.
  intros Hred. unfold sys_write, bind, get. rewrite Hred.
  unfold on_relay, write, ret. simpl.
  destruct (stream_write m (relay ch f) (Controller.log_queue (self f))) as [[n|e] st];
    reflexivity.
Qed.


Lemma sys_write_follows o done ch m f :
  follows o done f ->
  (sys_write ch m f).1 = Return tt
  /\ follows o (done ++ [(ch, m)]) (sys_write ch m f).2.
Proof.
  intros (Hred & Hrelay).
  rewrite (sys_write_redirected ch m f Hred).
  destruct (Hrelay ch) as (buffer & s & Hr & Hw & Hn & Hc). rewrite Hr.
  assert (Hrelay_w : working (Relay (name ch) buffer s)) by exact Hw.
  destruct (stream_write_working m _ (Controller.log_queue (self f)) Hrelay_w)
    as ([n Hret] & Hw' & Hn' & Hc').
  rewrite Hret. cbn [fst snd]. split; [reflexivity|].
  split; [exact Hred|].
  intros ch'. rewrite relay_put_back, text_on_app, text_on_one.
  destruct (channel_eqb ch ch') eqn:E'.
  - apply same_channel in E'. subst ch'.
    destruct ((stream_write m (Relay (name ch) buffer s)
                 (Controller.log_queue (self f))).2.1) as [|name' buffer' s'] eqn:Hs;
      [discriminate Hn'|].
    unfold working in Hw'. simpl in Hn', Hc', Hw'. injection Hn' as -> Hn'.
    exists buffer', s'. split; [reflexivity|].
    split; [exact Hw'|]. split; [congruence|].
    rewrite Hc', Hc, append_assoc. reflexivity.
  - rewrite append_empty_r. apply Hrelay.
Qed.






Lemma assign_grown c l t l' t' f :
  grown c l t f ->
  grown c l' t' (assign (fun c' => Controller.set_daemon_handles l' t' c') f).2.
Proof.
  intros [added Hself]. exists added. simpl. rewrite Hself. destruct c; reflexivity.
Qed.



(** *** Runs over consoles that take what is written *)

Section Invariant.

Variable I : list (channel * string) -> frame -> Prop.

Hypothesis Hstep : forall done ch m f,
  I done f ->
  (sys_write ch m f).1 = Return tt /\ I (done ++ [(ch, m)]) (sys_write ch m f).2.

Lemma write_output_kept out : forall done f,
  I done f ->
  (write_output out f).1 = Return tt /\ I (done ++ out) (write_output out f).2.
Proof.
  induction out as [|[ch m] out IH]; intros done f Hf; simpl.
  - rewrite app_nil_r. split; [reflexivity|exact Hf].
  - destruct (Hstep done ch m f Hf) as (_ & Hf').
    unfold bind, attempt.
    destruct (IH _ _ Hf') as (Hret' & Hf'').
    rewrite <- app_assoc in Hf''. split; assumption.
Qed.

Lemma print_kept text done f :
  I done f ->
  (print text f).1 = Return tt
  /\ I (done ++ [(Stdout, text); (Stdout, String LF "")]) (print text f).2.
Proof.
  intros Hf. unfold print, bind.
  destruct (Hstep done Stdout text f Hf) as (Hr1 & Hf1).
  destruct (sys_write Stdout text f) as [o1 f1]. simpl in Hr1, Hf1. subst o1.
  destruct (Hstep _ Stdout (String LF "") f1 Hf1) as (Hr2 & Hf2).
  rewrite <- app_assoc in Hf2. split; assumption.
Qed.

Lemma ending_kept e done f :
  I done f ->
  (match e with
   | Completed => ret tt
   | Cancelled => print "[GUI] Daemon stopped"
   | Failed e => print ("[GUI] Daemon error: " +:+ exn_msg e)
   end f).1 = Return tt
  /\ I (done ++ closing e)
       (match e with
        | Completed => ret tt
        | Cancelled => print "[GUI] Daemon stopped"
        | Failed e => print ("[GUI] Daemon error: " +:+ exn_msg e)
        end f).2.
Proof.
  intros Hf. destruct e as [| |e]; simpl.
  - rewrite app_nil_r. split; [reflexivity|exact Hf].
  - apply print_kept. exact Hf.
  - apply print_kept. exact Hf.
Qed.

(** The [try] part returns, and the run is the [finally] block on the
    frame it leaves. *)
Lemma run_daemon_kept loop task r c out err :
  I [] (assign (fun c' => Controller.set_daemon_handles (Controller.daemon_loop c')
                            (Some task) c')
          (enter loop c out err)).2 ->
  exists f,
    I (all_output r) f
    /\ run_daemon loop task r c out err = finally_block f.
Proof.
  intros H0. unfold run_daemon, run_daemon_body, try_finally.
  unfold bind at 1; cbv beta.
  destruct (assign _ (enter loop c out err)) as [o0 f0] eqn:E0.
  assert (o0 = Return tt) by (unfold assign, modify in E0; congruence). subst o0.
  simpl in H0.
  destruct (write_output_kept (output r) [] f0 H0) as (Hr1 & Hf1). simpl in Hf1.
  unfold bind at 1; cbv beta.
  destruct (write_output (output r) f0) as [o1 f1]. simpl in Hr1, Hf1. subst o1.
  destruct (ending_kept (ended r) _ f1 Hf1) as (Hr2 & Hf2).
  fold (all_output r) in Hf2.
  match goal with
  | |- context [match ?m f1 with (o, f') => _ end] =>
      destruct (m f1) as [o2 f2]
  end.
  simpl in Hr2, Hf2. subst o2.
  exists f2. split; [exact Hf2|].
  destruct (finally_block f2) as [[[]|e] f3]; reflexivity.
Qed.

End Invariant.


Lemma relay_flush_working n b s q :
  working s ->
  exists b' s' q',
    stream_flush (Relay n b s) q = (Return tt, (Relay n b' s', q'))
    /\ working s' /\ relay_names s' = relay_names s
    /\ console_text (console_of s') = console_text (console_of s).
Proof.
  intros Hw. simpl.
  destruct (stream_flush_working s q Hw) as (R & W & N & C).
  destruct (stream_flush s q) as [[[]|e] [s' q']]; simpl in R, W, N, C; [|discriminate].
  destruct (String.eqb b ""); eauto 10.
Qed.

Lemma finally_block_follows o done f :
  follows o done f ->
  (finally_block f).1 = Return tt
  /\ redirected (finally_block f).2 = false
  /\ forall ch,
       relay_names (sys_stream ch (finally_block f).2) = relay_names (o ch)
       /\ console_text (console_of (sys_stream ch (finally_block f).2))
          = console_text (console_of (o ch)) +:+ text_on ch done.
Proof.
  intros (Hred & Hrelay). destruct f as [c s1 s2 red]. simpl in Hred. subst red.
  destruct (Hrelay Stdout) as (b1 & o1 & E1 & W1 & N1 & C1).
  destruct (Hrelay Stderr) as (b2 & o2 & E2 & W2 & N2 & C2).
  simpl in E1, E2. subst s1 s2.
  destruct (relay_flush_working "stdout" b1 o1 (Controller.log_queue c) W1)
    as (b1' & o1' & q1 & F1 & W1' & N1' & C1').
  destruct (relay_flush_working "stderr" b2 o2 q1 W2)
    as (b2' & o2' & q2 & F2 & W2' & N2' & C2').
  assert (Heq : finally_block
                  {| self := c; gui_stdout := Relay "stdout" b1 o1;
                     gui_stderr := Relay "stderr" b2 o2; redirected := true |}
                = (Return tt,
                   {| self := Controller.set_daemon_handles None None
                                (Controller.set_log_queue q2 c);
                      gui_stdout := Relay "stdout" b1' o1';
                      gui_stderr := Relay "stderr" b2' o2';
                      redirected := false |})).
  { unfold finally_block, bind, on_relay, flush, assign, modify, put_back, set_redirected.
    cbn [relay gui_stdout gui_stderr self fst snd redirected].
    rewrite F1. cbn [relay gui_stdout gui_stderr self fst snd redirected].
    change (Controller.log_queue (Controller.set_log_queue q1 c)) with q1.
    rewrite F2. cbn [relay gui_stdout gui_stderr self fst snd redirected].
    destruct c; reflexivity. }
  rewrite Heq. cbn [fst snd redirected].
  split; [reflexivity|]. split; [reflexivity|].
  intros ch. unfold sys_stream.
  destruct ch; cbn [redirected relay gui_stdout gui_stderr original_of].
  - rewrite N1', C1'. split; assumption.
  - rewrite N2', C2'. split; assumption.
Qed.



(** X29 -- Over streams whose console takes what is written, with or
    without relays of earlier runs in between: [run_daemon] returns, the
    console of each stream has received, after what it had before, the text
    written to its channel (for [sys.stdout] the line of an [except] clause
    included), and at the end [sys.stdout] and [sys.stderr] are again the
    streams they were when the thread started: the console itself if they
    were, the relay of the earlier run if one was installed. *)
Theorem run_daemon_console loop task r c out err
  (Hout : working out) (Herr : working err) :
  (run_daemon loop task r c out err).1 = Return tt
  /\ redirected (run_daemon loop task r c out err).2 = false
  /\ relay_names (sys_stream Stdout (run_daemon loop task r c out err).2) = relay_names out
  /\ relay_names (sys_stream Stderr (run_daemon loop task r c out err).2) = relay_names err
  /\ console_text (console_of (sys_stream Stdout (run_daemon loop task r c out err).2))
     = console_text (console_of out) +:+ text_on Stdout (output r)
         +:+ text_on Stdout (closing (ended r))
  /\ console_text (console_of (sys_stream Stderr (run_daemon loop task r c out err).2))
     = console_text (console_of err) +:+ text_on Stderr (output r).
Proof.
  set (o := fun ch => match ch with Stdout => out | Stderr => err end).
  destruct (run_daemon_kept (follows o) (sys_write_follows o) loop task r c out err)
    as (f & Hf & ->).
  { split; [reflexivity|]. intros ch.
    destruct ch; simpl; [exists "", out|exists "", err];
      rewrite append_empty_r; repeat split; assumption. }
  destruct (finally_block_follows o _ f Hf) as (Hret & Hred & Hch).
  destruct (Hch Stdout) as (N1 & C1). destruct (Hch Stderr) as (N2 & C2).
  simpl in N1, N2, C1, C2. unfold all_output in C1, C2. rewrite text_on_app in C1, C2.
  repeat split; try assumption.
  rewrite C2. f_equal.
  assert (Hnone : text_on Stderr (closing (ended r)) = "")
    by (destruct (ended r); reflexivity).
  rewrite Hnone. apply append_empty_r.
Qed.

(** [run_daemon_console] on a run started while the relay of an earlier
    run is still installed as [sys.stdout]. *)
Lemma run_daemon_console_witness :
  relay_names (sys_stream Stdout
           (run_daemon 1 1 cancelled_run (Controller.self running)
              (Relay "stdout" "" (Console [] None)) (Console [] None)).2)
  = ["stdout"]
  /\ console_text
       (console_of
          (sys_stream Stdout
             (run_daemon 1 1 cancelled_run (Controller.self running)
                (Relay "stdout" "" (Console [] None)) (Console [] None)).2))
     = "[INFO] blocking" +:+ String LF "ticktock[GUI] Daemon stopped" +:+ String LF "".
Proof.
  destruct (run_daemon_console 1 1 cancelled_run (Controller.self running)
              (Relay "stdout" "" (Console [] None)) (Console [] None))
    as (_ & _ & Hn & _ & Hc & _).
  - reflexivity.
  - reflexivity.
  - split; [exact Hn|]. rewrite Hc. vm_compute. reflexivity.
Defined.



End DaemonFacts.

(** ** The controller and [sys.stdout] *)

Module ProcessFacts.

Import LogRelay RelayRuns Controller ControllerTrace Streams Process Samples.
Import LogRelayFacts RelayRunsFacts StreamsFacts ControllerFacts.
Local Open Scope list_scope.
Local Arguments String.append : simpl nomatch.
Local Arguments Process.print : simpl never.
Local Arguments after_print : simpl never.

(** *** What a [print] does to the stream and the queue *)

(** Over a console that takes it, a [print] returns and the console gets
    the text and the line end. *)
Lemma stream_print_working text (st : store) :
  working st.1 ->
  Streams.print text st = (Return tt, after_print text st)
  /\ working (after_print text st).1
  /\ relay_names (after_print text st).1 = relay_names st.1
  /\ console_text (console_of (after_print text st).1)
     = console_text (console_of st.1) +:+ text +:+ String LF "".
Proof.
  intros Hw. destruct st as [s q]. simpl fst in *.
  destruct (stream_write_working text s q Hw) as ([n Hr] & Hw1 & Hn1 & Hc1).
  destruct (stream_write text s q) as [o1 [s1 q1]] eqn:E1.
  simpl in Hr, Hw1, Hn1, Hc1. subst o1.
  destruct (stream_write_working (String LF "") s1 q1 Hw1) as ([n' Hr'] & Hw2 & Hn2 & Hc2).
  destruct (stream_write (String LF "") s1 q1) as [o2 [s2 q2]] eqn:E2.
  simpl in Hr', Hw2, Hn2, Hc2. subst o2.
  assert (Heq : Streams.print text (s, q) = (Return tt, (s2, q2))).
  { unfold Streams.print, bind, write, ret. simpl fst. simpl snd.
    rewrite E1. cbv beta iota. simpl fst. simpl snd. rewrite E2. reflexivity. }
  unfold after_print. rewrite Heq. simpl.
  rewrite Hn2, Hn1, Hc2, Hc1, append_assoc. auto.
Qed.

(** A console that refuses makes a write raise what it raises, before
    anything has changed. *)
Lemma stream_write_broken message s e : forall q,
  fault s = Some e ->
  message <> "" \/ relay_names s = [] ->
  stream_write message s q = (Raise e, (s, q)).
Proof.
  induction s as [received broken|name buffer original IH]; intros q Hf Hm; simpl in *.
  - subst broken. reflexivity.
  - destruct Hm as [Hm|Hm]; [|discriminate].
    destruct (String.eqb message "") eqn:E; [apply String.eqb_eq in E; contradiction|].
    rewrite (IH q Hf (or_introl Hm)). reflexivity.
Qed.

(** [print] written out. *)
Lemma stream_print_unfold text s q :
  Streams.print text (s, q)
  = match stream_write text s q with
    | (Return _, (s1, q1)) =>
        match stream_write (String LF "") s1 q1 with
        | (Return _, st) => (Return tt, st)
        | (Raise e, st) => (Raise e, st)
        end
    | (Raise e, st) => (Raise e, st)
    end.
Proof.
  unfold Streams.print, bind, write, ret. simpl fst. simpl snd.
  destruct (stream_write text s q) as [[n|e] [s1 q1]]; [|reflexivity].
  simpl fst. simpl snd.
  destruct (stream_write (String LF "") s1 q1) as [[n'|e] st]; reflexivity.
Qed.

Lemma relay_write_empty name buffer original q :
  stream_write "" (Relay name buffer original) q
  = (Return 0%nat, (Relay name buffer original, q)).
Proof. reflexivity. Qed.

Lemma stream_print_broken text (st : store) e :
  fault st.1 = Some e ->
  Streams.print text st = (Raise e, st).
Proof.
  intros Hf. destruct st as [s q]. simpl in Hf. rewrite stream_print_unfold.
  destruct s as [received broken|name buffer original].
  - rewrite (stream_write_broken text _ e q Hf (or_intror eq_refl)). reflexivity.
  - destruct (String.eqb text "") eqn:E.
    + apply String.eqb_eq in E. subst text. rewrite relay_write_empty.
      rewrite (stream_write_broken (String LF "") _ e q Hf) by (left; discriminate).
      reflexivity.
    + assert (Hne : text <> "") by (intros ->; discriminate).
      rewrite (stream_write_broken text _ e q Hf (or_introl Hne)). reflexivity.
Qed.

(** At the console itself nothing reaches the queue. *)
Lemma after_print_console text received q :
  after_print text (Console received None, q)
  = (Console (received ++ [SinkWrite text; SinkWrite (String LF "")]) None, q).
Proof.
  unfold after_print. rewrite stream_print_unfold. simpl.
  rewrite <- app_assoc. reflexivity.
Qed.

(** Through a relay over the console the text is put on the queue, line
    by line, after what the relay had in its buffer. *)
Lemma after_print_relay text name buffer received q :
  exists received',
    after_print text (Relay name buffer (Console received None), q)
    = (Relay name (split_lines (buffer +:+ text +:+ String LF "")).2
         (Console received' None),
       q ++ queued name (split_lines (buffer +:+ text +:+ String LF "")).1).
Proof.
  unfold after_print. rewrite stream_print_unfold.
  destruct (String.eqb text "") eqn:E.
  - apply String.eqb_eq in E. subst text. rewrite relay_write_empty.
    rewrite relay_write_plain by discriminate. simpl. eauto.
  - assert (Hne : text <> "") by (intros ->; discriminate).
    rewrite (relay_write_plain _ _ _ _ _ Hne).
    rewrite relay_write_plain by discriminate. simpl snd.
    rewrite <- append_assoc, (split_lines_app (buffer +:+ text) (String LF "")).
    simpl fst. simpl snd.
    unfold queued. rewrite map_app, app_assoc. eauto.
Qed.

Lemma print_all_working texts : forall st : store,
  working st.1 ->
  working (print_all texts st).1
  /\ relay_names (print_all texts st).1 = relay_names st.1
  /\ console_text (console_of (print_all texts st).1)
     = console_text (console_of st.1) +:+ join_lines texts.
Proof.
  induction texts as [|text texts IH]; intros st Hw; simpl.
  - rewrite append_empty_r. auto.
  - destruct (stream_print_working text st Hw) as (_ & Hw1 & Hn1 & Hc1).
    destruct (IH _ Hw1) as (Hw2 & Hn2 & Hc2).
    rewrite Hn2, Hn1, Hc2, Hc1, !append_assoc. auto.
Qed.

Lemma print_all_console texts : forall received q,
  exists received',
    print_all texts (Console received None, q) = (Console received' None, q).
Proof.
  induction texts as [|text texts IH]; intros received q; simpl; [eauto|].
  rewrite after_print_console. apply IH.
Qed.

Lemma join_lines_cons buffer text texts :
  buffer +:+ join_lines (text :: texts)
  = (buffer +:+ text +:+ String LF "") +:+ join_lines texts.
Proof.
  simpl. rewrite !append_assoc. reflexivity.
Qed.

Lemma print_all_relay texts : forall name buffer received q,
  has_newline buffer = false ->
  exists received',
    print_all texts (Relay name buffer (Console received None), q)
    = (Relay name (split_lines (buffer +:+ join_lines texts)).2 (Console received' None),
       q ++ queued name (split_lines (buffer +:+ join_lines texts)).1).
Proof.
  induction texts as [|text texts IH]; intros name buffer received q Hb.
  - exists received. simpl print_all. simpl join_lines.
    rewrite append_empty_r, (no_newline_split_lines _ Hb). simpl.
    rewrite app_nil_r. reflexivity.
  - simpl print_all.
    destruct (after_print_relay text name buffer received q) as [r1 ->].
    destruct (IH name (split_lines (buffer +:+ text +:+ String LF "")).2 r1
                (q ++ queued name (split_lines (buffer +:+ text +:+ String LF "")).1)
                (split_lines_tail _)) as [r2 ->].
    exists r2. rewrite join_lines_cons.
    rewrite (split_lines_app (buffer +:+ text +:+ String LF "") (join_lines texts)).
    cbn [fst snd]. unfold queued. rewrite map_app, app_assoc. reflexivity.
Qed.

Lemma after_print_working text (st : store) :
  working st.1 -> working (after_print text st).1.
Proof. intros Hw. apply (stream_print_working text st Hw). Qed.

Lemma print_working text p :
  working (sys_stdout p) ->
  Process.print text p
  = (Return tt,
     {| world := with_self
                   (set_log_queue
                      (after_print text (sys_stdout p, log_queue (self (world p)))).2)
                   (record (Call_print text) (world p));
        sys_stdout := (after_print text (sys_stdout p, log_queue (self (world p)))).1 |}).
Proof.
  intros Hw. unfold Process.print.
  change (log_queue (self (record (Call_print text) (world p))))
    with (log_queue (self (world p))).
  destruct (stream_print_working text (sys_stdout p, log_queue (self (world p))) Hw)
    as (-> & _). reflexivity.
Qed.

Lemma print_broken text p e :
  fault (sys_stdout p) = Some e ->
  Process.print text p
  = (Raise e,
     {| world := with_self (set_log_queue (log_queue (self (world p))))
                   (record (Call_print text) (world p));
        sys_stdout := sys_stdout p |}).
Proof.
  intros Hf. unfold Process.print.
  change (log_queue (self (record (Call_print text) (world p))))
    with (log_queue (self (world p))).
  rewrite (stream_print_broken text (sys_stdout p, log_queue (self (world p))) e Hf).
  reflexivity.
Qed.

#[local] Opaque Process.print after_print.

Ltac run_process :=
  unfold Process.start_focus, Process.stop_focus, Process.stop_body, lift,
    try_except, bind, get, assign, call, modify, ret, raise, returns_or_raises,
    with_self, record, except_Exception, is_some, thread_is_alive;
  simpl.

Ltac solve_working :=
  simpl; repeat apply after_print_working; assumption.

Ltac print_on :=
  repeat (rewrite print_working by solve_working; simpl).

Ltac deliver :=
  unfold delivered; cbn [world sys_stdout calls self log_queue];
  rewrite <- ?app_assoc, drop_app_length;
  cbn [printed_texts omap print_all app fst snd];
  rewrite <- ?surjective_pairing;
  reflexivity.

Lemma delivered_nothing (p : process) :
  p = delivered p (world p).
Proof.
  destruct p as [[[r th dl dt se st q] tr] s].
  unfold delivered. cbn [world sys_stdout calls self log_queue].
  rewrite drop_all. reflexivity.
Qed.

(** With a console that takes what is written, the body of [stop_focus]
    and [stop_focus] do what [Controller.stop_body] and
    [Controller.stop_focus] do, every print of theirs delivered to
    [sys.stdout]. *)
Lemma stop_body_delivered env p :
  working (sys_stdout p) ->
  stop_body env p
  = ((Controller.stop_body env (world p)).1,
     delivered p (Controller.stop_body env (world p)).2).
Proof.
  intros Hw. destruct p as [w s]. simpl in Hw.
  open_world w; open_env env.
  all: run_process; print_on; run_stop; deliver.
Qed.

Lemma stop_focus_delivered env p :
  working (sys_stdout p) ->
  stop_focus env p
  = ((Controller.stop_focus env (world p)).1,
     delivered p (Controller.stop_focus env (world p)).2).
Proof.
  intros Hw. destruct (is_running (self (world p))) eqn:Hr.
  - destruct p as [w s]. simpl in Hw.
    open_world w; open_env env; simpl in Hr; subst.
    all: run_process; print_on; run_stop; deliver.
  - rewrite (stop_focus_idle _ _ Hr). cbn [fst snd].
    rewrite <- delivered_nothing.
    unfold stop_focus, bind, get. cbn [fst snd]. rewrite Hr. reflexivity.
Qed.

Lemma start_focus_delivered env p :
  working (sys_stdout p) ->
  start_focus env p
  = ((Controller.start_focus env (world p)).1,
     delivered p (Controller.start_focus env (world p)).2).
Proof.
  intros Hw. destruct (is_running (self (world p))) eqn:Hr.
  - rewrite (start_focus_running _ _ Hr). cbn [fst snd].
    rewrite <- delivered_nothing.
    unfold start_focus, bind, get. cbn [fst snd]. rewrite Hr. reflexivity.
  - rewrite (start_focus_idle _ _ Hr).
    unfold start_focus, bind at 1, get. cbn [fst snd]. rewrite Hr.
    unfold try_except, lift. rewrite start_body_spec, Hr.
    destruct p as [[[r th dl dt se st q] tr] s]. simpl in Hw.
    destruct (thread_start env) as [e|]; cbn [fst snd world sys_stdout].
    + unfold except_Exception, bind, ret. rewrite print_working by exact Hw.
      unfold delivered, mk_world. simpl. rewrite <- app_assoc, drop_app_length.
      unfold with_self, record. simpl. rewrite <- ?app_assoc. reflexivity.
    + unfold delivered, mk_world. simpl. rewrite drop_app_length. reflexivity.
Qed.

(** *** What the two calls print, and where it goes *)

Lemma streams_delivered p w' :
  streams (delivered p w')
  = print_all (printed_texts (drop (length (calls (world p))) (calls w')))
      (sys_stdout p, log_queue (self w')).
Proof.
  unfold streams, delivered. destruct w' as [[r th dl dt se st q] tr].
  cbn [world sys_stdout calls self log_queue with_self set_log_queue].
  rewrite <- surjective_pairing. reflexivity.
Qed.

Lemma printed_since_delivered p w' :
  printed_since p (delivered p w')
  = printed_texts (drop (length (calls (world p))) (calls w')).
Proof. reflexivity. Qed.

Lemma stop_focus_keeps_queue env w :
  log_queue (self (Controller.stop_focus env w).2) = log_queue (self w).
Proof.
  destruct (is_running (self w)) eqn:Hr.
  - open_world w; open_env env; simpl in Hr; subst; run_stop; reflexivity.
  - rewrite (stop_focus_idle _ _ Hr). reflexivity.
Qed.

Lemma start_focus_queue env w :
  log_queue (self (Controller.start_focus env w).2)
  = if is_running (self w) then log_queue (self w) else [].
Proof.
  destruct (is_running (self w)) eqn:Hr.
  - rewrite (start_focus_running _ _ Hr). reflexivity.
  - rewrite (start_focus_idle _ _ Hr). destruct (thread_start env); reflexivity.
Qed.

Lemma stop_body_calls env w :
  exists new, calls (Controller.stop_body env w).2 = calls w ++ new.
Proof.
  open_world w; open_env env; run_stop; rewrite <- ?app_assoc; eexists; reflexivity.
Qed.

Ltac since_then :=
  run_stop; rewrite <- ?app_assoc, drop_app_length; simpl; tauto.

Lemma cancel_failure_printed env w e :
  is_running (self w) = true ->
  daemon_loop (self w) <> None -> daemon_task (self w) <> None ->
  call_soon_threadsafe env = Some e ->
  In ("[GUI] Error cancelling task: " +:+ exn_msg e)
     (printed_texts (drop (length (calls w)) (calls (Controller.stop_focus env w).2))).
Proof.
  intros Hrun Hdl Hdt Hcs.
  open_world w; open_env env; simpl in Hrun, Hdl, Hdt, Hcs; subst;
    try congruence; injection Hcs as <-; since_then.
Qed.

Lemma cleanup_failure_printed env w e :
  is_running (self w) = true ->
  unblock_websites env = Some e
  \/ (unblock_websites env = None /\ apply_focus_policies env = Some e) ->
  In ("[GUI] Warning: Error during cleanup: " +:+ exn_msg e)
     (printed_texts (drop (length (calls w)) (calls (Controller.stop_focus env w).2))).
Proof.
  intros Hrun Hfail.
  open_world w; open_env env; simpl in Hrun, Hfail; subst;
    destruct Hfail as [Hub | [Hub Hap]]; try discriminate;
    try (injection Hub as <-); try (injection Hap as <-);
    since_then.
Qed.

Lemma body_failure_printed env w e w' :
  is_running (self w) = true ->
  Controller.stop_body env w = (Raise e, w') ->
  (Controller.stop_focus env w).1 = Return false
  /\ In ("[GUI] Failed to stop focus mode: " +:+ exn_msg e)
        (printed_texts (drop (length (calls w)) (calls (Controller.stop_focus env w).2))).
Proof.
  intros Hrun Hraise.
  rewrite (stop_focus_raise_caught env w e w' Hrun Hraise).
  split; [reflexivity|].
  destruct (stop_body_calls env w) as [new Hnew]. rewrite Hraise in Hnew.
  cbn [fst snd with_self record calls] in *. rewrite Hnew, <- app_assoc, drop_app_length.
  unfold printed_texts. rewrite omap_app. apply in_or_app. right. left. reflexivity.
Qed.

Lemma returns_a_boolean env w :
  (exists b, (Controller.start_focus env w).1 = Return b)
  /\ (exists b, (Controller.stop_focus env w).1 = Return b).
Proof.
  split; [|apply stop_focus_returns].
  destruct (is_running (self w)) eqn:Hr.
  - rewrite (start_focus_running _ _ Hr). eauto.
  - rewrite (start_focus_idle _ _ Hr). destruct (thread_start env); eauto.
Qed.

Lemma join_returns_true env w :
  is_running (self w) = true ->
  thread_join env = None \/ thread_is_alive (daemon_thread (self w)) = false ->
  (Controller.stop_focus env w).1 = Return true.
Proof.
  intros Hrun Hjoin.
  open_world w; open_env env; simpl in Hrun, Hjoin; subst;
    destruct Hjoin as [Hj | Hj]; try discriminate; run_stop; reflexivity.
Qed.

(** C5 (as amended) -- While the console behind [sys.stdout] takes what is
    written to it, neither [start_focus] nor [stop_focus] raises to its
    caller, and every failure inside them is caught and printed.  A failure
    to launch the thread makes [start_focus] return [False], and a failure
    of the body of [stop_focus] outside its two inner handlers (the join)
    makes [stop_focus] return [False]; a failure to signal the cancellation
    or a failure of the cleanup calls is printed only, and [stop_focus]
    returns [True] whenever the join does not raise.  What is printed is
    written to [sys.stdout], line by line in the order printed: all of it
    reaches the console, and it reaches the log queue through the relay
    when a relay is installed over the console at the time, and not at all
    when [sys.stdout] is the console itself. *)
Theorem start_stop_failures_printed env p
  (Hconsole : working (sys_stdout p)) :
  (exists b, (start_focus env p).1 = Return b)
  /\ (exists b, (stop_focus env p).1 = Return b)
  /\ (forall e,
        is_running (self (world p)) = false -> thread_start env = Some e ->
        (start_focus env p).1 = Return false
        /\ printed_since p (start_focus env p).2
           = ["[GUI] Failed to start focus mode: " +:+ exn_msg e])
  /\ (forall e p',
        is_running (self (world p)) = true -> stop_body env p = (Raise e, p') ->
        (stop_focus env p).1 = Return false
        /\ In ("[GUI] Failed to stop focus mode: " +:+ exn_msg e)
              (printed_since p (stop_focus env p).2))
  /\ (forall e,
        is_running (self (world p)) = true ->
        daemon_loop (self (world p)) <> None -> daemon_task (self (world p)) <> None ->
        call_soon_threadsafe env = Some e ->
        In ("[GUI] Error cancelling task: " +:+ exn_msg e)
           (printed_since p (stop_focus env p).2))
  /\ (forall e,
        is_running (self (world p)) = true ->
        unblock_websites env = Some e
        \/ (unblock_websites env = None /\ apply_focus_policies env = Some e) ->
        In ("[GUI] Warning: Error during cleanup: " +:+ exn_msg e)
           (printed_since p (stop_focus env p).2))
  /\ (is_running (self (world p)) = true ->
      thread_join env = None \/ thread_is_alive (daemon_thread (self (world p))) = false ->
      (stop_focus env p).1 = Return true)
  /\ streams (start_focus env p).2
     = print_all (printed_since p (start_focus env p).2)
         (sys_stdout p,
          if is_running (self (world p)) then log_queue (self (world p)) else [])
  /\ streams (stop_focus env p).2
     = print_all (printed_since p (stop_focus env p).2) (streams p)
  /\ (forall texts q,
        console_text (console_of (print_all texts (sys_stdout p, q)).1)
        = console_text (console_of (sys_stdout p)) +:+ join_lines texts
        /\ (plain (sys_stdout p) -> (print_all texts (sys_stdout p, q)).2 = q)
        /\ (forall name buffer received,
              sys_stdout p = Relay name buffer (Console received None) ->
              has_newline buffer = false ->
              (print_all texts (sys_stdout p, q)).2
              = q ++ queued name (split_lines (buffer +:+ join_lines texts)).1)).
Proof.
  pose proof (start_focus_delivered env p Hconsole) as Hstart.
  pose proof (stop_focus_delivered env p Hconsole) as Hstop.
  destruct (returns_a_boolean env (world p)) as [R1 R2].
  split; [rewrite Hstart; exact R1|].
  split; [rewrite Hstop; exact R2|].
  split.
  { intros e Hidle Hts. rewrite Hstart. cbn [fst snd].
    rewrite printed_since_delivered, (start_focus_idle _ _ Hidle), Hts.
    split; [reflexivity|]. unfold mk_world. cbn [fst snd calls].
    rewrite <- app_assoc, drop_app_length. reflexivity. }
  split.
  { intros e p' Hrun Hraise. rewrite (stop_body_delivered env p Hconsole) in Hraise.
    injection Hraise as Hraise _.
    rewrite Hstop. cbn [fst snd]. rewrite printed_since_delivered.
    apply (body_failure_printed env (world p) e (Controller.stop_body env (world p)).2 Hrun).
    rewrite <- Hraise. apply surjective_pairing. }
  split.
  { intros e Hrun Hdl Hdt Hcs. rewrite Hstop. cbn [fst snd].
    rewrite printed_since_delivered. apply cancel_failure_printed; assumption. }
  split.
  { intros e Hrun Hfail. rewrite Hstop. cbn [fst snd].
    rewrite printed_since_delivered. apply cleanup_failure_printed; assumption. }
  split.
  { intros Hrun Hjoin. rewrite Hstop. apply join_returns_true; assumption. }
  split.
  { rewrite Hstart. cbn [fst snd].
    rewrite streams_delivered, printed_since_delivered, start_focus_queue. reflexivity. }
  split.
  { rewrite Hstop. cbn [fst snd].
    rewrite streams_delivered, printed_since_delivered, stop_focus_keeps_queue.
    reflexivity. }
  intros texts q. split; [|split].
  - apply (print_all_working texts (sys_stdout p, q) Hconsole).
  - intros [received ->].
    destruct (print_all_console texts received q) as [received' ->]. reflexivity.
  - intros name buffer received -> Hb.
    destruct (print_all_relay texts name buffer received q Hb) as [received' ->].
    reflexivity.
Qed.

(** [start_stop_failures_printed] on a fresh controller whose thread does
    not start, with the relay of an earlier run still installed. *)
Lemma start_stop_failures_printed_witness :
  working (sys_stdout (behind_relay init))
  /\ (
  (exists b, (start_focus launch_fails (behind_relay init)).1 = Return b)
  /\ (exists b, (stop_focus launch_fails (behind_relay init)).1 = Return b)
  /\ (forall e,
        is_running (self (world (behind_relay init))) = false -> thread_start launch_fails = Some e ->
        (start_focus launch_fails (behind_relay init)).1 = Return false
        /\ printed_since (behind_relay init) (start_focus launch_fails (behind_relay init)).2
           = ["[GUI] Failed to start focus mode: " +:+ exn_msg e])
  /\ (forall e p',
        is_running (self (world (behind_relay init))) = true -> stop_body launch_fails (behind_relay init) = (Raise e, p') ->
        (stop_focus launch_fails (behind_relay init)).1 = Return false
        /\ In ("[GUI] Failed to stop focus mode: " +:+ exn_msg e)
              (printed_since (behind_relay init) (stop_focus launch_fails (behind_relay init)).2))
  /\ (forall e,
        is_running (self (world (behind_relay init))) = true ->
        daemon_loop (self (world (behind_relay init))) <> None -> daemon_task (self (world (behind_relay init))) <> None ->
        call_soon_threadsafe launch_fails = Some e ->
        In ("[GUI] Error cancelling task: " +:+ exn_msg e)
           (printed_since (behind_relay init) (stop_focus launch_fails (behind_relay init)).2))
  /\ (forall e,
        is_running (self (world (behind_relay init))) = true ->
        unblock_websites launch_fails = Some e
        \/ (unblock_websites launch_fails = None /\ apply_focus_policies launch_fails = Some e) ->
        In ("[GUI] Warning: Error during cleanup: " +:+ exn_msg e)
           (printed_since (behind_relay init) (stop_focus launch_fails (behind_relay init)).2))
  /\ (is_running (self (world (behind_relay init))) = true ->
      thread_join launch_fails = None \/ thread_is_alive (daemon_thread (self (world (behind_relay init)))) = false ->
      (stop_focus launch_fails (behind_relay init)).1 = Return true)
  /\ streams (start_focus launch_fails (behind_relay init)).2
     = print_all (printed_since (behind_relay init) (start_focus launch_fails (behind_relay init)).2)
         (sys_stdout (behind_relay init),
          if is_running (self (world (behind_relay init))) then log_queue (self (world (behind_relay init))) else [])
  /\ streams (stop_focus launch_fails (behind_relay init)).2
     = print_all (printed_since (behind_relay init) (stop_focus launch_fails (behind_relay init)).2) (streams (behind_relay init))
  /\ (forall texts q,
        console_text (console_of (print_all texts (sys_stdout (behind_relay init), q)).1)
        = console_text (console_of (sys_stdout (behind_relay init))) +:+ join_lines texts
        /\ (plain (sys_stdout (behind_relay init)) -> (print_all texts (sys_stdout (behind_relay init), q)).2 = q)
        /\ (forall name buffer received,
              sys_stdout (behind_relay init) = Relay name buffer (Console received None) ->
              has_newline buffer = false ->
              (print_all texts (sys_stdout (behind_relay init), q)).2
              = q ++ queued name (split_lines (buffer +:+ join_lines texts)).1))).
Proof.
  split; [reflexivity|].
  apply (start_stop_failures_printed launch_fails (behind_relay init)). reflexivity.
Defined.

(** C5 (as stated) fails in each of its three parts.  A failure of the
    cleanup inside [stop_focus] is caught and printed, and [stop_focus]
    returns [True], not [False].  A failure to launch the thread on a fresh
    controller, where no relay is installed, is printed on the console and
    nothing reaches the log queue.  And with a console that has been closed,
    the print in the handler of [stop_focus] raises, and [stop_focus] raises
    that to its caller. *)
Lemma failure_true_unqueued_or_raised :
  (unblock_websites cleanup_fails = Some (Exn OSError "Permission denied")
   /\ (stop_focus cleanup_fails (at_console running)).1 = Return true
   /\ printed_since (at_console running) (stop_focus cleanup_fails (at_console running)).2
      = ["[GUI] Warning: Error during cleanup: Permission denied"])
  /\ (thread_start launch_fails = Some (Exn RuntimeError "can't start new thread")
      /\ sys_stdout (at_console init) = Console [] None
      /\ (start_focus launch_fails (at_console init)).1 = Return false
      /\ console_text (console_of (sys_stdout (start_focus launch_fails (at_console init)).2))
         = "[GUI] Failed to start focus mode: can't start new thread" +:+ String LF ""
      /\ log_queue (self (world (start_focus launch_fails (at_console init)).2)) = [])
  /\ (thread_join join_fails = Some (Exn RuntimeError "cannot join thread")
      /\ fault (sys_stdout (console_closed running))
         = Some (Exn ValueError "I/O operation on closed file.")
      /\ (stop_focus join_fails (console_closed running)).1
         = Raise (Exn ValueError "I/O operation on closed file.")).
Proof. repeat split; vm_compute; reflexivity. Qed.

(** X6 -- A [start_focus] on an idle controller is never without effect,
    even when it fails: it clears the stop event, discards every line left
    on the log queue, replaces the thread handle and tries to start the
    thread once.  It returns [True] exactly when the thread starts, and
    then the queue is empty.  When the thread does not start, the controller
    stays idle with its status unchanged and holds a thread that is not
    alive, and the failure is printed after the queue was cleared: with the
    console as [sys.stdout] the queue stays empty, and with a relay
    installed over the console the queue holds the lines which that print
    has completed, and nothing else.  The loop and task handles are not
    touched.  The console is taken to accept what is written. *)
Theorem start_focus_resets env p
  (Hidle : is_running (self (world p)) = false)
  (Hconsole : working (sys_stdout p)) :
  stop_event (self (world (start_focus env p).2)) = false
  /\ daemon_loop (self (world (start_focus env p).2)) = daemon_loop (self (world p))
  /\ daemon_task (self (world (start_focus env p).2)) = daemon_task (self (world p))
  /\ (exists new,
        calls (world (start_focus env p).2) = calls (world p) ++ new
        /\ outside_calls new = [Call_thread_start])
  /\ ((start_focus env p).1 = Return true <-> thread_start env = None)
  /\ (thread_start env = None ->
      is_running (self (world (start_focus env p).2)) = true
      /\ daemon_thread (self (world (start_focus env p).2)) = Some {| is_alive := true |}
      /\ streams (start_focus env p).2 = (sys_stdout p, []))
  /\ (forall e, thread_start env = Some e ->
      (start_focus env p).1 = Return false
      /\ is_running (self (world (start_focus env p).2)) = false
      /\ current_status (self (world (start_focus env p).2))
         = current_status (self (world p))
      /\ daemon_thread (self (world (start_focus env p).2)) = Some {| is_alive := false |}
      /\ streams (start_focus env p).2
         = after_print ("[GUI] Failed to start focus mode: " +:+ exn_msg e)
             (sys_stdout p, [])
      /\ (plain (sys_stdout p) ->
          log_queue (self (world (start_focus env p).2)) = [])
      /\ (forall name buffer received,
            sys_stdout p = Relay name buffer (Console received None) ->
            log_queue (self (world (start_focus env p).2))
            = queued name
                (split_lines
                   (buffer +:+ ("[GUI] Failed to start focus mode: " +:+ exn_msg e)
                    +:+ String LF "")).1)).
Proof.
  rewrite (start_focus_delivered env p Hconsole), (start_focus_idle _ _ Hidle).
  destruct p as [[[r th dl dt se st q] tr] s]. simpl in Hidle, Hconsole. subst r.
  unfold delivered, mk_world.
  destruct (thread_start env) as [e0|]; cbn [fst snd world sys_stdout calls self
    log_queue stop_event daemon_loop daemon_task daemon_thread is_running
    current_status with_self set_log_queue streams].
  - rewrite <- !app_assoc, drop_app_length.
    change (print_all (printed_texts ([Call_thread_start]
              ++ [Call_print ("[GUI] Failed to start focus mode: " +:+ exn_msg e0)])) (s, []))
      with (after_print ("[GUI] Failed to start focus mode: " +:+ exn_msg e0) (s, [])).
    split; [reflexivity|]. split; [reflexivity|]. split; [reflexivity|].
    split.
    { exists [Call_thread_start;
              Call_print ("[GUI] Failed to start focus mode: " +:+ exn_msg e0)].
      split; reflexivity. }
    split; [split; discriminate|].
    split; [discriminate|].
    intros e [= <-].
    split; [reflexivity|]. split; [reflexivity|]. split; [reflexivity|].
    split; [reflexivity|].
    split.
    { symmetry. apply surjective_pairing. }
    split.
    + intros [received ->]. rewrite after_print_console. reflexivity.
    + intros name buffer received ->.
      destruct (after_print_relay ("[GUI] Failed to start focus mode: " +:+ exn_msg e0)
                  name buffer received []) as [received' ->].
      rewrite append_assoc. reflexivity.
  - rewrite drop_app_length.
    split; [reflexivity|]. split; [reflexivity|]. split; [reflexivity|].
    split; [exists [Call_thread_start]; split; reflexivity|].
    split; [split; reflexivity|].
    split; [intros _; repeat split; reflexivity|].
    intros e [=].
Qed.

(** [start_focus_resets] on a stopped controller with two stale lines on
    its queue, whose thread does not start while the relay of the earlier
    run is still installed. *)
Lemma start_focus_resets_witness :
  is_running (self (world (behind_relay stale))) = false
  /\ working (sys_stdout (behind_relay stale))
  /\ log_queue (self (world (start_focus launch_fails (behind_relay stale)).2))
     = [("stdout", "[GUI] Failed to start focus mode: can't start new thread")]
  /\ (
  stop_event (self (world (start_focus launch_fails (behind_relay stale)).2)) = false
  /\ daemon_loop (self (world (start_focus launch_fails (behind_relay stale)).2)) = daemon_loop (self (world (behind_relay stale)))
  /\ daemon_task (self (world (start_focus launch_fails (behind_relay stale)).2)) = daemon_task (self (world (behind_relay stale)))
  /\ (exists new,
        calls (world (start_focus launch_fails (behind_relay stale)).2) = calls (world (behind_relay stale)) ++ new
        /\ outside_calls new = [Call_thread_start])
  /\ ((start_focus launch_fails (behind_relay stale)).1 = Return true <-> thread_start launch_fails = None)
  /\ (thread_start launch_fails = None ->
      is_running (self (world (start_focus launch_fails (behind_relay stale)).2)) = true
      /\ daemon_thread (self (world (start_focus launch_fails (behind_relay stale)).2)) = Some {| is_alive := true |}
      /\ streams (start_focus launch_fails (behind_relay stale)).2 = (sys_stdout (behind_relay stale), []))
  /\ (forall e, thread_start launch_fails = Some e ->
      (start_focus launch_fails (behind_relay stale)).1 = Return false
      /\ is_running (self (world (start_focus launch_fails (behind_relay stale)).2)) = false
      /\ current_status (self (world (start_focus launch_fails (behind_relay stale)).2))
         = current_status (self (world (behind_relay stale)))
      /\ daemon_thread (self (world (start_focus launch_fails (behind_relay stale)).2)) = Some {| is_alive := false |}
      /\ streams (start_focus launch_fails (behind_relay stale)).2
         = after_print ("[GUI] Failed to start focus mode: " +:+ exn_msg e)
             (sys_stdout (behind_relay stale), [])
      /\ (plain (sys_stdout (behind_relay stale)) ->
          log_queue (self (world (start_focus launch_fails (behind_relay stale)).2)) = [])
      /\ (forall name buffer received,
            sys_stdout (behind_relay stale) = Relay name buffer (Console received None) ->
            log_queue (self (world (start_focus launch_fails (behind_relay stale)).2))
            = queued name
                (split_lines
                   (buffer +:+ ("[GUI] Failed to start focus mode: " +:+ exn_msg e)
                    +:+ String LF "")).1))).
Proof.
  split; [reflexivity|]. split; [reflexivity|]. split; [vm_compute; reflexivity|].
  apply (start_focus_resets launch_fails (behind_relay stale)); reflexivity.
Defined.

End ProcessFacts.
